(** * Universal scraper: source detection, extraction routing, rate limiting

    A shallow embedding of the detection and routing core of the news
    scraper ([src/detection/source_detector.py],
    [src/extractors/*.py], [src/scraper/news_scraper.py],
    [src/utils/rate_limiter.py], [src/utils/text_cleaner.py],
    [src/models.py], [src/config.py]) and of the loop of its command
    line ([main.py]), together with the properties its specification
    states about it.

    Conventions.
    - A Python [str] is a [string] whose characters are code points
      below 256.
    - A Python call that may raise is a value of [result]: [Ok v] when it
      returns [v], [Raise e] when the exception [e] leaves the call.
    - Wall-clock times and delays are rationals ([Q]); sums, differences
      and comparisons of them are exact.  The one quotient the code
      computes, [60.0 / requests_per_minute], is the IEEE 754 double
      division it is in Python ([float_quotient]).
    - Logging has no effect on what the functions return and is left
      out.
    - Third-party and standard-library calls the scraper makes
      ([validators.url], [requests], [feedparser], [trafilatura],
      Playwright, [urllib.parse], [time]) are fields of the class
      [Platform]; the theorems hold for every platform.  [Url] contains a
      port of [urllib.parse] and [reference_platform] an instance, used
      to evaluate the definitions on concrete inputs. *)

From Stdlib Require Import Ascii String List ZArith QArith Qminmax Bool Lia Lqa.
From Stdlib Require Floats.SpecFloat.
From stdpp Require Import base option list strings gmap.
Import ListNotations.

Local Open Scope stdpp_scope.

(** ** Exceptions and fallible computations *)

Inductive exn_kind :=
| ValueError
| UnboundLocalError
| IndexError
| OverflowError
| ImportError
| ExtractionError
| RequestException
| OtherError.

Record exn := Exn { exn_class : exn_kind; exn_message : string }.

Inductive result (A : Type) :=
| Ok (value : A)
| Raise (e : exn).
Arguments Ok {A} value.
Arguments Raise {A} e.

Definition bind {A B} (m : result A) (k : A -> result B) : result B :=
  match m with
  | Ok a => k a
  | Raise e => Raise e
  end.

(** [try: body except Exception as e: handler e] *)
Definition try_except {A} (body : result A) (handler : exn -> result A) : result A :=
  match body with
  | Ok a => Ok a
  | Raise e => handler e
  end.

Definition returns {A} (m : result A) : bool :=
  match m with Ok _ => true | Raise _ => false end.

#[global] Instance result_ret : MRet result := fun A a => Ok a.
#[global] Instance result_bind : MBind result := fun A B k m => bind m k.

(** ** Python string methods *)

Module PyStr.

Definition code (c : ascii) : N := N_of_ascii c.

Definition in_range (lo hi : N) (c : ascii) : bool :=
  ((lo <=? code c) && (code c <=? hi))%N.

(** [str.isspace] on a single character (code points below 256). *)
Definition is_space (c : ascii) : bool :=
  in_range 9 13 c || in_range 28 32 c
  || (code c =? 133)%N || (code c =? 160)%N.

(** [str.lower] on a single character. *)
Definition lower_char (c : ascii) : ascii :=
  if in_range 65 90 c || in_range 192 214 c || in_range 216 222 c
  then ascii_of_N (code c + 32)
  else c.

Fixpoint lower (s : string) : string :=
  match s with
  | EmptyString => EmptyString
  | String c s' => String (lower_char c) (lower s')
  end.

(** [s.startswith(p)] *)
Fixpoint startswith (s p : string) : bool :=
  match p with
  | EmptyString => true
  | String c p' =>
      match s with
      | EmptyString => false
      | String d s' => Ascii.eqb c d && startswith s' p'
      end
  end.

(** [s.endswith(p)] *)
Definition endswith (s p : string) : bool :=
  startswith (String.rev s) (String.rev p).

(** [sub in s] *)
Fixpoint contains (sub s : string) : bool :=
  startswith s sub ||
  match s with
  | EmptyString => false
  | String _ s' => contains sub s'
  end.

(** [c in chars] for a single character. *)
Fixpoint mem_char (c : ascii) (chars : string) : bool :=
  match chars with
  | EmptyString => false
  | String d chars' => Ascii.eqb c d || mem_char c chars'
  end.

Fixpoint lstrip_by (p : ascii -> bool) (s : string) : string :=
  match s with
  | EmptyString => EmptyString
  | String c s' => if p c then lstrip_by p s' else s
  end.

Definition rstrip_by (p : ascii -> bool) (s : string) : string :=
  String.rev (lstrip_by p (String.rev s)).

(** [s.strip()] *)
Definition strip (s : string) : string :=
  rstrip_by is_space (lstrip_by is_space s).

(** [s.rstrip(chars)] *)
Definition rstrip (s chars : string) : string :=
  rstrip_by (fun c => mem_char c chars) s.

(** [s.lstrip(chars)] *)
Definition lstrip (s chars : string) : string :=
  lstrip_by (fun c => mem_char c chars) s.

(** Truth value of a [str]: non-empty. *)
Definition truthy (s : string) : bool :=
  match s with EmptyString => false | String _ _ => true end.

(** [a or b] on two [str]. *)
Definition or_else (a b : string) : string :=
  if truthy a then a else b.

(** [s[:n]] *)
Fixpoint take (n : nat) (s : string) : string :=
  match n, s with
  | S n', String c s' => String c (take n' s')
  | _, _ => EmptyString
  end.

(** [s[n:]] *)
Fixpoint drop (n : nat) (s : string) : string :=
  match n, s with
  | S n', String _ s' => drop n' s'
  | _, _ => s
  end.

(** [s.replace(c, "")] for a one-character [c]. *)
Fixpoint remove_char (c : ascii) (s : string) : string :=
  match s with
  | EmptyString => EmptyString
  | String d s' =>
      if Ascii.eqb c d then remove_char c s' else String d (remove_char c s')
  end.

(** [s.find(c)]: the index of the first [c], if any. *)
Fixpoint find_char (c : ascii) (s : string) : option nat :=
  match s with
  | EmptyString => None
  | String d s' =>
      if Ascii.eqb c d then Some 0 else S <$> find_char c s'
  end.

(** [s.split(c)] for a one-character separator. *)
Fixpoint split_go (c : ascii) (cur : string) (s : string) : list string :=
  match s with
  | EmptyString => [String.rev cur]
  | String d s' =>
      if Ascii.eqb c d then String.rev cur :: split_go c EmptyString s'
      else split_go c (String d cur) s'
  end.
Definition split (c : ascii) (s : string) : list string :=
  split_go c EmptyString s.

(** [sep.join(parts)] *)
Fixpoint join (sep : string) (parts : list string) : string :=
  match parts with
  | [] => EmptyString
  | [p] => p
  | p :: rest => p +:+ sep +:+ join sep rest
  end.

End PyStr.

(** ** The fragment of [re] the detector uses

    The detector's patterns are built from literal characters, [\w+], an
    optional character [c?] and the anchor [$]; they are searched with
    [re.IGNORECASE]. *)

Module Re.

Inductive atom :=
| Chr (c : ascii)      (* a literal character *)
| OptChr (c : ascii)   (* [c?] *)
| WordPlus             (* [\w+] *)
| Eos.                 (* [$] *)

Definition pattern := list atom.

Fixpoint lit (s : string) : pattern :=
  match s with
  | EmptyString => []
  | String c s' => Chr c :: lit s'
  end.

(** [\w] on a [str] pattern: alphanumerics and the underscore. *)
Definition is_word (c : ascii) : bool :=
  PyStr.in_range 48 57 c || PyStr.in_range 65 90 c
  || PyStr.in_range 97 122 c || (PyStr.code c =? 95)%N
  || (PyStr.code c =? 170)%N || PyStr.in_range 178 179 c
  || (PyStr.code c =? 181)%N || PyStr.in_range 185 186 c
  || PyStr.in_range 188 190 c || PyStr.in_range 192 214 c
  || PyStr.in_range 216 246 c || PyStr.in_range 248 255 c.

(** Case-insensitive comparison of a pattern character with a subject
    character. *)
Definition ci_eq (c d : ascii) : bool :=
  Ascii.eqb (PyStr.lower_char c) (PyStr.lower_char d).

(** [$] without [re.MULTILINE]: at the end of the subject, or just
    before a newline that ends it. *)
Definition at_end (s : string) : bool :=
  match s with
  | EmptyString => true
  | String c EmptyString => Ascii.eqb c "010"%char
  | _ => false
  end.

(** Does [pat] match a prefix of [s]? *)
Fixpoint match_here (pat : pattern) (s : string) {struct pat} : bool :=
  match pat with
  | [] => true
  | Chr c :: rest =>
      match s with
      | String d s' => ci_eq c d && match_here rest s'
      | EmptyString => false
      end
  | OptChr c :: rest =>
      match s with
      | String d s' => ci_eq c d && match_here rest s'
      | EmptyString => false
      end
      || match_here rest s
  | WordPlus :: rest =>
      (fix words (s : string) : bool :=
         match s with
         | String d s' => is_word d && (match_here rest s' || words s')
         | EmptyString => false
         end) s
  | Eos :: rest => at_end s && match_here rest s
  end.

(** [re.search(pat, s, re.IGNORECASE)] as a truth value. *)
Fixpoint search (pat : pattern) (s : string) : bool :=
  match_here pat s ||
  match s with
  | EmptyString => false
  | String _ s' => search pat s'
  end.

End Re.

(** ** A port of [urllib.parse]

    [urlsplit], [urlparse], [urlunparse] and [urljoin] as CPython 3.11
    defines them, for URLs without a bracketed host.  Of a bracketed
    (IPv6) host the port only checks that the brackets are balanced;
    CPython goes on to validate the address between them and raises
    [ValueError] where the port does not.  No theorem depends on the
    port: it serves to evaluate the definitions on the examples, none
    of which has a bracket. *)

Module Url.

Record SplitResult := {
  scheme : string;
  netloc : string;
  path : string;
  query : string;
  fragment : string
}.

Record ParseResult := {
  p_scheme : string;
  p_netloc : string;
  p_path : string;
  p_params : string;
  p_query : string;
  p_fragment : string
}.

Notation "a ∈? l" := (bool_decide (elem_of (a : string) (l : list string)))
  (at level 70).

Definition uses_relative : list string :=
  [""; "ftp"; "http"; "gopher"; "nntp"; "imap"; "wais"; "file"; "https";
   "shttp"; "mms"; "prospero"; "rtsp"; "rtspu"; "sftp"; "svn"; "svn+ssh";
   "ws"; "wss"].

Definition uses_netloc : list string :=
  [""; "ftp"; "http"; "gopher"; "nntp"; "telnet"; "imap"; "wais"; "file";
   "mms"; "https"; "shttp"; "snews"; "prospero"; "rtsp"; "rtspu"; "rsync";
   "svn"; "svn+ssh"; "sftp"; "nfs"; "git"; "git+ssh"; "ws"; "wss"].

Definition uses_params : list string :=
  [""; "ftp"; "hdl"; "prospero"; "http"; "imap"; "https"; "shttp"; "rtsp";
   "rtspu"; "sip"; "sips"; "mms"; "sftp"; "tel"].

Definition is_ascii_alpha (c : ascii) : bool :=
  PyStr.in_range 65 90 c || PyStr.in_range 97 122 c.

Definition is_scheme_char (c : ascii) : bool :=
  is_ascii_alpha c || PyStr.in_range 48 57 c
  || PyStr.mem_char c "+-.".

Fixpoint all_chars (p : ascii -> bool) (s : string) : bool :=
  match s with
  | EmptyString => true
  | String c s' => p c && all_chars p s'
  end.

(** [_WHATWG_C0_CONTROL_OR_SPACE] *)
Definition is_c0_or_space (c : ascii) : bool := PyStr.in_range 0 32 c.

(** The index of the first of [/], [?], [#]; the length when there is
    none ([_splitnetloc]). *)
Fixpoint netloc_end (s : string) : nat :=
  match s with
  | EmptyString => 0
  | String c s' => if PyStr.mem_char c "/?#" then 0 else S (netloc_end s')
  end.

(** [s.split(c, 1)] when [c in s]: the text before and after the first
    [c]. *)
Definition cut (c : ascii) (s : string) : option (string * string) :=
  i ← PyStr.find_char c s; Some (PyStr.take i s, PyStr.drop (S i) s).

Definition urlsplit (url default_scheme : string) : result SplitResult :=
  let url := PyStr.lstrip_by is_c0_or_space url in
  let url := PyStr.remove_char "009" (PyStr.remove_char "013"
               (PyStr.remove_char "010" url)) in
  let '(sch, url) :=
    match PyStr.find_char ":" url, url with
    | Some (S i), String c _ =>
        if is_ascii_alpha c && all_chars is_scheme_char (PyStr.take (S i) url)
        then (PyStr.lower (PyStr.take (S i) url), PyStr.drop (S (S i)) url)
        else (default_scheme, url)
    | _, _ => (default_scheme, url)
    end in
  split ← (if PyStr.startswith url "//" then
             let rest := PyStr.drop 2 url in
             let n := netloc_end rest in
             let nl := PyStr.take n rest in
             if xorb (PyStr.contains "[" nl) (PyStr.contains "]" nl)
             then Raise (Exn ValueError "Invalid IPv6 URL")
             else Ok (nl, PyStr.drop n rest)
           else Ok (EmptyString, url));
  let '(nl, url) := split in
  let '(url, frag) :=
    match cut "#" url with Some (u, f) => (u, f) | None => (url, EmptyString) end in
  let '(url, qry) :=
    match cut "?" url with Some (u, q) => (u, q) | None => (url, EmptyString) end in
  Ok {| scheme := sch; netloc := nl; path := url; query := qry; fragment := frag |}.

(** [s.rfind(c)] *)
Fixpoint rfind_char (c : ascii) (s : string) : option nat :=
  match s with
  | EmptyString => None
  | String d s' =>
      match rfind_char c s' with
      | Some i => Some (S i)
      | None => if Ascii.eqb c d then Some 0 else None
      end
  end.

Definition splitparams (url : string) : string * string :=
  let found :=
    match rfind_char "/" url with
    | Some j => (fun i => j + i) <$> PyStr.find_char ";" (PyStr.drop j url)
    | None => PyStr.find_char ";" url
    end in
  match found with
  | Some i => (PyStr.take i url, PyStr.drop (S i) url)
  | None =>
      (* [i = -1]: reached only without a slash, where [";" in url]
         excludes it *)
      (url, EmptyString)
  end.

Definition urlparse (url default_scheme : string) : result ParseResult :=
  r ← urlsplit url default_scheme;
  let '(url, params) :=
    if (scheme r ∈? uses_params) && PyStr.contains ";" (path r)
    then splitparams (path r)
    else (path r, EmptyString) in
  Ok {| p_scheme := scheme r; p_netloc := netloc r; p_path := url;
        p_params := params; p_query := query r; p_fragment := fragment r |}.

Definition urlunsplit (sch nl url qry frag : string) : string :=
  let url :=
    if PyStr.truthy nl
       || (PyStr.truthy sch && (sch ∈? uses_netloc)
           && negb (PyStr.startswith url "//"))
    then "//" +:+ nl +:+
         (if PyStr.truthy url && negb (PyStr.startswith url "/")
          then "/" +:+ url else url)
    else url in
  let url := if PyStr.truthy sch then sch +:+ ":" +:+ url else url in
  let url := if PyStr.truthy qry then url +:+ "?" +:+ qry else url in
  if PyStr.truthy frag then url +:+ "#" +:+ frag else url.

Definition urlunparse (sch nl url params qry frag : string) : string :=
  let url := if PyStr.truthy params then url +:+ ";" +:+ params else url in
  urlunsplit sch nl url qry frag.

Definition nonempty (s : string) : bool := PyStr.truthy s.

(** [segments[1:-1] = filter(None, segments[1:-1])] *)
Definition squeeze (segments : list string) : list string :=
  match segments with
  | first :: (_ :: _) as rest =>
      first :: filter (fun s => Is_true (nonempty s)) (removelast rest)
            ++ [List.last rest EmptyString]
  | _ => segments
  end.

(** The loop of [urljoin] that removes dot segments; [resolved] is kept
    in reverse. *)
Fixpoint resolve (segments resolved : list string) : list string :=
  match segments with
  | [] => rev resolved
  | seg :: rest =>
      if String.eqb seg ".." then resolve rest (tail resolved)
      else if String.eqb seg "." then resolve rest resolved
      else resolve rest (seg :: resolved)
  end.

Definition urljoin (base url : string) : result string :=
  if negb (PyStr.truthy base) then Ok url
  else if negb (PyStr.truthy url) then Ok base
  else
    b ← urlparse base EmptyString;
    u ← urlparse url (p_scheme b);
    let sch := p_scheme u in
    if negb (String.eqb sch (p_scheme b)) || negb (sch ∈? uses_relative)
    then Ok url
    else if (sch ∈? uses_netloc) && PyStr.truthy (p_netloc u)
    then Ok (urlunparse sch (p_netloc u) (p_path u) (p_params u)
                        (p_query u) (p_fragment u))
    else
      let nl := if sch ∈? uses_netloc then p_netloc b else p_netloc u in
      if negb (PyStr.truthy (p_path u)) && negb (PyStr.truthy (p_params u))
      then Ok (urlunparse sch nl (p_path b) (p_params b)
                          (if PyStr.truthy (p_query u) then p_query u
                           else p_query b)
                          (p_fragment u))
      else
        let base_parts := PyStr.split "/" (p_path b) in
        let base_parts :=
          if String.eqb (List.last base_parts EmptyString) EmptyString
          then base_parts else removelast base_parts in
        let segments :=
          if PyStr.startswith (p_path u) "/"
          then PyStr.split "/" (p_path u)
          else squeeze (base_parts ++ PyStr.split "/" (p_path u)) in
        let resolved := resolve segments [] in
        let resolved :=
          if (List.last segments EmptyString ∈? ["."; ".."])
          then resolved ++ [EmptyString] else resolved in
        Ok (urlunparse sch nl
              (PyStr.or_else (PyStr.join "/" resolved) "/")
              (p_params u) (p_query u) (p_fragment u)).

End Url.

(** ** Data model ([src/models.py]) *)

Inductive SourceType :=
| RSS_FEED
| ATOM_FEED
| STATIC_HTML
| DYNAMIC_HTML
| REDDIT
| STACKOVERFLOW
| GENERIC_FORUM
| UNSUPPORTED
| UNKNOWN.

#[global] Instance SourceType_eq_dec : EqDecision SourceType.
Proof. solve_decision. Defined.

(** [SourceType.value] *)
Definition value (t : SourceType) : string :=
  match t with
  | RSS_FEED => "rss_feed"
  | ATOM_FEED => "atom_feed"
  | STATIC_HTML => "static_html"
  | DYNAMIC_HTML => "dynamic_html"
  | REDDIT => "reddit"
  | STACKOVERFLOW => "stackoverflow"
  | GENERIC_FORUM => "generic_forum"
  | UNSUPPORTED => "unsupported"
  | UNKNOWN => "unknown"
  end.

(** A [datetime.datetime]. *)
Record datetime := {
  year : Z;
  month : Z;
  day : Z;
  hour : Z;
  minute : Z;
  second : Z
}.

(** A [time.struct_time], as [feedparser] gives for a parsed date. *)
Record struct_time := {
  tm_year : Z;
  tm_mon : Z;
  tm_mday : Z;
  tm_hour : Z;
  tm_min : Z;
  tm_sec : Z
}.

(** [ContentItem].  [title], [content] and [author] hold what the
    extractor read, which for the JSON of the page extractors can be
    Python's [None]; [metadata] is the dictionary of the dataclass. *)
Record ContentItem := {
  source_url : string;
  source_type : SourceType;
  title : option string;
  content : option string;
  published_at : option datetime;
  author : option string;
  metadata : gmap string string
}.

(** [SourceConfig], fields in the order of the dataclass. *)
Record SourceConfig := {
  url : string;
  name : string;
  cfg_source_type : option SourceType;
  max_items : Z;
  enabled : bool;
  use_dynamic_rendering : bool
}.

(** [SourceConfig(url=..., name=..., max_items=..., source_type=...)]:
    the dataclass constructor followed by [__post_init__]. *)
Definition make_SourceConfig (url name : string) (max_items : Z)
    (source_type : option SourceType) : result SourceConfig :=
  if negb (PyStr.truthy url)
     || negb (PyStr.startswith url "http://" || PyStr.startswith url "https://")
  then Raise (Exn ValueError ("Invalid URL: " +:+ url))
  else if (max_items <? 1)%Z
  then Raise (Exn ValueError "max_items must be at least 1")
  else Ok {| url := url; name := name; cfg_source_type := source_type;
             max_items := max_items; enabled := true;
             use_dynamic_rendering := false |}.

(** The external normalized record [scrape_url] returns, a dictionary
    with exactly these five keys. *)
Record Record_ := {
  r_title : option string;
  r_link : string;
  r_content : option string;
  r_date : string;
  r_source : string
}.

(** ** External collaborators *)

(** One entry of a parsed feed: what [entry.get(key)] gives for each key
    the extractor reads ([None] when the key is absent), and the values of
    [entry.content] when ['content' in entry]. *)
Record Entry := {
  e_title : option string;
  e_link : option string;
  e_published_parsed : option struct_time;
  e_updated_parsed : option struct_time;
  e_summary : option string;
  e_description : option string;
  e_content : option (list string);
  e_author : option string
}.

(** The result of [feedparser.parse]. *)
Record Feed := {
  bozo : bool;
  entries : list Entry
}.

Class Platform := {
  (** truth value of [validators.url(url)] *)
  validators_url : string -> bool;
  (** [urllib.parse.urlparse(url)] *)
  urlparse : string -> result Url.ParseResult;
  (** [urllib.parse.urljoin(base, url)] *)
  urljoin : string -> string -> result string;
  (** [requests.head(url, ...)]: the [Content-Type] header of the
      response, if it has one *)
  requests_head : string -> result (option string);
  (** [requests.get(url, ...).text] *)
  requests_get : string -> result string;
  (** [BeautifulSoup(content, 'xml').find(tag)] as a truth value *)
  soup_find : string -> string -> result bool;
  (** [feedparser.parse(url)] *)
  feedparser_parse : string -> result Feed;
  (** [datetime.fromtimestamp(time.mktime(t))] *)
  local_datetime : struct_time -> result datetime;
  (** [datetime.now()] when the clock reads [t] *)
  datetime_now : Q -> datetime;
  (** [datetime.fromisoformat(s)] *)
  fromisoformat : string -> result datetime;
  (** [trafilatura.fetch_url(url)] *)
  trafilatura_fetch_url : string -> result (option string);
  (** [trafilatura.extract(html, output_format='json', ...)]; the flag
      tells the call of the static extractor (with its three [include_]
      options) from the call of the dynamic one *)
  trafilatura_extract : bool -> string -> result (option string);
  (** [json.loads(text)] for a JSON object with string or [null] values *)
  json_loads : string -> result (gmap string (option string));
  (** whether [from playwright.sync_api import sync_playwright] succeeds *)
  playwright_installed : bool;
  (** the browser session of the dynamic extractor: launch, navigate,
      wait, [page.content()] *)
  render_page : string -> result string
}.

(** ** Text utilities ([src/utils/text_cleaner.py]) *)

Section TextCleaner.
Context `{Platform}.

Definition get_domain_name (url : string) : string :=
  match urlparse url with
  | Ok parsed =>
      let domain := Url.p_netloc parsed in
      if PyStr.startswith domain "www." then PyStr.drop 4 domain else domain
  | Raise _ => url
  end.

End TextCleaner.

(** ** Rate limiter ([src/utils/rate_limiter.py]) *)

(** The clock.  [now] is what [time.time()] reads; [delays] tells, for
    each coming blocking call in turn, how much longer than asked it
    takes (no entry: no extra time). *)
Record World := {
  now : Q;
  delays : list Q
}.

Definition advance (d : Q) (w : World) : World :=
  {| now := (now w + d + hd 0 (delays w))%Q; delays := tl (delays w) |}.

(** [time.sleep(d)] *)
Definition time_sleep (d : Q) (w : World) : World := advance d w.

(** A blocking call (network, browser) that takes its own time. *)
Definition elapse (w : World) : World := advance 0%Q w.

Definition Qltb (a b : Q) : bool := negb (Qle_bool b a).

(** *** Division of doubles

    [a / b] for a [float] [a] and an [int] [b] whose values are the
    integers [a] and [b]: the integer is converted to the nearest double
    and the quotient is rounded to the nearest double (binary64, ties to
    even), after the specification of the Standard Library.  Python
    raises [OverflowError] for an integer of 2^1024 and more, for which
    no limiter is built. *)
Definition float_of_int (z : Z) : SpecFloat.spec_float :=
  SpecFloat.binary_normalize 53 1024 z 0 false.

(** The value of a finite double. *)
Definition float_value (f : SpecFloat.spec_float) : Q :=
  match f with
  | SpecFloat.S754_finite sign m e =>
      let v := Qred (inject_Z (Zpos m) * Qpower 2 e) in
      if sign then Qopp v else v
  | _ => 0%Q
  end.

Definition float_quotient (a b : Z) : Q :=
  float_value (SpecFloat.SFdiv 53 1024 (float_of_int a) (float_of_int b)).

Record RateLimiter := {
  requests_per_minute : Z;
  default_delay : Q;
  min_delay : Q;
  last_request : gmap string Q
}.

Section RateLimiter.
Context `{Platform}.

(** [RateLimiter.__init__] *)
Definition RateLimiter_init (requests_per_minute : Z) (default_delay : Q)
    : RateLimiter :=
  {| requests_per_minute := requests_per_minute;
     default_delay := default_delay;
     min_delay := if (0 <? requests_per_minute)%Z
                  then float_quotient 60 requests_per_minute
                  else default_delay;
     last_request := ∅ |}.

Definition extract_domain (url : string) : string :=
  match urlparse url with
  | Ok parsed => Url.p_netloc parsed
  | Raise _ => url
  end.

(** [custom_delay or self.default_delay] *)
Definition effective_delay (rl : RateLimiter) (custom_delay : option Q) : Q :=
  match custom_delay with
  | Some d => if Qeq_bool d 0%Q then default_delay rl else d
  | None => default_delay rl
  end.

Definition required_delay (rl : RateLimiter) (custom_delay : option Q) : Q :=
  Qmax (min_delay rl) (effective_delay rl custom_delay).

Definition record_request (domain : string) (t : Q) (rl : RateLimiter)
    : RateLimiter :=
  {| requests_per_minute := requests_per_minute rl;
     default_delay := default_delay rl;
     min_delay := min_delay rl;
     last_request := <[domain := t]> (last_request rl) |}.

(** [RateLimiter.wait], run by a single thread. *)
Definition wait (url : string) (custom_delay : option Q)
    (rl : RateLimiter) (w : World) : RateLimiter * World :=
  let domain := extract_domain url in
  let current_time := now w in
  match last_request rl !! domain with
  | Some last =>
      let elapsed := (current_time - last)%Q in
      if Qltb elapsed (required_delay rl custom_delay) then
        let sleep_time := (required_delay rl custom_delay - elapsed)%Q in
        let w' := time_sleep sleep_time w in
        (record_request domain (now w') rl, w')
      else (record_request domain current_time rl, w)
  | None => (record_request domain current_time rl, w)
  end.

(** [RateLimiter.reset] *)
Definition reset (rl : RateLimiter) : RateLimiter :=
  {| requests_per_minute := requests_per_minute rl;
     default_delay := default_delay rl;
     min_delay := min_delay rl;
     last_request := ∅ |}.

End RateLimiter.

(** ** Source type detection ([src/detection/source_detector.py]) *)

(** Network requests the detector issues. *)
Inductive request :=
| HEAD (url : string)
| GET (url : string).

(** A computation that may raise and that leaves the trace of the
    requests it issued, in order. *)
Definition io (A : Type) : Type := result A * list request.

#[global] Instance io_ret : MRet io := fun A a => (Ok a, []).
#[global] Instance io_bind : MBind io := fun A B k m =>
  match m with
  | (Ok a, t) => let '(r, t') := k a in (r, t ++ t')
  | (Raise e, t) => (Raise e, t)
  end.

(** [try: body except Exception as e: handler e] *)
Definition io_try {A} (body : io A) (handler : exn -> io A) : io A :=
  match body with
  | (Ok a, t) => (Ok a, t)
  | (Raise e, t) => let '(r, t') := handler e in (r, t ++ t')
  end.

(** Issue [req], whose outcome is [r]. *)
Definition perform {A} (req : request) (r : result A) : io A := (r, [req]).

(** A call that issues no request. *)
Definition quiet {A} (r : result A) : io A := (r, []).

(** [any(marker in content for marker in markers)] *)
Definition any_in (markers : list string) (content : string) : bool :=
  existsb (fun marker => PyStr.contains marker content) markers.

(** [o] as a condition: neither [None] nor the empty string. *)
Definition present (o : option string) : bool :=
  match o with Some s => PyStr.truthy s | None => false end.

(** The four helper methods [detect] calls on [self]. *)
Record Stages := {
  st_check_platform_patterns : string -> io (option SourceType);
  st_is_feed_url : string -> io bool;
  st_get_content_type : string -> io (option string);
  st_analyze_content : string -> io (option SourceType)
}.

Section SourceDetector.
Context `{Platform}.

(** [self.platform_patterns], in the order of the dictionary. *)
Definition platform_patterns : list (SourceType * list Re.pattern) :=
  [ (REDDIT,
      [ Re.lit "reddit.com/r/" ++ [Re.WordPlus];
        Re.lit "reddit.com/user/" ++ [Re.WordPlus] ]);
    (STACKOVERFLOW,
      [ Re.lit "stackoverflow.com/questions";
        Re.lit "stackoverflow.com/search";
        Re.lit "stackoverflow.com/questions/tagged" ]) ].

(** [self.feed_patterns] *)
Definition feed_patterns : list Re.pattern :=
  [ Re.lit "/feed" ++ [Re.OptChr "/"; Re.Eos];
    Re.lit "/rss" ++ [Re.OptChr "/"; Re.Eos];
    Re.lit "/atom" ++ [Re.OptChr "/"; Re.Eos];
    Re.lit ".xml" ++ [Re.Eos];
    Re.lit ".rss" ++ [Re.Eos] ].

Fixpoint first_platform (table : list (SourceType * list Re.pattern))
    (url : string) : option SourceType :=
  match table with
  | [] => None
  | (source_type, patterns) :: table' =>
      if existsb (fun pattern => Re.search pattern url) patterns
      then Some source_type
      else first_platform table' url
  end.

Definition _check_platform_patterns (url : string) : option SourceType :=
  first_platform platform_patterns url.

Definition _is_feed_url (url : string) : bool :=
  existsb (fun pattern => Re.search pattern url) feed_patterns.

Definition _get_content_type (url : string) : io (option string) :=
  io_try
    (content_type ← perform (HEAD url) (requests_head url);
     mret (Some (PyStr.lower (default EmptyString content_type))))
    (fun _ => mret None).

Definition atom_namespace_marker : string :=
  "xmlns=" +:+ String "034"%char "http://www.w3.org/2005/Atom".

Definition _analyze_content (url : string) : io (option SourceType) :=
  io_try
    (text ← perform (GET url) (requests_get url);
     let content := PyStr.take 5000 text in
     if any_in ["<rss"; "<feed"; "xmlns:atom"; atom_namespace_marker] content
     then mret (Some RSS_FEED)
     else
       is_xml_feed ← io_try
         (quiet (rss ← soup_find content "rss";
                 if (rss : bool) then Ok true else soup_find content "feed"))
         (fun _ => mret false);
       if (is_xml_feed : bool) then mret (Some RSS_FEED)
       else if any_in ["__NEXT_DATA__"; "vue-server-renderer"; "ng-version"]
                      content
       then mret (Some DYNAMIC_HTML)
       else mret None)
    (fun _ => mret None).

(** The body of the [try] block of [detect]. *)
Definition detect_body (stages : Stages) (url : string) : io SourceType :=
  platform_type ← st_check_platform_patterns stages url;
  match platform_type with
  | Some t => mret t
  | None =>
      is_feed ← st_is_feed_url stages url;
      if (is_feed : bool) then mret RSS_FEED
      else
        content_type ← st_get_content_type stages url;
        if present content_type
           && any_in ["xml"; "rss"; "atom"] (default EmptyString content_type)
        then mret RSS_FEED
        else
          source_type ← st_analyze_content stages url;
          match source_type with
          | Some t => mret t
          | None => mret STATIC_HTML
          end
  end.

(** [detect], for helper methods [stages]. *)
Definition detect_with (stages : Stages) (url : string) : io SourceType :=
  io_try (detect_body stages url) (fun _ => mret STATIC_HTML).

(** The helper methods [SourceDetector] defines. *)
Definition detector_stages : Stages :=
  {| st_check_platform_patterns := fun url => mret (_check_platform_patterns url);
     st_is_feed_url := fun url => mret (_is_feed_url url);
     st_get_content_type := _get_content_type;
     st_analyze_content := _analyze_content |}.

(** [SourceDetector.detect] *)
Definition detect (url : string) : io SourceType :=
  detect_with detector_stages url.

(** [SourceDetector.is_supported] *)
Definition is_supported (url : string) : bool :=
  match urlparse url with
  | Ok parsed =>
      PyStr.truthy (Url.p_scheme parsed) && PyStr.truthy (Url.p_netloc parsed)
  | Raise _ => false
  end.

End SourceDetector.

(** ** Extraction strategies ([src/extractors/]) *)

Inductive Extractor :=
| RSSExtractor
| HTMLExtractor
| DynamicExtractor.

#[global] Instance Extractor_eq_dec : EqDecision Extractor.
Proof. solve_decision. Defined.

Definition SourceType_to_nat (t : SourceType) : nat :=
  match t with
  | RSS_FEED => 0 | ATOM_FEED => 1 | STATIC_HTML => 2 | DYNAMIC_HTML => 3
  | REDDIT => 4 | STACKOVERFLOW => 5 | GENERIC_FORUM => 6 | UNSUPPORTED => 7
  | UNKNOWN => 8
  end.

Definition SourceType_of_nat (n : nat) : option SourceType :=
  match n with
  | 0 => Some RSS_FEED | 1 => Some ATOM_FEED | 2 => Some STATIC_HTML
  | 3 => Some DYNAMIC_HTML | 4 => Some REDDIT | 5 => Some STACKOVERFLOW
  | 6 => Some GENERIC_FORUM | 7 => Some UNSUPPORTED | 8 => Some UNKNOWN
  | _ => None
  end.

#[global] Program Instance SourceType_countable : Countable SourceType :=
  inj_countable SourceType_to_nat SourceType_of_nat _.
Next Obligation. by intros []. Qed.

(** [BaseExtractor._create_content_item] *)
Definition _create_content_item (url : string) (title content : option string)
    (source_type : SourceType) (published_at : option datetime)
    (author : option string) (metadata : gmap string string) : ContentItem :=
  {| source_url := url; source_type := source_type; title := title;
     content := content; published_at := published_at; author := author;
     metadata := metadata |}.

(** [a or b] on two optional values of which only [None] is false. *)
Definition first_some {A} (a b : option A) : option A :=
  match a with Some _ => a | None => b end.

Section Extractors.
Context `{Platform}.

(** *** [RSSExtractor] *)

(** "Extract link and ensure it's absolute" *)
Definition entry_link (source_config : SourceConfig) (entry : Entry)
    : result string :=
  let link := default (url source_config) (e_link entry) in
  if PyStr.truthy link && negb (PyStr.startswith link "http")
  then urljoin (url source_config) link
  else Ok link.

(** "Extract date and standardize" *)
Definition entry_published_at (entry : Entry) : result (option datetime) :=
  match first_some (e_published_parsed entry) (e_updated_parsed entry) with
  | Some date_struct => d ← local_datetime date_struct; Ok (Some d)
  | None => Ok None
  end.

(** "Extract content/summary" *)
Definition entry_summary (entry : Entry) : result string :=
  let summary := PyStr.or_else (default EmptyString (e_summary entry))
                               (default EmptyString (e_description entry)) in
  if negb (PyStr.truthy summary) then
    match e_content entry with
    | Some (first :: _) => Ok first
    | Some [] => Raise (Exn IndexError "list index out of range")
    | None => Ok summary
    end
  else Ok summary.

(** The body of the loop over [feed.entries], after the test on
    [count]: the item made of one entry. *)
Definition rss_item (source_config : SourceConfig) (entry : Entry)
    : result ContentItem :=
  let title := default "No Title" (e_title entry) in
  link ← entry_link source_config entry;
  published_at ← entry_published_at entry;
  summary ← entry_summary entry;
  Ok (_create_content_item link (Some title) (Some summary) RSS_FEED
        published_at (e_author entry)
        {[ "source_name" := name source_config ]}).

(** The loop [for entry in feed.entries], with its counter and the list
    it appends to. *)
Fixpoint rss_loop (source_config : SourceConfig) (entries : list Entry)
    (count : Z) (items : list ContentItem) : result (list ContentItem) :=
  match entries with
  | [] => Ok items
  | entry :: entries' =>
      if (max_items source_config <=? count)%Z then Ok items
      else
        item ← rss_item source_config entry;
        rss_loop source_config entries' (count + 1) (items ++ [item])
  end.

(** [RSSExtractor.extract] *)
Definition rss_extract (source_config : SourceConfig)
    : result (list ContentItem) :=
  try_except
    (feed ← feedparser_parse (url source_config);
     rss_loop source_config (entries feed) 0 [])
    (fun e => Raise (Exn ExtractionError
                       ("Failed to extract RSS: " +:+ exn_message e))).

(** [RSSExtractor.can_handle] *)
Definition rss_can_handle (url : string) : bool :=
  existsb (PyStr.endswith url) [".xml"; ".rss"; "/feed"; "/rss"; "/atom"].

(** *** [HTMLExtractor] and [DynamicExtractor] *)

(** The optional [date] of the extracted JSON as a timestamp; a date
    that does not parse is dropped. *)
Definition parse_date (date_str : option string) : option datetime :=
  if present date_str then
    match fromisoformat (default EmptyString date_str) with
    | Ok d => Some d
    | Raise _ => None
    end
  else None.

(** [HTMLExtractor.extract] *)
Definition html_extract (source_config : SourceConfig)
    : result (list ContentItem) :=
  try_except
    (downloaded ← trafilatura_fetch_url (url source_config);
     if negb (present downloaded) then Ok []
     else
       result_json ← trafilatura_extract true (default EmptyString downloaded);
       if negb (present result_json) then Ok []
       else
         data ← json_loads (default EmptyString result_json);
         let content := default (Some EmptyString) (data !! "text") in
         let title := default (Some "No Title") (data !! "title") in
         let author := default (Some "Unknown") (data !! "author") in
         let date_str := default None (data !! "date") in
         Ok [_create_content_item (url source_config) title content
               STATIC_HTML (parse_date date_str) author
               {[ "source_name" := name source_config ]}])
    (fun e => Raise (Exn ExtractionError
                       ("Failed to extract HTML: " +:+ exn_message e))).

Definition bot_detection_markers : list string :=
  ["Checking if the site connection is secure"; "Verification";
   "Access Denied"].

(** [DynamicExtractor.extract] *)
Definition dynamic_extract (source_config : SourceConfig)
    : result (list ContentItem) :=
  if negb playwright_installed
  then Raise (Exn ExtractionError "Playwright dependency missing.")
  else
    try_except
      (content_html ← render_page (url source_config);
       if any_in bot_detection_markers content_html then Ok []
       else if negb (PyStr.truthy content_html) then Ok []
       else
         item_data ← trafilatura_extract false content_html;
         if negb (present item_data) then Ok []
         else
           data ← json_loads (default EmptyString item_data);
           let published_at := parse_date (default None (data !! "date")) in
           let title := default (Some "No Title") (data !! "title") in
           let content := default (Some EmptyString) (data !! "text") in
           Ok [_create_content_item (url source_config) title content
                 DYNAMIC_HTML published_at (default None (data !! "author"))
                 {[ "source_name" := name source_config ]}])
      (fun e => Raise (Exn ExtractionError
                         ("Failed to extract dynamic content: "
                          +:+ exn_message e))).

(** [extractor.extract(config)] *)
Definition extract (extractor : Extractor) (source_config : SourceConfig)
    : result (list ContentItem) :=
  match extractor with
  | RSSExtractor => rss_extract source_config
  | HTMLExtractor => html_extract source_config
  | DynamicExtractor => dynamic_extract source_config
  end.

End Extractors.

(** ** Orchestrator ([src/scraper/news_scraper.py]) *)

Definition digit (n : Z) : ascii := ascii_of_N (48 + Z.to_N (n mod 10)).

(** [%Y] for the years 1 to 9999 of a [datetime]: the year without
    padding, as the C library of Linux prints it. *)
Definition strftime_Y (y : Z) : string :=
  (if (1000 <=? y)%Z then String (digit (y / 1000)) EmptyString
   else EmptyString)
  +:+ (if (100 <=? y)%Z then String (digit (y / 100)) EmptyString
       else EmptyString)
  +:+ (if (10 <=? y)%Z then String (digit (y / 10)) EmptyString
       else EmptyString)
  +:+ String (digit y) EmptyString.

(** [d.strftime("%Y-%m-%d")] *)
Definition strftime_Ymd (d : datetime) : string :=
  let m := month d in
  let dd := day d in
  strftime_Y (year d)
  +:+ String "-" (String (digit (m / 10)) (String (digit m)
        (String "-" (String (digit (dd / 10)) (String (digit dd)
           EmptyString))))).

(** The state a scraper works on: its rate limiter and the clock. *)
Record State := {
  rate_limiter : RateLimiter;
  world : World
}.

Section UniversalScraper.
Context `{Platform}.

(** [self.extractors] *)
Definition extractors : gmap SourceType Extractor :=
  list_to_map
    [ (RSS_FEED, RSSExtractor); (ATOM_FEED, RSSExtractor);
      (STATIC_HTML, HTMLExtractor); (DYNAMIC_HTML, DynamicExtractor);
      (REDDIT, DynamicExtractor); (STACKOVERFLOW, DynamicExtractor) ].

Definition fallback_extractor : Extractor := HTMLExtractor.

(** The state [UniversalScraper()] starts from when the clock reads as
    [w] tells. *)
Definition UniversalScraper_init (w : World) : State :=
  {| rate_limiter := RateLimiter_init 20 2; world := w |}.

(** The rewrite rules of [scrape_url] (lines 61 to 83): the URL to
    scrape and the local variable [source_type], [None] when no branch
    assigned it.  The requests the detector makes on the last branch
    are [probes] below; [scrape_url] lets their time pass. *)
Definition route (url : string) : result (string * option SourceType) :=
  if PyStr.contains "reddit.com/r/" url || PyStr.contains "reddit.com/user/" url
  then
    if negb (PyStr.endswith url ".rss") && negb (PyStr.contains "/comments/" url)
    then
      let clean_url := PyStr.rstrip (PyStr.strip url) "/" in
      let rss_url := clean_url +:+ ".rss" in
      Ok (rss_url, Some RSS_FEED)
    else if PyStr.contains "/comments/" url
    then Ok (url, Some REDDIT)
    else Ok (url, None)
  else if PyStr.contains "stackoverflow.com" url
  then
    if PyStr.contains "/questions" url && negb (PyStr.endswith url ".rss")
    then Ok ("https://stackoverflow.com/feeds", Some RSS_FEED)
    else Ok (url, None)
  else
    source_type ← fst (detect url);
    Ok (url, Some source_type).

(** The requests [self.detector.detect(url)] makes at line 83; the
    Reddit and StackOverflow branches do not call the detector. *)
Definition probes (url : string) : list request :=
  if PyStr.contains "reddit.com/r/" url || PyStr.contains "reddit.com/user/" url
  then []
  else if PyStr.contains "stackoverflow.com" url then []
  else snd (detect url).

(** The scraper after these requests: each of them takes its time; the
    rate limiter is not asked. *)
Definition probed (url : string) (s : State) : State :=
  fold_left
    (fun s _ => {| rate_limiter := rate_limiter s; world := elapse (world s) |})
    (probes url) s.

(** The conversion of one item to the standardized record (the body of
    the loop at lines 100 to 112); [url] and [source_type] are the
    local variables after the rewrite. *)
Definition to_record (url name : string) (source_type : SourceType)
    (current : datetime) (item : ContentItem) : Record_ :=
  let date_val := default current (published_at item) in
  let source_name :=
    if PyStr.truthy name then Some name
    else metadata item !! "source_name" in
  let source_name :=
    if negb (present source_name)
       || String.eqb (default EmptyString source_name) (value source_type)
    then get_domain_name url
    else default EmptyString source_name in
  {| r_title := title item;
     r_link := source_url item;
     r_content := content item;
     r_date := strftime_Ymd date_val;
     r_source := source_name |}.

(** [UniversalScraper.scrape_url] *)
Definition scrape_url (url : string) (limit : Z) (name : string)
    (s : State) : result (list Record_) * State :=
  if negb (validators_url url) then (Ok [], s)
  else
    (* lines 61 to 83: the detector, where it is called, has made its
       requests *)
    let s := probed url s in
    match route url with
    | Raise e => (Raise e, s)
    | Ok (_, None) =>
        (* line 85 reads [source_type], which no branch assigned *)
        (Raise (Exn UnboundLocalError
                  "cannot access local variable 'source_type' where it is not associated with a value"),
         s)
    | Ok (url, Some source_type) =>
        match make_SourceConfig url (PyStr.or_else name url) limit
                                (Some source_type) with
        | Raise e => (Raise e, s)
        | Ok config =>
            let '(rl, w) := wait url None (rate_limiter s) (world s) in
            let extractor :=
              default fallback_extractor (extractors !! source_type) in
            (* the strategy works on the network and takes its time; the
               clock stands still while its items are converted *)
            let w := elapse w in
            let s' := {| rate_limiter := rl; world := w |} in
            (try_except
               (items ← extract extractor config;
                Ok (map (to_record url name source_type
                           (datetime_now (now w))) items))
               (fun _ => Ok []),
             s')
        end
    end.

(** The loop of [scrape_all], with the list it extends. *)
Fixpoint scrape_all_loop (urls : list string) (limit : Z)
    (all_results : list Record_) (s : State)
    : result (list Record_) * State :=
  match urls with
  | [] => (Ok all_results, s)
  | url :: urls' =>
      if PyStr.truthy (PyStr.strip url) then
        match scrape_url url limit EmptyString s with
        | (Ok results, s') =>
            scrape_all_loop urls' limit (all_results ++ results) s'
        | (Raise e, s') => (Raise e, s')
        end
      else scrape_all_loop urls' limit all_results s
  end.

(** [UniversalScraper.scrape_all] *)
Definition scrape_all (urls : list string) (limit : Z) (s : State)
    : result (list Record_) * State :=
  scrape_all_loop urls limit [] s.

End UniversalScraper.

(** ** [RateLimiter.wait] called from several threads

    Each thread runs one call of [wait]; the threads interleave at the
    points where the method takes the lock, reads the clock, sleeps and
    leaves the [with] block.  The clock advances by its own step. *)

Inductive pc :=
| Ready                              (* before [with self.lock] *)
| Holding                            (* lock taken, before [time.time()] *)
| Sleeping (until : Q)               (* in [time.sleep], lock held *)
| Recording (t : Q) (waited : bool)  (* [current_time] read, before the store *)
| Done (t : Q) (waited : bool).      (* lock released; [t] was stored *)

Record Thread := {
  th_url : string;
  th_custom_delay : option Q;
  th_pc : pc
}.

Record Shared := {
  sh_now : Q;
  sh_lock : option nat;
  sh_limiter : RateLimiter;
  sh_threads : list Thread
}.

Definition set_pc (th : Thread) (p : pc) : Thread :=
  {| th_url := th_url th; th_custom_delay := th_custom_delay th; th_pc := p |}.

Section Threads.
Context `{Platform}.

Definition th_domain (th : Thread) : string := extract_domain (th_url th).

Definition th_required (s : Shared) (th : Thread) : Q :=
  required_delay (sh_limiter s) (th_custom_delay th).

(** The test [domain in self.last_request and elapsed < required_delay]. *)
Definition must_sleep (s : Shared) (th : Thread) : option Q :=
  match last_request (sh_limiter s) !! th_domain th with
  | Some last =>
      if Qltb (sh_now s - last)%Q (th_required s th)
      then Some (th_required s th - (sh_now s - last))%Q
      else None
  | None => None
  end.

Definition update (s : Shared) (i : nat) (p : pc) (lock : option nat)
    (rl : RateLimiter) : Shared :=
  {| sh_now := sh_now s;
     sh_lock := lock;
     sh_limiter := rl;
     sh_threads := alter (fun th => set_pc th p) i (sh_threads s) |}.

(** One step of thread [i]. *)
Inductive thread_step (i : nat) (s : Shared) : Shared -> Prop :=
| step_acquire th :
    sh_threads s !! i = Some th ->
    th_pc th = Ready ->
    sh_lock s = None ->
    thread_step i s (update s i Holding (Some i) (sh_limiter s))
| step_no_wait th :
    sh_threads s !! i = Some th ->
    th_pc th = Holding ->
    must_sleep s th = None ->
    thread_step i s
      (update s i (Recording (sh_now s) false) (sh_lock s) (sh_limiter s))
| step_sleep th sleep_time :
    sh_threads s !! i = Some th ->
    th_pc th = Holding ->
    must_sleep s th = Some sleep_time ->
    thread_step i s
      (update s i (Sleeping (sh_now s + sleep_time)%Q) (sh_lock s)
              (sh_limiter s))
| step_wake th until :
    sh_threads s !! i = Some th ->
    th_pc th = Sleeping until ->
    (until <= sh_now s)%Q ->
    thread_step i s
      (update s i (Recording (sh_now s) true) (sh_lock s) (sh_limiter s))
| step_release th t waited :
    sh_threads s !! i = Some th ->
    th_pc th = Recording t waited ->
    thread_step i s
      (update s i (Done t waited) None
              (record_request (th_domain th) t (sh_limiter s))).

(** Time passes. *)
Definition tick (d : Q) (s : Shared) : Shared :=
  {| sh_now := (sh_now s + d)%Q;
     sh_lock := sh_lock s;
     sh_limiter := sh_limiter s;
     sh_threads := sh_threads s |}.

Inductive step (s : Shared) : Shared -> Prop :=
| step_thread i s' : thread_step i s s' -> step s s'
| step_tick d : (0 <= d)%Q -> step s (tick d s).

Inductive reachable (s0 : Shared) : Shared -> Prop :=
| reachable_refl : reachable s0 s0
| reachable_step s s' : reachable s0 s -> step s s' -> reachable s0 s'.

(** The threads have not started, nobody holds the lock, and no stored
    time lies in the future. *)
Definition initial (s : Shared) : Prop :=
  sh_lock s = None
  /\ Forall (fun th => th_pc th = Ready) (sh_threads s)
  /\ forall domain t,
       last_request (sh_limiter s) !! domain = Some t -> (t <= sh_now s)%Q.

(** Thread [i] can take a step. *)
Definition can_step (i : nat) (s : Shared) : Prop :=
  exists s', thread_step i s s'.

(** Thread [i] was granted its request at time [t]. *)
Definition granted (s : Shared) (i : nat) (domain : string) (t : Q)
    (waited : bool) : Prop :=
  exists th, sh_threads s !! i = Some th
             /\ th_domain th = domain
             /\ th_pc th = Done t waited.

End Threads.

(** ** Notions the properties are stated with *)

Section Notions.
Context `{Platform}.

(** The strategy the routing table gives for a source type. *)
Definition strategy (source_type : SourceType) : Extractor :=
  default fallback_extractor (extractors !! source_type).

(** What [scrape_url] has in hand when it enters its [try] block: the
    URL after the rewrite, the source type and the configuration.
    [None] when the call ends before (URL refused, exception). *)
Definition dispatch (url : string) (limit : Z) (name : string)
    : option (string * SourceType * SourceConfig) :=
  if validators_url url then
    match route url with
    | Ok (url', Some source_type) =>
        match make_SourceConfig url' (PyStr.or_else name url') limit
                                (Some source_type) with
        | Ok config => Some (url', source_type, config)
        | Raise _ => None
        end
    | _ => None
    end
  else None.

(** The state after the detector, the rate limiter and the strategy took
    their time for [url], the URL after the rewrite (for which the
    detector makes the requests it makes for the URL before it, see
    [route_probes]). *)
Definition after_request (url : string) (s : State) : State :=
  let s := probed url s in
  let '(rl, w) := wait url None (rate_limiter s) (world s) in
  {| rate_limiter := rl; world := elapse w |}.

(** The reading of the clock when the rate limiter lets the call for
    [url] through. *)
Definition granted_at (url : string) (s : State) : Q :=
  let s := probed url s in
  now (snd (wait url None (rate_limiter s) (world s))).

(** The scraper after the detector has been consulted for each of the
    URLs that [validators.url] accepts. *)
Definition surveyed (urls : list string) (s : State) : State :=
  fold_left (fun s url => if validators_url url then probed url s else s)
    urls s.

(** The records a strategy outcome is normalized to; a failure of the
    strategy gives none. *)
Definition normalized (url name : string) (source_type : SourceType)
    (current : datetime) (outcome : result (list ContentItem))
    : list Record_ :=
  match outcome with
  | Ok items => map (to_record url name source_type current) items
  | Raise _ => []
  end.

(** A call of [scrape_url] that ends with an exception. *)
Definition aborts (url : string) (limit : Z) (name : string) : bool :=
  validators_url url &&
  match route url with
  | Ok (url', Some source_type) =>
      negb (returns (make_SourceConfig url' (PyStr.or_else name url') limit
                                       (Some source_type)))
  | _ => true
  end.

(** "The concatenation of the per-URL results in input-URL order": each
    URL that is not blank is scraped in turn, from the state the
    previous one left. *)
Fixpoint concat_results (urls : list string) (limit : Z) (s : State)
    : result (list Record_) * State :=
  match urls with
  | [] => (Ok [], s)
  | url :: urls' =>
      match scrape_url url limit EmptyString s with
      | (Ok results, s') =>
          match concat_results urls' limit s' with
          | (Ok more, s'') => (Ok (results ++ more), s'')
          | (Raise e, s'') => (Raise e, s'')
          end
      | (Raise e, s') => (Raise e, s')
      end
  end.

Definition not_blank (url : string) : bool := PyStr.truthy (PyStr.strip url).

(** The records of a batch, URL by URL: the normalized items of the
    strategy, none where the strategy raised or the URL was refused. *)
Fixpoint batch_records (urls : list string) (limit : Z) (s : State)
    : list Record_ :=
  match urls with
  | [] => []
  | url :: urls' =>
      if not_blank url then
        match dispatch url limit EmptyString with
        | Some (url', source_type, config) =>
            let s' := after_request url' s in
            normalized url' EmptyString source_type
              (datetime_now (now (world s')))
              (extract (strategy source_type) config)
            ++ batch_records urls' limit s'
        | None => batch_records urls' limit s
        end
      else batch_records urls' limit s
  end.

(** A sequence of calls on one rate limiter: [wait] for a URL, or some
    other blocking work between two calls. *)
Inductive call :=
| Wait (url : string) (custom_delay : option Q)
| Work.

Definition run_call (c : call) (st : RateLimiter * World)
    : RateLimiter * World :=
  match c with
  | Wait url custom_delay => wait url custom_delay (fst st) (snd st)
  | Work => (fst st, elapse (snd st))
  end.

Definition run_calls (calls : list call) (st : RateLimiter * World)
    : RateLimiter * World :=
  fold_left (fun st c => run_call c st) calls st.

Definition other_host (domain : string) (c : call) : Prop :=
  match c with
  | Wait url _ => extract_domain url <> domain
  | Work => True
  end.

(** No blocking call returns early. *)
Definition punctual (w : World) : Prop := Forall (fun d => (0 <= d)%Q) (delays w).


(** "The path of the URL has the shape of a feed": the feed patterns,
    applied to the path component. *)
Definition path_is_feed_shaped (url : string) : bool :=
  match urlparse url with
  | Ok parsed => _is_feed_url (Url.p_path parsed)
  | Raise _ => false
  end.

(** "The link is relative": a URL reference without a scheme. *)
Definition is_relative (link : string) : bool :=
  match urlparse link with
  | Ok parsed => negb (PyStr.truthy (Url.p_scheme parsed))
  | Raise _ => false
  end.

(** What a parser hands over when it resolves the links of a feed
    itself, as [feedparser] does against the address of the feed: no
    link that is relative and begins with the letters [http].  (A link
    it leaves relative, as the parser of a test may, is then one that
    the strategy recognises.) *)
Definition hands_over_resolved (feed : Feed) : bool :=
  forallb (fun entry =>
             match e_link entry with
             | Some link => negb (is_relative link && PyStr.startswith link "http")
             | None => true
             end)
          (entries feed).

End Notions.

(** ** A platform to evaluate on

    [urllib.parse] is the port above.  [validators.url] is stood for by
    a test that accepts the [http] and [https] URLs that have a host
    and no white space; the library accepts other schemes too and is
    stricter about hosts and ports, which the examples stay clear of.
    The
    network is given by [feeds] (what [feedparser.parse] returns for a
    URL) and [pages] (the fields [trafilatura] extracts from the page at
    a URL, [None] when the download fails); the page text that
    [trafilatura.fetch_url] hands to [trafilatura.extract], and its JSON,
    are stood for by the URL.  [requests] is offline, no browser is
    installed, feed dates are read as local time and [datetime.now()] is
    [today]. *)

Definition is_http_url (url : string) : bool :=
  match Url.urlsplit url EmptyString with
  | Ok r =>
      (String.eqb (Url.scheme r) "http" || String.eqb (Url.scheme r) "https")
      && PyStr.truthy (Url.netloc r)
      && Url.all_chars (fun c => negb (PyStr.is_space c)) url
  | Raise _ => false
  end.

Definition offline {A} : result A :=
  Raise (Exn RequestException "connection refused").

Definition datetime_of_struct (t : struct_time) : datetime :=
  {| year := tm_year t; month := tm_mon t; day := tm_mday t;
     hour := tm_hour t; minute := tm_min t; second := tm_sec t |}.

Definition reference_platform
    (feeds : string -> result Feed)
    (pages : string -> option (gmap string (option string)))
    (today : datetime) : Platform :=
  {| validators_url := is_http_url;
     urlparse := fun url => Url.urlparse url EmptyString;
     urljoin := Url.urljoin;
     requests_head := fun _ => offline;
     requests_get := fun _ => offline;
     soup_find := fun _ _ => Ok false;
     feedparser_parse := feeds;
     local_datetime := fun t => Ok (datetime_of_struct t);
     datetime_now := fun _ => today;
     fromisoformat := fun _ => Raise (Exn ValueError "Invalid isoformat string");
     trafilatura_fetch_url := fun url =>
       Ok (match pages url with Some _ => Some url | None => None end);
     trafilatura_extract := fun _ html =>
       Ok (match pages html with Some _ => Some html | None => None end);
     json_loads := fun text =>
       match pages text with
       | Some data => Ok data
       | None => Raise (Exn ValueError "Expecting value")
       end;
     playwright_installed := false;
     render_page := fun _ => offline |}.

Definition no_feeds : string -> result Feed := fun _ => offline.
Definition no_pages : string -> option (gmap string (option string)) :=
  fun _ => None.

Definition a_day : datetime :=
  {| year := 2024; month := 3; day := 9; hour := 10; minute := 30; second := 0 |}.

(** The platform without any network. *)
Definition offline_platform : Platform :=
  reference_platform no_feeds no_pages a_day.

Definition entry_with (title link : option string) : Entry :=
  {| e_title := title; e_link := link;
     e_published_parsed := None; e_updated_parsed := None;
     e_summary := Some "summary"; e_description := None;
     e_content := None; e_author := None |}.

Definition start_state : State :=
  UniversalScraper_init {| now := 0; delays := [] |}.

(** Helper methods of which the first fails, as an overriding subclass
    or a broken dependency would make it. *)
Definition failing_stages : Stages :=
  {| st_check_platform_patterns := fun _ =>
       (Raise (Exn OtherError "unexpected failure"), []);
     st_is_feed_url := fun _ => mret false;
     st_get_content_type := fun _ => mret None;
     st_analyze_content := fun _ => mret None |}.

(** The suffixes the feed patterns accept, in lower case. *)
Definition feed_suffixes : list string :=
  ["/feed"; "/feed/"; "/rss"; "/rss/"; "/atom"; "/atom/"; ".xml"; ".rss"].

(** The feed of the example: the base is [https://a.com/feed]. *)
Definition feed_config : SourceConfig :=
  {| url := "https://a.com/feed"; name := "A"; cfg_source_type := Some RSS_FEED;
     max_items := 2; enabled := true; use_dynamic_rendering := false |}.

Definition three_entries : Feed :=
  {| bozo := false;
     entries := [ entry_with (Some "First") (Some "/p/1");
                  entry_with None (Some "https://a.com/p/2");
                  entry_with (Some "Third") (Some "http-archive/p3") ] |}.

Definition feed_platform : Platform :=
  reference_platform
    (fun url => if String.eqb url "https://a.com/feed" then Ok three_entries
                else offline)
    no_pages a_day.

Definition empty_feed : Feed := {| bozo := false; entries := [] |}.








Definition empty_feed_platform : Platform :=
  reference_platform (fun _ => Ok empty_feed) no_pages a_day.

(** A small web: a subreddit feed, a feed whose download fails inside
    [feedparser], and an article. *)
Definition article : gmap string (option string) :=
  {[ "title" := Some "Example"; "text" := Some "Hello world" ]}.

Definition small_web : Platform :=
  reference_platform
    (fun url =>
       if String.eqb url "https://reddit.com/r/test.rss" then Ok three_entries
       else if String.eqb url "https://broken.example.org/feed"
       then Raise (Exn OtherError "unexpected end of stream")
       else Ok empty_feed)
    (fun url =>
       if String.eqb url "https://www.example.com/article" then Some article
       else None)
    a_day.

(** A batch of three URLs; the strategy of the second raises. *)
Definition three_urls : list string :=
  [ "https://reddit.com/r/test/";
    "https://broken.example.org/feed";
    "https://www.example.com/article" ].

(** A limiter for 60 requests per minute with the default delay of the
    constructor, at time 0. *)
Definition limiter_60 : RateLimiter := RateLimiter_init 60 2.

Definition time_zero : World := {| now := 0; delays := [] |}.

(** *** What holds in every state the threads can reach *)

(** The thread is inside the [with self.lock] block. *)
Definition in_lock (p : pc) : Prop :=
  match p with
  | Holding | Sleeping _ | Recording _ _ => True
  | Ready | Done _ _ => False
  end.

(** The thread has read the clock for the last time: [t] is the time it
    stores, [waited] tells whether it slept before. *)
Definition has_grant (th : Thread) (t : Q) (waited : bool) : Prop :=
  th_pc th = Recording t waited \/ th_pc th = Done t waited.

Section Invariant.
Context `{Platform}.

Definition pc_ok (s : Shared) (th : Thread) : Prop :=
  let last := last_request (sh_limiter s) !! th_domain th in
  match th_pc th with
  | Ready | Holding => True
  | Sleeping until =>
      forall t', last = Some t' ->
                 (t' + min_delay (sh_limiter s) <= until)%Q
  | Recording t _ =>
      (t <= sh_now s)%Q
      /\ forall t', last = Some t' ->
                    (t' <= t)%Q /\ (t' + min_delay (sh_limiter s) <= t)%Q
  | Done t _ => exists t', last = Some t' /\ (t <= t')%Q
  end.

Record invariant (s : Shared) : Prop := {
  inv_lock : forall i th,
    sh_threads s !! i = Some th -> (in_lock (th_pc th) <-> sh_lock s = Some i);
  inv_pc : forall i th, sh_threads s !! i = Some th -> pc_ok s th;
  inv_past : forall domain t,
    last_request (sh_limiter s) !! domain = Some t -> (t <= sh_now s)%Q;
  inv_apart : forall i j thi thj ti tj wi wj,
    i <> j ->
    sh_threads s !! i = Some thi ->
    sh_threads s !! j = Some thj ->
    th_domain thi = th_domain thj ->
    has_grant thi ti wi ->
    has_grant thj tj wj ->
    (ti + min_delay (sh_limiter s) <= tj)%Q
    \/ (tj + min_delay (sh_limiter s) <= ti)%Q
}.

(** Thread [j] waits for the lock that thread [i] holds. *)
Definition blocks_on (s : Shared) (j i : nat) : Prop :=
  exists th, sh_threads s !! j = Some th
             /\ th_pc th = Ready
             /\ sh_lock s = Some i
             /\ ~ can_step j s.

End Invariant.

Definition ready (address : string) : Thread :=
  {| th_url := address; th_custom_delay := None; th_pc := Ready |}.

(** Two callers for different hosts, at time 0, when the limiter has
    just granted a request to [a.com]. *)
Definition two_hosts : Shared :=
  {| sh_now := 0;
     sh_lock := None;
     sh_limiter := record_request "a.com" 0 limiter_60;
     sh_threads := [ready "https://a.com/x"; ready "https://b.com/y"] |}.

(** The first caller took the lock and sleeps in it until time 2. *)
Definition first_sleeps : Shared :=
  {| sh_now := 0;
     sh_lock := Some 0%nat;
     sh_limiter := record_request "a.com" 0 limiter_60;
     sh_threads :=
       [ {| th_url := "https://a.com/x"; th_custom_delay := None;
            th_pc := Sleeping (0 + (2 - (0 - 0))) |};
         ready "https://b.com/y" ] |}.

(** Two callers for the same host on a fresh limiter, and the state
    after both were served: the first at time 0 without waiting, the
    second at time 2 after sleeping. *)
Definition same_host : Shared :=
  {| sh_now := 0;
     sh_lock := None;
     sh_limiter := limiter_60;
     sh_threads := [ready "https://a.com/x"; ready "https://a.com/z"] |}.

Definition both_served : Shared :=
  {| sh_now := 0 + 2;
     sh_lock := None;
     sh_limiter :=
       record_request "a.com" (0 + 2) (record_request "a.com" 0 limiter_60);
     sh_threads :=
       [ {| th_url := "https://a.com/x"; th_custom_delay := None;
            th_pc := Done 0 false |};
         {| th_url := "https://a.com/z"; th_custom_delay := None;
            th_pc := Done (0 + 2) true |} ] |}.

(** The classification [_analyze_content] reads off the sampled content
    (lines 140 to 157). *)
Definition sniff_content `{Platform} (content : string) : option SourceType :=
  if any_in ["<rss"; "<feed"; "xmlns:atom"; atom_namespace_marker] content
  then Some RSS_FEED
  else
    let is_xml_feed :=
      match soup_find content "rss" with
      | Ok true => true
      | Ok false =>
          match soup_find content "feed" with Ok found => found | Raise _ => false end
      | Raise _ => false
      end in
    if is_xml_feed then Some RSS_FEED
    else if any_in ["__NEXT_DATA__"; "vue-server-renderer"; "ng-version"] content
    then Some DYNAMIC_HTML
    else None.

(** The test [detect] makes on the outcome of the header probe: the
    response has a content type that names a feed. *)
Definition feed_content_type `{Platform} (address : string) : bool :=
  match requests_head address with
  | Ok (Some content_type) =>
      any_in ["xml"; "rss"; "atom"] (PyStr.lower content_type)
  | _ => false
  end.

(** The source types [detect] can return. *)
Definition detectable : list SourceType :=
  [REDDIT; STACKOVERFLOW; RSS_FEED; DYNAMIC_HTML; STATIC_HTML].

(** A platform whose [requests] answer: [heads] gives the outcome of
    [requests.head] and [bodies] the one of [requests.get]; the rest is
    the platform without network. *)
Definition web_platform
    (heads : string -> result (option string))
    (bodies : string -> result string) : Platform :=
  {| validators_url := is_http_url;
     urlparse := fun url => Url.urlparse url EmptyString;
     urljoin := Url.urljoin;
     requests_head := heads;
     requests_get := bodies;
     soup_find := fun _ _ => Ok false;
     feedparser_parse := no_feeds;
     local_datetime := fun t => Ok (datetime_of_struct t);
     datetime_now := fun _ => a_day;
     fromisoformat := fun _ => Raise (Exn ValueError "Invalid isoformat string");
     trafilatura_fetch_url := fun _ => Ok None;
     trafilatura_extract := fun _ _ => Ok None;
     json_loads := fun _ => Raise (Exn ValueError "Expecting value");
     playwright_installed := false;
     render_page := fun _ => offline |}.

(** A server that answers every [HEAD] with an Atom content type, and one
    that gives no content type and a page with a hydration payload. *)
Definition atom_server : Platform :=
  web_platform (fun _ => Ok (Some "Application/Atom+XML; charset=utf-8"))
               (fun _ => offline).

Definition next_js_server : Platform :=
  web_platform (fun _ => Ok None)
               (fun _ => Ok "<html><script id=__NEXT_DATA__>{}</script></html>").

(** ** The other methods of the extractors *)

(** [HTMLExtractor.can_handle] *)
Definition html_can_handle (url : string) : bool :=
  PyStr.startswith url "http://" || PyStr.startswith url "https://".

(** [DynamicExtractor.can_handle] *)
Definition dynamic_can_handle (url : string) : bool :=
  any_in ["reddit.com"; "stackoverflow.com"; "instagram.com"; "twitter.com";
          "x.com"] url.

(** [extractor.can_handle(url)] *)
Definition can_handle (extractor : Extractor) (url : string) : bool :=
  match extractor with
  | RSSExtractor =>
      existsb (PyStr.endswith url) [".xml"; ".rss"; "/feed"; "/rss"; "/atom"]
  | HTMLExtractor => html_can_handle url
  | DynamicExtractor => dynamic_can_handle url
  end.

(** [self.__class__.__name__] *)
Definition class_name (extractor : Extractor) : string :=
  match extractor with
  | RSSExtractor => "RSSExtractor"
  | HTMLExtractor => "HTMLExtractor"
  | DynamicExtractor => "DynamicExtractor"
  end.

(** [BaseExtractor.extract_single] *)
Definition extract_single `{Platform} (extractor : Extractor)
    (url source_name : string) : result ContentItem :=
  source_config ← make_SourceConfig url
                    (PyStr.or_else source_name (class_name extractor)) 1 None;
  results ← extract extractor source_config;
  match results with
  | item :: _ => Ok item
  | [] => Raise (Exn ExtractionError
                   ("Failed to extract content from " +:+ url))
  end.

(** A feed whose second entry does not convert: its only content is an
    empty list. *)
Definition broken_entry : Entry :=
  {| e_title := Some "Second"; e_link := Some "https://a.com/p/2";
     e_published_parsed := None; e_updated_parsed := None;
     e_summary := None; e_description := None;
     e_content := Some []; e_author := None |}.

Definition second_broken : Feed :=
  {| bozo := false;
     entries := [entry_with (Some "First") (Some "/p/1"); broken_entry] |}.

Definition second_broken_platform : Platform :=
  reference_platform (fun _ => Ok second_broken) no_pages a_day.

(** The configuration [extract_single] builds for a feed URL. *)
Definition single_config (address source_name : string) : SourceConfig :=
  {| url := address; name := PyStr.or_else source_name "RSSExtractor";
     cfg_source_type := None; max_items := 1; enabled := true;
     use_dynamic_rendering := false |}.

(** The source type each strategy stamps on its items. *)
Definition stamp (extractor : Extractor) : SourceType :=
  match extractor with
  | RSSExtractor => RSS_FEED
  | HTMLExtractor => STATIC_HTML
  | DynamicExtractor => DYNAMIC_HTML
  end.

(** How many items a strategy returns at most. *)
Definition capacity (extractor : Extractor) (source_config : SourceConfig)
    : nat :=
  match extractor with
  | RSSExtractor => Z.to_nat (max_items source_config)
  | HTMLExtractor | DynamicExtractor => 1
  end.

(** The test of the rewrite rules for a StackOverflow question listing
    (lines 62 and 73 to 74). *)
Definition stackoverflow_questions (url : string) : bool :=
  negb (PyStr.contains "reddit.com/r/" url || PyStr.contains "reddit.com/user/" url)
  && PyStr.contains "stackoverflow.com" url
  && PyStr.contains "/questions" url
  && negb (PyStr.endswith url ".rss").

(** A URL [scrape_all] passes over: blank, or refused by
    [validators.url]. *)
Definition passed_over `{Platform} (url : string) : bool :=
  negb (not_blank url) || negb (validators_url url).

(** A caller that calls [scrape_url] several times on one scraper and
    goes on after an exception, as the loop of [main] does: the state
    after the calls. *)
Definition scrape_calls `{Platform} (calls : list (string * Z * string))
    (s : State) : State :=
  fold_left (fun s '(address, limit, name) =>
               snd (scrape_url address limit name s)) calls s.

(** A call of [scrape_url] that makes no request to [domain]. *)
Definition elsewhere `{Platform} (domain : string)
    (c : string * Z * string) : bool :=
  let '(address, limit, name) := c in
  match dispatch address limit name with
  | Some (address', _, _) => negb (String.eqb (extract_domain address') domain)
  | None => true
  end.

(** ** The command line ([main.py]) and the legacy wrapper *)

(** The spreadsheet row [main] and [scrape_all_websites] make of a
    record: title, date, source, link, summary. *)
Definition legacy_row (r : Record_) : list (option string) :=
  [ r_title r; Some (r_date r); Some (r_source r); Some (r_link r);
    r_content r ].

(** The feeds both [get_cli_inputs] and [scrape_all_websites] fall back
    to. *)
Definition standard_feeds : list string :=
  [ "https://techcrunch.com/tag/artificial-intelligence/feed/";
    "https://www.technologyreview.com/feed/";
    "https://analyticsindiamag.com/feed/" ].

Section Main.
Context `{Platform}.

(** The loop of [main] over the URLs (lines 90 to 115), with the two
    lists it extends; [except Exception] takes every exception of
    [scrape_url]. *)
Fixpoint main_loop (urls : list string) (limit : Z)
    (news_data_raw : list (list (option string)))
    (failed_urls : list string) (s : State)
    : list (list (option string)) * list string * State :=
  match urls with
  | [] => (news_data_raw, failed_urls, s)
  | url :: urls' =>
      match scrape_url url limit EmptyString s with
      | (Ok (r :: results), s') =>
          main_loop urls' limit
            (news_data_raw ++ map legacy_row (r :: results)) failed_urls s'
      | (Ok [], s') | (Raise _, s') =>
          main_loop urls' limit news_data_raw (failed_urls ++ [url]) s'
      end
  end.

(** [scrape_all_websites]: a new scraper for every call; [urls] is
    [None] when the argument is left out. *)
Definition scrape_all_websites (urls : option (list string)) (limit : Z)
    (w : World) : result (list (list (option string))) * State :=
  let scraper := UniversalScraper_init w in
  let urls := default standard_feeds urls in
  let '(results_raw, s) := scrape_all urls limit scraper in
  (results ← results_raw; Ok (map legacy_row results), s).

End Main.

(** [get_cli_inputs], reading the lines of the standard input one by
    one.  [int_of_str] is [int] on a [str], [None] for its [ValueError];
    [str_upper] is [str.upper]. *)
Section Cli.
Variable int_of_str : string -> option Z.
Variable str_upper : string -> string.

(** [input(prompt)]: the next line, [EOFError] when there is none. *)
Definition input (stdin : list string) : result (string * list string) :=
  match stdin with
  | line :: stdin' => Ok (line, stdin')
  | [] => Raise (Exn OtherError "EOF when reading a line")
  end.

(** Lines 36 to 44. *)
Definition read_count (stdin : list string) : result (Z * list string) :=
  '(line, stdin) ← input stdin;
  let count_str := PyStr.strip line in
  let count :=
    if PyStr.truthy count_str then
      match int_of_str count_str with
      | Some count => if (count <? 1)%Z || (1000 <? count)%Z then 3%Z else count
      | None => 3%Z
      end
    else 3%Z in
  Ok (count, stdin).

(** The loop of lines 47 to 50, [n] rounds of it. *)
Fixpoint read_urls (n : nat) (urls : list string) (stdin : list string)
    : result (list string * list string) :=
  match n with
  | O => Ok (urls, stdin)
  | S n' =>
      '(line, stdin) ← input stdin;
      let url := PyStr.strip line in
      read_urls n' (if PyStr.truthy url then urls ++ [url] else urls) stdin
  end.

(** Lines 60 to 65. *)
Definition read_limit (stdin : list string) : result (Z * list string) :=
  '(line, stdin) ← input stdin;
  let limit_str := PyStr.strip line in
  let limit :=
    if PyStr.truthy limit_str then default 8%Z (int_of_str limit_str)
    else 8%Z in
  Ok (limit, stdin).

(** The URLs, the limit, the answer on Google Sheets, and the lines
    left unread. *)
Definition get_cli_inputs (stdin : list string)
    : result (list string * Z * bool * list string) :=
  '(count, stdin) ← read_count stdin;
  '(urls, stdin) ← read_urls (Z.to_nat count) [] stdin;
  let urls := match urls with [] => standard_feeds | _ :: _ => urls end in
  '(limit, stdin) ← read_limit stdin;
  '(line, stdin) ← input stdin;
  let sync_sheets := String.eqb (str_upper (PyStr.strip line)) "Y" in
  Ok (urls, limit, sync_sheets, stdin).

End Cli.

(** A reading of unsigned decimal numerals, for the examples. *)
Fixpoint decimal_from (acc : Z) (s : string) : option Z :=
  match s with
  | EmptyString => Some acc
  | String c s' =>
      if PyStr.in_range 48 57 c
      then decimal_from (10 * acc + (Z.of_N (PyStr.code c) - 48)) s'
      else None
  end.

Definition decimal (s : string) : option Z :=
  if PyStr.truthy s then decimal_from 0 s else None.

(** [str.upper] on ASCII letters, for the examples. *)
Fixpoint upper_ascii (s : string) : string :=
  match s with
  | EmptyString => EmptyString
  | String c s' =>
      String (if PyStr.in_range 97 122 c
              then ascii_of_N (PyStr.code c - 32) else c)
             (upper_ascii s')
  end.

(** ** Text cleaning ([src/utils/text_cleaner.py]) *)

(** The number of characters before the first [-->] of [s]. *)
Fixpoint find_close (s : string) : option nat :=
  match s with
  | EmptyString => None
  | String _ s' =>
      if PyStr.startswith s "-->" then Some 0 else S <$> find_close s'
  end.

(** [re.sub(r'<!--.*?-->', '', s, flags=re.DOTALL)]: from left to right,
    every [<!--] with a [-->] after it goes with all up to the first
    such [-->]; [skip] counts the characters of a match still to drop. *)
Fixpoint remove_comments (skip : nat) (s : string) : string :=
  match s with
  | EmptyString => EmptyString
  | String c s' =>
      match skip with
      | S skip' => remove_comments skip' s'
      | O =>
          if PyStr.startswith s "<!--" then
            match find_close (PyStr.drop 4 s) with
            | Some n => remove_comments (3 + n + 3) s'
            | None => String c (remove_comments 0 s')
            end
          else String c (remove_comments 0 s')
      end
  end.

(** The number of characters before the first [>] of [s]. *)
Fixpoint find_gt (s : string) : option nat :=
  match s with
  | EmptyString => None
  | String c s' => if Ascii.eqb c ">" then Some 0 else S <$> find_gt s'
  end.

(** [re.sub(r'<[^>]+>', ' ', s)] *)
Fixpoint replace_tags (skip : nat) (s : string) : string :=
  match s with
  | EmptyString => EmptyString
  | String c s' =>
      match skip with
      | S skip' => replace_tags skip' s'
      | O =>
          if Ascii.eqb c "<" then
            match find_gt s' with
            | Some (S n) => String " " (replace_tags (S n + 1) s')
            | _ => String c (replace_tags 0 s')
            end
          else String c (replace_tags 0 s')
      end
  end.

(** ["".join(c for c in s if ord(c) < 128)] *)
Fixpoint keep_ascii (s : string) : string :=
  match s with
  | EmptyString => EmptyString
  | String c s' =>
      if (PyStr.code c <? 128)%N then String c (keep_ascii s')
      else keep_ascii s'
  end.

(** [re.sub(r'\s+', ' ', s)]; [in_run] tells that the character before
    was whitespace. *)
Fixpoint collapse_spaces (in_run : bool) (s : string) : string :=
  match s with
  | EmptyString => EmptyString
  | String c s' =>
      if PyStr.is_space c then
        if in_run then collapse_spaces true s'
        else String " " (collapse_spaces true s')
      else String c (collapse_spaces false s')
  end.

Section TextCleaner.

(** [BeautifulSoup(text, "lxml")], the removal of the [script], [style],
    [nav], [footer] and [header] elements and
    [get_text(separator=' ')]: the text, or what the library raised. *)
Variable soup_text : string -> result string.

(** [clean_html]; the argument is [None] for Python's [None]. *)
Definition clean_html (html_text : option string) : string :=
  if negb (present html_text) then EmptyString
  else
    let clean_text := remove_comments 0 (default EmptyString html_text) in
    let clean_text :=
      match soup_text clean_text with
      | Ok text => text
      | Raise _ => replace_tags 0 clean_text
      end in
    let clean_text := keep_ascii clean_text in
    PyStr.strip (collapse_spaces false clean_text).

(** [row[i]] *)
Definition row_index (row : list (option string)) (i : nat)
    : result (option string) :=
  match row !! i with
  | Some field => Ok field
  | None => Raise (Exn IndexError "list index out of range")
  end.

(** The body of the loop of [main] at lines 133 to 140. *)
Definition clean_row (row : list (option string))
    : result (list (option string)) :=
  title ← row_index row 0;
  date ← row_index row 1;
  source ← row_index row 2;
  link ← row_index row 3;
  summary ← row_index row 4;
  Ok [ Some (clean_html title); date; source; link;
       Some (clean_html summary) ].

Definition clean_rows (news_data_raw : list (list (option string)))
    : result (list (list (option string))) :=
  mapM clean_row news_data_raw.

End TextCleaner.

(** Only ASCII characters. *)
Fixpoint all_ascii (s : string) : bool :=
  match s with
  | EmptyString => true
  | String c s' => (PyStr.code c <? 128)%N && all_ascii s'
  end.

(** No whitespace but the space, and no two spaces in a row. *)
Fixpoint single_spaced (s : string) : bool :=
  match s with
  | EmptyString => true
  | String c s' =>
      (negb (PyStr.is_space c)
       || (Ascii.eqb c " " && negb (PyStr.startswith s' " ")))
      && single_spaced s'
  end.

(** A parser that is not installed, and one that drops what stands
    between [<] and [>]. *)
Definition no_soup (text : string) : result string :=
  Raise (Exn OtherError "Couldn't find a tree builder with the features you requested: lxml").

Definition plain_soup (text : string) : result string :=
  Ok (replace_tags 0 text).

(** ** The spreadsheet row of an item ([src/models.py]) *)

(** [ContentItem.to_excel_row]; [current] is what [datetime.now()]
    returns. *)
Definition to_excel_row (current : datetime) (item : ContentItem)
    : list (option string) :=
  let date_str := strftime_Ymd (default current (published_at item)) in
  let source_name :=
    default (value (source_type item)) (metadata item !! "source_name") in
  [ title item; Some date_str; Some source_name; Some (source_url item);
    content item ].

(** ** Configuration ([src/config.py]) *)

(** [d[key]] on a dictionary of strings. *)
Definition dict_item (d : gmap string string) (key : string)
    : result string :=
  match d !! key with
  | Some v => Ok v
  | None => Raise (Exn OtherError ("KeyError: '" +:+ key +:+ "'"))
  end.

(** The body of the loop of [migrate_legacy_config]. *)
Definition migrate_feed (feed : gmap string string) : result SourceConfig :=
  url ← dict_item feed "url";
  name ← dict_item feed "name";
  make_SourceConfig url name 8 (Some RSS_FEED).

(** [migrate_legacy_config] *)
Definition migrate_legacy_config (rss_feeds : list (gmap string string))
    : result (list SourceConfig) :=
  mapM migrate_feed rss_feeds.

(** [get_default_sources] *)
Definition get_default_sources : result (list SourceConfig) :=
  techcrunch ←
    make_SourceConfig
      "https://techcrunch.com/tag/artificial-intelligence/feed/"
      "TechCrunch" 8 (Some RSS_FEED);
  technology_review ←
    make_SourceConfig "https://www.technologyreview.com/feed/"
      "MIT Technology Review" 8 (Some RSS_FEED);
  analytics_india ←
    make_SourceConfig "https://analyticsindiamag.com/feed/"
      "Analytics India Magazine" 8 (Some RSS_FEED);
  Ok [techcrunch; technology_review; analytics_india].

(** The old configuration of the three default feeds. *)
Definition legacy_feeds : list (gmap string string) :=
  [ {[ "name" := "TechCrunch";
       "url" := "https://techcrunch.com/tag/artificial-intelligence/feed/" ]};
    {[ "name" := "MIT Technology Review";
       "url" := "https://www.technologyreview.com/feed/" ]};
    {[ "name" := "Analytics India Magazine";
       "url" := "https://analyticsindiamag.com/feed/" ]} ].

(** [60.0 / rpm] lies within one rounding of [60 / rpm]. *)
Definition quotient_rounded (rpm : Z) : bool :=
  Qle_bool (60 / inject_Z rpm * (1 - (1 # 9007199254740992)))
           (float_quotient 60 rpm)
  && Qle_bool (float_quotient 60 rpm)
              (60 / inject_Z rpm * (1 + (1 # 9007199254740992))).

(** * Properties *)

(** ** Source type detection *)

Section DetectorFacts.
Context `{Platform}.

Lemma io_try_total {A} (body : io A) (a : A) :
  exists r trace, io_try body (fun _ => mret a) = (Ok r, trace).
Proof.
  destruct body as [[r|e] trace]; cbn; eauto.
Qed.

Lemma io_try_handler {A} (body : io A) (a : A) e trace :
  body = (Raise e, trace) ->
  io_try body (fun _ => mret a) = (Ok a, trace).
Proof.
  intros ->. cbn. by rewrite app_nil_r.
Qed.

Ltac unfold_detect :=
  unfold detect, detect_with, detect_body;
  cbn [detector_stages st_check_platform_patterns st_is_feed_url
       st_get_content_type st_analyze_content];
  unfold mbind, mret, io_bind, io_ret.

Lemma detect_platform url t :
  _check_platform_patterns url = Some t -> detect url = (Ok t, []).
Proof.
  intros Hp. unfold_detect. by rewrite Hp.
Qed.

Lemma detect_feed_url url :
  _check_platform_patterns url = None ->
  _is_feed_url url = true ->
  detect url = (Ok RSS_FEED, []).
Proof.
  intros Hp Hf. unfold_detect. by rewrite Hp, Hf.
Qed.

Lemma check_platform_patterns_range url t :
  _check_platform_patterns url = Some t -> t = REDDIT \/ t = STACKOVERFLOW.
Proof.
  unfold _check_platform_patterns, platform_patterns. cbn [first_platform].
  repeat case_match; naive_solver.
Qed.

(** The two network helpers swallow every failure; each issues exactly
    one request. *)
Lemma get_content_type_total url :
  exists content_type, _get_content_type url = (Ok content_type, [HEAD url]).
Proof.
  unfold _get_content_type, perform, mbind, mret, io_bind, io_ret.
  destruct (requests_head url); cbn; eauto.
Qed.

Lemma analyze_content_total url :
  exists source_type, _analyze_content url = (Ok source_type, [GET url]).
Proof.
  unfold _analyze_content, perform, quiet, mbind, mret, io_bind, io_ret,
    result_bind, bind.
  destruct (requests_get url) as [text|e]; [|cbn; eauto].
  cbv beta iota zeta. generalize (PyStr.take 5000 text). intros sample.
  unfold io_try.
  destruct (any_in _ sample); [cbn; eauto|].
  destruct (soup_find sample "rss") as [[]|]; [cbn; eauto| |].
  - destruct (soup_find sample "feed") as [[]|]; [cbn; eauto| |];
      destruct (any_in _ sample); cbn; eauto.
  - destruct (any_in _ sample); cbn; eauto.
Qed.

(** A URL that reaches the header probe leaves at least the [HEAD]
    request in the trace. *)
Lemma detect_probes url :
  _check_platform_patterns url = None ->
  _is_feed_url url = false ->
  exists t trace, detect url = (Ok t, HEAD url :: trace).
Proof.
  intros Hp Hf. unfold_detect. rewrite Hp, Hf.
  destruct (get_content_type_total url) as [ct ->].
  destruct (analyze_content_total url) as [st ->].
  destruct (present ct && _); cbn; [eauto|].
  destruct st; cbn; eauto.
Qed.

End DetectorFacts.

(** *** Searching a pattern in a string that ends or continues as the
    pattern asks *)

Section RegexFacts.

Lemma search_unfold pat s :
  Re.search pat s =
  Re.match_here pat s
  || match s with EmptyString => false | String _ s' => Re.search pat s' end.
Proof. by destruct s. Qed.

Lemma search_here pat s : Re.match_here pat s = true -> Re.search pat s = true.
Proof. intros Hm. rewrite search_unfold, Hm. done. Qed.

Lemma append_cons c s t : String c s +:+ t = String c (s +:+ t).
Proof. done. Qed.

Lemma search_app pat pre s :
  Re.search pat s = true -> Re.search pat (pre +:+ s) = true.
Proof.
  intros Hm. induction pre as [|c pre IH]; [done|].
  rewrite append_cons. cbn [Re.search]. rewrite IH. apply orb_true_r.
Qed.

Lemma lower_cons_inv s c p :
  PyStr.lower s = String c p ->
  exists d s', s = String d s' /\ PyStr.lower_char d = c /\ PyStr.lower s' = p.
Proof.
  destruct s as [|d s']; cbn; [done|]. intros [= <- <-]. eauto.
Qed.

(** A literal pattern in lower case consumes any spelling of itself. *)
Lemma match_here_lit p rest s1 s2 :
  PyStr.lower p = p ->
  PyStr.lower s1 = p ->
  Re.match_here (Re.lit p ++ rest) (s1 +:+ s2) = Re.match_here rest s2.
Proof.
  revert s1. induction p as [|c p IH]; intros s1 Hp Hs.
  - destruct s1; [done|discriminate].
  - apply lower_cons_inv in Hs as (d & s' & -> & Hd & Hs').
    cbn in Hp. injection Hp as Hc Hp.
    rewrite append_cons. cbn [Re.lit app Re.match_here].
    unfold Re.ci_eq. rewrite Hc, Hd, Ascii.eqb_refl. cbn [andb].
    by apply IH.
Qed.

Lemma lower_app_inv s p1 p2 :
  PyStr.lower s = p1 +:+ p2 ->
  exists s1 s2, s = s1 +:+ s2 /\ PyStr.lower s1 = p1 /\ PyStr.lower s2 = p2.
Proof.
  revert s. induction p1 as [|c p1 IH]; intros s Hs.
  - exists EmptyString, s. done.
  - rewrite append_cons in Hs.
    apply lower_cons_inv in Hs as (d & s' & -> & Hd & Hs').
    destruct (IH _ Hs') as (s1 & s2 & -> & H1 & H2).
    exists (String d s1), s2. cbn [PyStr.lower]. by rewrite Hd, H1.
Qed.

Lemma append_empty_r s : s +:+ EmptyString = s.
Proof. induction s; [done|]. rewrite append_cons. congruence. Qed.

(** The patterns [stem$] and [stem/?$] accept the spellings of
    [stem], the second also with a slash after it. *)
Lemma match_here_stem_end stem s :
  PyStr.lower stem = stem ->
  PyStr.lower s = stem ->
  Re.match_here (Re.lit stem ++ [Re.Eos]) s = true.
Proof.
  intros Hstem Hs. rewrite <- (append_empty_r s).
  by rewrite (match_here_lit stem _ s EmptyString).
Qed.

Lemma match_here_stem_slash stem s :
  PyStr.lower stem = stem ->
  PyStr.lower s = stem \/ PyStr.lower s = stem +:+ "/" ->
  Re.match_here (Re.lit stem ++ [Re.OptChr "/"; Re.Eos]) s = true.
Proof.
  intros Hstem [Hs|Hs].
  - rewrite <- (append_empty_r s).
    by rewrite (match_here_lit stem _ s EmptyString).
  - apply lower_app_inv in Hs as (s1 & s2 & -> & H1 & H2).
    rewrite (match_here_lit stem _ s1 s2) by done.
    apply lower_cons_inv in H2 as (d & s' & -> & Hd & Hs').
    destruct s'; [|discriminate].
    cbn. unfold Re.ci_eq. rewrite Hd. done.
Qed.

End RegexFacts.

Section DetectorShapes.
Context `{Platform}.

Lemma existsb_intro {A} (f : A -> bool) l x :
  x ∈ l -> f x = true -> existsb f l = true.
Proof.
  intros Hx Hf. apply existsb_exists. exists x. by rewrite <- list_elem_of_In.
Qed.

Lemma is_feed_url_suffix stem suffix :
  PyStr.lower suffix ∈ feed_suffixes -> _is_feed_url (stem +:+ suffix) = true.
Proof.
  intros Hs. unfold _is_feed_url, feed_patterns, feed_suffixes in *.
  repeat (apply elem_of_cons in Hs as [Hs|Hs]); [..|by apply elem_of_nil in Hs].
  - apply (existsb_intro _ _ (Re.lit "/feed" ++ [Re.OptChr "/"; Re.Eos]));
      [set_solver|]. apply search_app, search_here.
    apply match_here_stem_slash; auto.
  - apply (existsb_intro _ _ (Re.lit "/feed" ++ [Re.OptChr "/"; Re.Eos]));
      [set_solver|]. apply search_app, search_here.
    apply match_here_stem_slash; auto.
  - apply (existsb_intro _ _ (Re.lit "/rss" ++ [Re.OptChr "/"; Re.Eos]));
      [set_solver|]. apply search_app, search_here.
    apply match_here_stem_slash; auto.
  - apply (existsb_intro _ _ (Re.lit "/rss" ++ [Re.OptChr "/"; Re.Eos]));
      [set_solver|]. apply search_app, search_here.
    apply match_here_stem_slash; auto.
  - apply (existsb_intro _ _ (Re.lit "/atom" ++ [Re.OptChr "/"; Re.Eos]));
      [set_solver|]. apply search_app, search_here.
    apply match_here_stem_slash; auto.
  - apply (existsb_intro _ _ (Re.lit "/atom" ++ [Re.OptChr "/"; Re.Eos]));
      [set_solver|]. apply search_app, search_here.
    apply match_here_stem_slash; auto.
  - apply (existsb_intro _ _ (Re.lit ".xml" ++ [Re.Eos]));
      [set_solver|]. apply search_app, search_here.
    by apply match_here_stem_end.
  - apply (existsb_intro _ _ (Re.lit ".rss" ++ [Re.Eos]));
      [set_solver|]. apply search_app, search_here.
    by apply match_here_stem_end.
Qed.

Lemma check_platform_reddit pre sub c post :
  PyStr.lower sub = "reddit.com/r/" ->
  Re.is_word c = true ->
  _check_platform_patterns (pre +:+ sub +:+ String c post) = Some REDDIT.
Proof.
  intros Hsub Hc.
  unfold _check_platform_patterns, platform_patterns.
  cbn [first_platform existsb].
  rewrite (search_app _ pre); [done|]. apply search_here.
  rewrite (match_here_lit "reddit.com/r/") by done.
  cbn. by rewrite Hc.
Qed.

Lemma check_platform_stackoverflow pre sub post :
  PyStr.lower sub = "stackoverflow.com/questions" ->
  exists t, _check_platform_patterns (pre +:+ sub +:+ post) = Some t.
Proof.
  intros Hsub.
  unfold _check_platform_patterns, platform_patterns.
  cbn [first_platform existsb].
  destruct (_ || _); [eauto|].
  rewrite (search_app (Re.lit "stackoverflow.com/questions") pre); [eauto|].
  apply search_here.
  rewrite <- (app_nil_r (Re.lit _)).
  by rewrite (match_here_lit "stackoverflow.com/questions").
Qed.

End DetectorShapes.

(** C4.  [detect] never raises.  For every input string it returns a
    member of [SourceType]; this holds whatever its helper methods do,
    and when one of them fails the result is the static-HTML type. *)
Theorem detect_never_raises `{Platform} :
  (forall url, exists t trace, detect url = (Ok t, trace))
  /\ (forall stages url, exists t trace, detect_with stages url = (Ok t, trace))
  /\ (forall stages url e trace,
        detect_body stages url = (Raise e, trace) ->
        detect_with stages url = (Ok STATIC_HTML, trace)).
Proof.
  split; [|split].
  - intros url. apply io_try_total.
  - intros stages url. apply io_try_total.
  - intros stages url e trace Hbody. by eapply io_try_handler.
Qed.

Lemma detect_never_raises_witness :
  @detect_body failing_stages "not a url"
    = (Raise (Exn OtherError "unexpected failure"), [])
  /\ @detect_with failing_stages "not a url" = (Ok STATIC_HTML, []).
Proof.
  split; [reflexivity|].
  apply (proj2 (proj2 (@detect_never_raises offline_platform))
           failing_stages "not a url" (Exn OtherError "unexpected failure") []).
  reflexivity.
Defined.

(** C5, as stated, fails: a URL whose path ends with [/feed] but that
    carries a query string matches no feed pattern, and [detect] goes on
    to the network. *)
Lemma feed_path_with_query_probes :
  ~ (forall url,
       @path_is_feed_shaped offline_platform url = true ->
       _check_platform_patterns url = None ->
       @detect offline_platform url = (Ok RSS_FEED, [])).
Proof.
  intros Hclaim.
  specialize (Hclaim "https://a.com/feed?page=2" eq_refl eq_refl).
  vm_compute in Hclaim. discriminate.
Qed.

(** C5, amended.  The stages short-circuit: a URL that matches a platform
    pattern (a spelling of [reddit.com/r/] followed by a word character,
    a spelling of [stackoverflow.com/questions], ...) is given its
    platform type, and a URL string that ends with a spelling of [/feed],
    [/rss], [/atom] (with or without one slash after it), [.xml] or
    [.rss] and matches no platform pattern is given the feed type, in
    both cases without any network request. *)
Theorem detect_short_circuits `{Platform} :
  (forall url t,
     _check_platform_patterns url = Some t ->
     detect url = (Ok t, []) /\ (t = REDDIT \/ t = STACKOVERFLOW))
  /\ (forall pre sub c post,
        PyStr.lower sub = "reddit.com/r/" ->
        Re.is_word c = true ->
        detect (pre +:+ sub +:+ String c post) = (Ok REDDIT, []))
  /\ (forall pre sub post,
        PyStr.lower sub = "stackoverflow.com/questions" ->
        exists t, detect (pre +:+ sub +:+ post) = (Ok t, [])
                  /\ (t = REDDIT \/ t = STACKOVERFLOW))
  /\ (forall stem suffix,
        PyStr.lower suffix ∈ feed_suffixes ->
        _check_platform_patterns (stem +:+ suffix) = None ->
        detect (stem +:+ suffix) = (Ok RSS_FEED, [])).
Proof.
  repeat split.
  - by apply detect_platform.
  - by eapply check_platform_patterns_range.
  - intros pre sub c post Hsub Hc.
    by apply detect_platform, check_platform_reddit.
  - intros pre sub post Hsub.
    destruct (check_platform_stackoverflow pre sub post Hsub) as [t Ht].
    exists t. split; [by apply detect_platform|].
    by eapply check_platform_patterns_range.
  - intros stem suffix Hs Hp.
    apply detect_feed_url; [done|]. by apply is_feed_url_suffix.
Qed.

Lemma detect_short_circuits_witness :
  @detect offline_platform "https://www.Reddit.com/r/python" = (Ok REDDIT, [])
  /\ (exists t,
        @detect offline_platform "https://StackOverflow.com/questions/1" = (Ok t, [])
        /\ (t = REDDIT \/ t = STACKOVERFLOW))
  /\ @detect offline_platform "https://blog.example.org/Feed/" = (Ok RSS_FEED, []).
Proof.
  pose proof (@detect_short_circuits offline_platform) as (_ & Hr & Hs & Hf).
  split; [|split].
  - apply (Hr "https://www." "Reddit.com/r/" "p"%char "ython"); reflexivity.
  - apply (Hs "https://" "StackOverflow.com/questions" "/1"). reflexivity.
  - apply (Hf "https://blog.example.org" "/Feed/"); [|reflexivity].
    apply list_elem_of_further, list_elem_of_here.
Defined.

(** ** Feed strategy *)

Section RSSFacts.
Context `{Platform}.


Lemma rss_item_steps cfg entry link published summary :
  entry_link cfg entry = Ok link ->
  entry_published_at entry = Ok published ->
  entry_summary entry = Ok summary ->
  rss_item cfg entry
    = Ok (_create_content_item link
            (Some (default "No Title" (e_title entry))) (Some summary)
            RSS_FEED published (e_author entry)
            {[ "source_name" := name cfg ]}).
Proof.
  intros Hl Hp Hs. unfold rss_item. by rewrite Hl, Hp, Hs.
Qed.



End RSSFacts.






(** The assumption on the parser is needed.  A parser that hands over
    the relative link [http-archive/p3] as it stands in the feed gets
    it back as it is, because it begins with [http]. *)
Lemma unresolved_link_of_other_parser :
  @hands_over_resolved feed_platform three_entries = false
  /\ @is_relative feed_platform "http-archive/p3" = true
  /\ @entry_link feed_platform feed_config
       (entry_with (Some "Third") (Some "http-archive/p3"))
     = Ok "http-archive/p3".
Proof. by vm_compute. Qed.

(** ** Orchestrator *)

Section ScraperFacts.
Context `{Platform}.

Lemma scrape_url_refused url limit name s :
  validators_url url = false -> scrape_url url limit name s = (Ok [], s).
Proof. intros Hv. unfold scrape_url. by rewrite Hv. Qed.

(** The detector classifies a URL that ends with [.rss] without a
    request. *)
Lemma probes_rss stem : probes (stem +:+ ".rss") = [].
Proof.
  unfold probes. destruct (_ || _); [done|].
  destruct (PyStr.contains "stackoverflow.com" _); [done|].
  destruct (_check_platform_patterns (stem +:+ ".rss")) as [t|] eqn:Hp.
  - by rewrite (detect_platform _ _ Hp).
  - rewrite (detect_feed_url _ Hp); [done|].
    apply is_feed_url_suffix. unfold feed_suffixes. set_solver.
Qed.

(** The requests the detector makes for a URL can be read off the URL
    after the rewrite. *)
Lemma route_probes url url' source_type :
  route url = Ok (url', source_type) -> probes url' = probes url.
Proof.
  unfold route.
  destruct (PyStr.contains "reddit.com/r/" url
            || PyStr.contains "reddit.com/user/" url) eqn:Hreddit.
  - destruct (negb (PyStr.endswith url ".rss")
              && negb (PyStr.contains "/comments/" url)).
    + intros [= <- <-]. rewrite probes_rss. unfold probes. by rewrite Hreddit.
    + by destruct (PyStr.contains "/comments/" url); intros [= <- <-].
  - destruct (PyStr.contains "stackoverflow.com" url) eqn:Hso.
    + destruct (_ && _); intros [= <- <-]; [|done].
      unfold probes at 2. rewrite Hreddit, Hso. by vm_compute.
    + destruct (fst (detect url)); cbn; [|done]. by intros [= <- <-].
Qed.

Lemma route_probed url url' source_type s :
  route url = Ok (url', source_type) -> probed url' s = probed url s.
Proof. intros Hroute. unfold probed. by rewrite (route_probes _ _ _ Hroute). Qed.

Lemma probed_rate_limiter url s : rate_limiter (probed url s) = rate_limiter s.
Proof.
  unfold probed. generalize (probes url). intros requests. revert s.
  induction requests as [|r requests IH]; intros s; [done|].
  cbn [fold_left]. by rewrite IH.
Qed.

(** Once the [try] block is entered the call returns: the records of
    the strategy's items, none when the strategy raised. *)
Lemma scrape_url_dispatch url limit name s url' source_type config :
  dispatch url limit name = Some (url', source_type, config) ->
  scrape_url url limit name s
    = (Ok (normalized url' name source_type
             (datetime_now (now (world (after_request url' s))))
             (extract (strategy source_type) config)),
       after_request url' s).
Proof.
  unfold dispatch, scrape_url, after_request, strategy.
  destruct (validators_url url); [|done]. cbn [negb].
  destruct (route url) as [[u [st|]]|] eqn:Hroute; [|done..].
  destruct (make_SourceConfig _ _ _ _) as [cfg|]; [|done].
  intros [= -> -> ->]. cbv zeta. rewrite (route_probed _ _ _ s Hroute).
  destruct (wait url' None (rate_limiter (probed url s))
              (world (probed url s))) as [rl w].
  cbn [world]. destruct (extract _ config); reflexivity.
Qed.

Lemma scrape_url_aborts url limit name s :
  aborts url limit name = true ->
  exists e, scrape_url url limit name s = (Raise e, probed url s).
Proof.
  unfold aborts, scrape_url. destruct (validators_url url); [|done].
  cbn [negb andb].
  destruct (route url) as [[u [st|]]|]; [|eauto..].
  destruct (make_SourceConfig _ _ _ _) as [cfg|]; [done|eauto].
Qed.

Lemma not_aborts_dispatch url limit name :
  validators_url url = true ->
  aborts url limit name = false ->
  is_Some (dispatch url limit name).
Proof.
  unfold aborts, dispatch. intros ->. cbn [andb].
  destruct (route url) as [[u [st|]]|]; [|done..].
  destruct (make_SourceConfig _ _ _ _) as [cfg|]; [eauto|done].
Qed.

Lemma refused_no_dispatch url limit name :
  validators_url url = false -> dispatch url limit name = None.
Proof. intros Hv. unfold dispatch. by rewrite Hv. Qed.

Lemma make_SourceConfig_ok url name limit source_type :
  PyStr.startswith url "http://" || PyStr.startswith url "https://" = true ->
  (1 <= limit)%Z ->
  make_SourceConfig url name limit source_type
    = Ok {| url := url; name := name; cfg_source_type := source_type;
            max_items := limit; enabled := true;
            use_dynamic_rendering := false |}.
Proof.
  intros Hhttp Hlimit. unfold make_SourceConfig.
  assert (PyStr.truthy url = true) as ->.
  { destruct url; [done|done]. }
  rewrite Hhttp. cbn [negb orb].
  destruct (limit <? 1)%Z eqn:Hlt; [apply Z.ltb_lt in Hlt; lia|done].
Qed.

(** The loop of [scrape_all] against the per-URL concatenation. *)
Lemma scrape_all_loop_concat urls limit acc s :
  scrape_all_loop urls limit acc s
  = match concat_results (List.filter not_blank urls) limit s with
    | (Ok results, s') => (Ok (acc ++ results), s')
    | (Raise e, s') => (Raise e, s')
    end.
Proof.
  revert acc s. induction urls as [|url urls IH]; intros acc s.
  - cbn. by rewrite app_nil_r.
  - cbn [scrape_all_loop List.filter]. unfold not_blank at 1.
    destruct (PyStr.truthy (PyStr.strip url)); [|apply IH].
    cbn [concat_results].
    destruct (scrape_url url limit EmptyString s) as [[results|e] s']; [|done].
    rewrite IH.
    destruct (concat_results _ limit s') as [[more|e] s'']; [|done].
    by rewrite app_assoc.
Qed.

Lemma scrape_all_loop_records urls limit acc s :
  Forall (fun url => aborts url limit EmptyString = false) urls ->
  exists s',
    scrape_all_loop urls limit acc s
      = (Ok (acc ++ batch_records urls limit s), s').
Proof.
  revert acc s. induction urls as [|url urls IH]; intros acc s Hall.
  - exists s. cbn. by rewrite app_nil_r.
  - apply Forall_cons in Hall as [Hurl Hall].
    cbn [scrape_all_loop batch_records]. unfold not_blank.
    destruct (PyStr.truthy (PyStr.strip url)); [|by apply IH].
    destruct (validators_url url) eqn:Hvalid.
    + destruct (not_aborts_dispatch url limit EmptyString Hvalid Hurl)
        as [[[url' st] cfg] Hd].
      rewrite Hd, (scrape_url_dispatch _ _ _ _ _ _ _ Hd).
      destruct (IH (acc ++ normalized url' EmptyString st
                      (datetime_now (now (world (after_request url' s))))
                      (extract (strategy st) cfg))
                   (after_request url' s) Hall) as [s' Hs'].
      exists s'. rewrite Hs'. by rewrite app_assoc.
    + rewrite scrape_url_refused, refused_no_dispatch by done.
      rewrite app_nil_r. by apply IH.
Qed.

End ScraperFacts.

(** C1 (defect).  [scrape_url] lets an exception reach its caller: for a
    Reddit URL that already ends in [.rss] and is no comment thread, and
    for a stackoverflow.com URL that is not rewritten, no branch assigns
    [source_type], and reading it at line 85, outside the [try] block,
    raises [UnboundLocalError]. *)
Theorem scrape_url_unbound_source_type `{Platform} url limit name s :
  validators_url url = true ->
  (PyStr.contains "reddit.com/r/" url || PyStr.contains "reddit.com/user/" url
     = true
   /\ PyStr.endswith url ".rss" = true
   /\ PyStr.contains "/comments/" url = false)
  \/ (PyStr.contains "reddit.com/r/" url || PyStr.contains "reddit.com/user/" url
        = false
      /\ PyStr.contains "stackoverflow.com" url = true
      /\ PyStr.contains "/questions" url && negb (PyStr.endswith url ".rss")
           = false) ->
  exists message,
    scrape_url url limit name s = (Raise (Exn UnboundLocalError message), s).
Proof.
  intros Hvalid Hcase. unfold scrape_url, route, probed, probes.
  rewrite Hvalid. cbn [negb].
  destruct Hcase as [(-> & -> & ->)|(-> & -> & ->)]; cbn; eauto.
Qed.

Lemma scrape_url_unbound_source_type_witness :
  (exists message,
     @scrape_url offline_platform "https://www.reddit.com/r/python.rss" 10
       EmptyString start_state
     = (Raise (Exn UnboundLocalError message), start_state))
  /\ (exists message,
        @scrape_url offline_platform "https://stackoverflow.com/tags" 10
          EmptyString start_state
        = (Raise (Exn UnboundLocalError message), start_state)).
Proof.
  split.
  - apply (@scrape_url_unbound_source_type offline_platform); [reflexivity|].
    left. repeat split.
  - apply (@scrape_url_unbound_source_type offline_platform); [reflexivity|].
    right. repeat split.
Defined.




Section RecordFacts.
Context `{Platform}.

Lemma http_url_not_tag address source_type :
  PyStr.startswith address "http://" || PyStr.startswith address "https://"
    = true ->
  String.eqb address (value source_type) = false.
Proof.
  intros Hhttp. destruct (String.eqb_spec address (value source_type)) as [->|];
    [|done].
  by destruct source_type.
Qed.

Lemma http_url_truthy address :
  PyStr.startswith address "http://" || PyStr.startswith address "https://"
    = true ->
  PyStr.truthy address = true.
Proof. by destruct address. Qed.

(** Every strategy stores the name of the configuration as the source
    name of its items. *)
Lemma html_extract_page config html json data :
  trafilatura_fetch_url (url config) = Ok (Some html) ->
  PyStr.truthy html = true ->
  trafilatura_extract true html = Ok (Some json) ->
  PyStr.truthy json = true ->
  json_loads json = Ok data ->
  html_extract config
    = Ok [_create_content_item (url config)
            (default (Some "No Title") (data !! "title"))
            (default (Some EmptyString) (data !! "text"))
            STATIC_HTML (parse_date (default None (data !! "date")))
            (default (Some "Unknown") (data !! "author"))
            {[ "source_name" := name config ]}].
Proof.
  intros Hfetch Hhtml Hextract Hjson Hloads. unfold html_extract.
  rewrite Hfetch. cbn [mbind result_bind bind present from_option id].
  rewrite Hhtml. cbn [negb]. rewrite Hextract.
  cbn [mbind result_bind bind present from_option id].
  rewrite Hjson. cbn [negb]. rewrite Hloads. reflexivity.
Qed.

End RecordFacts.

(** C2 (defect).  The conversion takes the date from the item's
    timestamp, the current date when there is none, and resolves the
    source name in the order caller's name, metadata source name, bare
    domain.  But every strategy stores the configuration name as metadata
    source name, and [scrape_url] sets that name to the URL when the
    caller gives none: a static page scraped without a name and without a
    date gets today's date and, as source, the whole URL, not the bare
    domain of the URL. *)
Theorem static_page_source_is_url `{Platform} :
  (forall address name source_type current item,
     let r := to_record address name source_type current item in
     r_date r = strftime_Ymd (default current (published_at item))
     /\ (PyStr.truthy name = true -> name <> value source_type ->
         r_source r = name)
     /\ (forall m,
           PyStr.truthy name = false ->
           metadata item !! "source_name" = Some m ->
           PyStr.truthy m = true -> m <> value source_type ->
           r_source r = m)
     /\ (PyStr.truthy name = false ->
         metadata item !! "source_name" = None ->
         r_source r = get_domain_name address))
  /\ (forall address limit s html json data,
        validators_url address = true ->
        route address = Ok (address, Some STATIC_HTML) ->
        PyStr.startswith address "http://" || PyStr.startswith address "https://"
          = true ->
        (1 <= limit)%Z ->
        trafilatura_fetch_url address = Ok (Some html) ->
        PyStr.truthy html = true ->
        trafilatura_extract true html = Ok (Some json) ->
        PyStr.truthy json = true ->
        json_loads json = Ok data ->
        default None (data !! "date") = None ->
        scrape_url address limit EmptyString s
        = (Ok [ {| r_title := default (Some "No Title") (data !! "title");
                   r_link := address;
                   r_content := default (Some EmptyString) (data !! "text");
                   r_date := strftime_Ymd
                               (datetime_now
                                  (now (world (after_request address s))));
                   r_source := address |} ],
           after_request address s)).
Proof.
  split.
  - intros address name source_type current item r. subst r.
    unfold to_record. cbn [r_date r_source].
    split; [done|]. split; [|split].
    + intros Hn Hne. destruct name as [|c name]; [done|].
      cbn [PyStr.truthy present negb orb from_option id].
      by destruct (String.eqb_spec (String c name) (value source_type)).
    + intros m Hn Hmeta Hm Hne. rewrite Hn, Hmeta.
      cbn [present from_option id]. rewrite Hm. cbn [negb orb].
      by destruct (String.eqb_spec m (value source_type)).
    + intros Hn Hmeta. by rewrite Hn, Hmeta.
  - intros address limit s html json data Hvalid Hroute Hhttp Hlimit
      Hfetch Hhtml Hextract Hjson Hloads Hdate.
    set (config := {| url := address; name := address;
                      cfg_source_type := Some STATIC_HTML; max_items := limit;
                      enabled := true; use_dynamic_rendering := false |}).
    assert (dispatch address limit EmptyString
              = Some (address, STATIC_HTML, config)) as Hd.
    { unfold dispatch. rewrite Hvalid, Hroute.
      by rewrite (make_SourceConfig_ok _ _ _ _ Hhttp Hlimit). }
    rewrite (scrape_url_dispatch _ _ _ _ _ _ _ Hd).
    change (extract (strategy STATIC_HTML) config) with (html_extract config).
    rewrite (html_extract_page config html json data) by done.
    cbn [normalized map]. unfold to_record, _create_content_item.
    cbn [published_at metadata title content source_url PyStr.truthy].
    rewrite lookup_singleton_eq. cbn [present name config from_option id].
    rewrite (http_url_truthy _ Hhttp), (http_url_not_tag _ _ Hhttp).
    rewrite Hdate. reflexivity.
Qed.

Lemma static_page_source_is_url_witness :
  @scrape_url small_web "https://www.example.com/article" 10 EmptyString
    start_state
  = (Ok [ {| r_title := Some "Example";
             r_link := "https://www.example.com/article";
             r_content := Some "Hello world";
             r_date := "2024-03-09";
             r_source := "https://www.example.com/article" |} ],
     @after_request small_web "https://www.example.com/article" start_state)
  /\ @get_domain_name small_web "https://www.example.com/article"
     = "example.com".
Proof.
  split; [|reflexivity].
  apply (proj2 (@static_page_source_is_url small_web)
           "https://www.example.com/article" 10%Z start_state
           "https://www.example.com/article" "https://www.example.com/article"
           article); try reflexivity.
  lia.
Defined.

(** C3.  [scrape_all] returns the concatenation, in input order, of what
    [scrape_url] returns for each URL that is not blank.  A strategy that
    raises does not abort the batch: the URL contributes no record and
    the batch goes on, so that when no call ends with an exception of the
    orchestrator itself the batch returns the normalized items of the
    URLs whose strategy returned. *)
Theorem scrape_all_concatenates `{Platform} urls limit s :
  scrape_all urls limit s
    = concat_results (List.filter not_blank urls) limit s
  /\ (Forall (fun url => aborts url limit EmptyString = false) urls ->
      exists s', scrape_all urls limit s = (Ok (batch_records urls limit s), s'))
  /\ (forall address name address' source_type config e,
        dispatch address limit name = Some (address', source_type, config) ->
        extract (strategy source_type) config = Raise e ->
        scrape_url address limit name s = (Ok [], after_request address' s)).
Proof.
  split; [|split].
  - unfold scrape_all. rewrite scrape_all_loop_concat.
    by destruct (concat_results _ limit s) as [[results|e] s'].
  - intros Hall. unfold scrape_all.
    destruct (scrape_all_loop_records urls limit [] s Hall) as [s' Hs'].
    by exists s'.
  - intros address name address' source_type config e Hd Hraise.
    rewrite (scrape_url_dispatch _ _ _ _ _ _ _ Hd). by rewrite Hraise.
Qed.

Lemma scrape_all_concatenates_witness :
  (exists s',
     @scrape_all small_web three_urls 8 start_state
     = (Ok (@batch_records small_web three_urls 8 start_state), s'))
  /\ map r_title (@batch_records small_web three_urls 8 start_state)
     = [Some "First"; Some "No Title"; Some "Third"; Some "Example"]
  /\ map r_link (@batch_records small_web three_urls 8 start_state)
     = ["https://reddit.com/p/1"; "https://a.com/p/2"; "http-archive/p3";
        "https://www.example.com/article"]
  /\ @scrape_url small_web "https://broken.example.org/feed" 8 EmptyString
       start_state
     = (Ok [], @after_request small_web "https://broken.example.org/feed"
                 start_state).
Proof.
  pose proof (@scrape_all_concatenates small_web three_urls 8 start_state)
    as (_ & Hbatch & Hfail).
  split; [|split; [|split]].
  - apply Hbatch. repeat constructor.
  - reflexivity.
  - reflexivity.
  - apply (Hfail "https://broken.example.org/feed" EmptyString
             "https://broken.example.org/feed" RSS_FEED
             {| url := "https://broken.example.org/feed";
                name := "https://broken.example.org/feed";
                cfg_source_type := Some RSS_FEED; max_items := 8;
                enabled := true; use_dynamic_rendering := false |}
             (Exn ExtractionError
                "Failed to extract RSS: unexpected end of stream"));
      reflexivity.
Defined.

(** ** Rate limiter *)

Section RateLimiterFacts.
Context `{Platform}.

Lemma Qltb_true a b : Qltb a b = true <-> (a < b)%Q.
Proof.
  unfold Qltb. rewrite negb_true_iff, <- not_true_iff_false, Qle_bool_iff.
  split; [apply Qnot_le_lt|apply Qlt_not_le].
Qed.

Lemma Qltb_false a b : Qltb a b = false <-> (b <= a)%Q.
Proof. unfold Qltb. by rewrite negb_false_iff, Qle_bool_iff. Qed.

Lemma punctual_hd w : punctual w -> (0 <= hd 0 (delays w))%Q.
Proof.
  unfold punctual. destruct (delays w) as [|d ds]; cbn; [by intros _|].
  intros Hall. by apply Forall_cons in Hall as [Hd _].
Qed.

Lemma advance_punctual d w : punctual w -> punctual (advance d w).
Proof.
  unfold punctual, advance. cbn. destruct (delays w) as [|d' ds]; cbn; [done|].
  intros Hall. by apply Forall_cons in Hall as [_ Hds].
Qed.

Lemma advance_now d w :
  punctual w -> (now w + d <= now (advance d w))%Q.
Proof.
  intros Hw. pose proof (punctual_hd w Hw). unfold advance. cbn [now]. lra.
Qed.

(** What one call of [wait] does: the clock does not go back, the
    configuration stays, the time stored for the host is the clock
    reading at return, and it lies at least the required delay after
    the time stored before. *)
Lemma wait_facts address custom rl w :
  punctual w ->
  let rl' := fst (wait address custom rl w) in
  let w' := snd (wait address custom rl w) in
  punctual w'
  /\ (now w <= now w')%Q
  /\ min_delay rl' = min_delay rl
  /\ default_delay rl' = default_delay rl
  /\ last_request rl'
     = <[extract_domain address := now w']> (last_request rl)
  /\ forall t,
       last_request rl !! extract_domain address = Some t ->
       (t + required_delay rl custom <= now w')%Q.
Proof.
  intros Hw. unfold wait.
  destruct (last_request rl !! extract_domain address) as [last|] eqn:Hlast.
  - destruct (Qltb _ _) eqn:Hlt; cbn [fst snd].
    + apply Qltb_true in Hlt. unfold time_sleep.
      pose proof (advance_now (required_delay rl custom - (now w - last)) w Hw).
      split; [by apply advance_punctual|]. split; [lra|].
      repeat split. intros t [= <-]. lra.
    + apply Qltb_false in Hlt.
      split; [done|]. split; [lra|]. repeat split. intros t [= <-]. lra.
  - cbn [fst snd]. split; [done|]. split; [lra|]. repeat split. done.
Qed.

Lemma run_call_facts domain c rl w :
  punctual w ->
  other_host domain c ->
  let rl' := fst (run_call c (rl, w)) in
  let w' := snd (run_call c (rl, w)) in
  punctual w'
  /\ (now w <= now w')%Q
  /\ min_delay rl' = min_delay rl
  /\ default_delay rl' = default_delay rl
  /\ last_request rl' !! domain = last_request rl !! domain.
Proof.
  intros Hw Hother. destruct c as [address custom|]; cbn [run_call fst snd].
  - destruct (wait_facts address custom rl w Hw) as (Hp & Hn & Hm & Hd & Hl & _).
    repeat split; try done. rewrite Hl. by apply lookup_insert_ne.
  - unfold elapse. pose proof (advance_now 0 w Hw).
    split; [by apply advance_punctual|]. split; [lra|]. done.
Qed.

Lemma run_calls_facts domain calls rl w :
  punctual w ->
  Forall (other_host domain) calls ->
  let rl' := fst (run_calls calls (rl, w)) in
  let w' := snd (run_calls calls (rl, w)) in
  punctual w'
  /\ (now w <= now w')%Q
  /\ min_delay rl' = min_delay rl
  /\ default_delay rl' = default_delay rl
  /\ last_request rl' !! domain = last_request rl !! domain.
Proof.
  revert rl w. induction calls as [|c calls IH]; intros rl w Hw Hall.
  - cbn. repeat split; try done. lra.
  - apply Forall_cons in Hall as [Hc Hall].
    destruct (run_call_facts domain c rl w Hw Hc) as (Hp & Hn & Hm & Hd & Hl).
    unfold run_calls. cbn [fold_left].
    destruct (run_call c (rl, w)) as [rl1 w1]. cbn [fst snd] in *.
    destruct (IH rl1 w1 Hp Hall) as (Hp' & Hn' & Hm' & Hd' & Hl').
    unfold run_calls in *.
    repeat split; try done; [lra|congruence..].
Qed.

Lemma required_delay_config rl rl' custom :
  min_delay rl' = min_delay rl ->
  default_delay rl' = default_delay rl ->
  required_delay rl' custom = required_delay rl custom.
Proof.
  intros Hm Hd. unfold required_delay, effective_delay. by rewrite Hm, Hd.
Qed.

End RateLimiterFacts.

Lemma quotient_rounded_range rpm :
  (1 <= rpm <= 1000)%Z -> quotient_rounded rpm = true.
Proof.
  intros Hrange.
  assert (forallb quotient_rounded (map Z.of_nat (seq 1 1000)) = true)
    as Hall by (vm_compute; reflexivity).
  rewrite forallb_forall in Hall. apply Hall, in_map_iff.
  exists (Z.to_nat rpm). split; [lia|]. apply in_seq. lia.
Qed.

(** C10.  Between two consecutive calls of [wait] for the same host
    (calls for other hosts and other work may come between them) the
    time stored for the host is each time the reading of the clock when
    the call returns, and the second reading lies at least
    [max(min_delay, d)] after the first, where [d] is the custom delay of
    the second call if it is given and not zero, else the default delay.
    For a positive rate (below 2^1024, where Python can still convert
    it) [min_delay] is the double [60.0 / requests_per_minute]:
    [60 / requests_per_minute] itself when that is a double (3 for 20
    requests per minute), and within one rounding of it otherwise, as
    is checked here for the rates up to 1000.  When the default delay
    is larger it is the interval that is enforced. *)
Theorem wait_enforced_interval `{Platform} :
  (forall rl w first custom1 between second custom2,
     punctual w ->
     extract_domain first = extract_domain second ->
     Forall (other_host (extract_domain first)) between ->
     let st1 := wait first custom1 rl w in
     let st2 := run_calls between st1 in
     let st3 := wait second custom2 (fst st2) (snd st2) in
     let t1 := now (snd st1) in
     let t2 := now (snd st3) in
     last_request (fst st1) !! extract_domain first = Some t1
     /\ last_request (fst st3) !! extract_domain first = Some t2
     /\ (now w <= t1)%Q
     /\ (t1 + Qmax (min_delay rl) (effective_delay rl custom2) <= t2)%Q)
  /\ (forall rpm default_delay,
        (0 < rpm < 2 ^ 1024)%Z ->
        min_delay (RateLimiter_init rpm default_delay)
          = float_quotient 60 rpm
        /\ (forall d, ~ (d == 0)%Q ->
              effective_delay (RateLimiter_init rpm default_delay) (Some d) = d)
        /\ effective_delay (RateLimiter_init rpm default_delay) (Some 0%Q)
           = default_delay
        /\ effective_delay (RateLimiter_init rpm default_delay) None
           = default_delay
        /\ ((float_quotient 60 rpm < default_delay)%Q ->
            (required_delay (RateLimiter_init rpm default_delay) None
               == default_delay)%Q
            /\ (float_quotient 60 rpm
                  < required_delay (RateLimiter_init rpm default_delay) None)%Q))
  /\ (float_quotient 60 20 = 3%Q /\ float_quotient 60 30 = 2%Q
      /\ float_quotient 60 60 = 1%Q)
  /\ (forall rpm,
        (1 <= rpm <= 1000)%Z ->
        (60 / inject_Z rpm * (1 - (1 # 9007199254740992))
           <= float_quotient 60 rpm)%Q
        /\ (float_quotient 60 rpm
              <= 60 / inject_Z rpm * (1 + (1 # 9007199254740992)))%Q).
Proof.
  split; [|split; [|split]].
  - intros rl w first custom1 between second custom2 Hw Hsame Hother
      st1 st2 st3 t1 t2.
    destruct (wait_facts first custom1 rl w Hw) as (Hp1 & Hn1 & Hm1 & Hd1 & Hl1 & _).
    fold st1 in Hp1, Hn1, Hm1, Hd1, Hl1.
    destruct (run_calls_facts (extract_domain first) between (fst st1)
                (snd st1) Hp1 Hother) as (Hp2 & Hn2 & Hm2 & Hd2 & Hl2).
    replace (fst st1, snd st1) with st1 in Hp2, Hn2, Hm2, Hd2, Hl2
      by (by destruct st1).
    fold st2 in Hp2, Hn2, Hm2, Hd2, Hl2.
    destruct (wait_facts second custom2 (fst st2) (snd st2) Hp2)
      as (Hp3 & Hn3 & Hm3 & Hd3 & Hl3 & Hgap).
    fold st3 in Hp3, Hn3, Hm3, Hd3, Hl3, Hgap.
    split; [by rewrite Hl1, lookup_insert_eq|].
    split; [by rewrite Hl3, <- Hsame, lookup_insert_eq|].
    split; [done|].
    rewrite <- Hsame, Hl2, Hl1, lookup_insert_eq in Hgap.
    specialize (Hgap _ eq_refl).
    rewrite (required_delay_config rl (fst st2)) in Hgap by congruence.
    exact Hgap.
  - intros rpm dd [Hrpm _].
    unfold RateLimiter_init, required_delay, effective_delay.
    cbn [min_delay default_delay].
    apply Z.ltb_lt in Hrpm as Hrpm'. rewrite Hrpm'.
    split; [done|]. split.
    { intros d Hd. destruct (Qeq_bool d 0) eqn:Heq; [|done].
      by apply Qeq_bool_iff in Heq. }
    split; [done|]. split; [done|].
    intros Hlarger.
    destruct (Q.max_spec (float_quotient 60 rpm) dd) as [[_ Hmax]|[Hle _]];
      [|lra].
    split; [done|]. by rewrite Hmax.
  - by vm_compute.
  - intros rpm Hrange.
    pose proof (quotient_rounded_range rpm Hrange) as Hclose.
    unfold quotient_rounded in Hclose.
    apply andb_true_iff in Hclose as [Hlow Hhigh].
    by apply Qle_bool_iff in Hlow, Hhigh.
Qed.

Lemma wait_enforced_interval_witness :
  (let st1 := @wait offline_platform "https://a.com/x" None limiter_60
                time_zero in
   let st2 := @run_calls offline_platform [Wait "https://b.com/y" None; Work]
                st1 in
   let st3 := @wait offline_platform "https://a.com/z" None (fst st2)
                (snd st2) in
   last_request (fst st1) !! "a.com" = Some (now (snd st1))
   /\ last_request (fst st3) !! "a.com" = Some (now (snd st3))
   /\ (now time_zero <= now (snd st1))%Q
   /\ (now (snd st1)
         + Qmax (min_delay limiter_60) (effective_delay limiter_60 None)
         <= now (snd st3))%Q)
  /\ (float_quotient 60 60 < required_delay limiter_60 None)%Q
  /\ (60 / inject_Z 7 * (1 - (1 # 9007199254740992))
        <= float_quotient 60 7)%Q.
Proof.
  pose proof (@wait_enforced_interval offline_platform)
    as (Hgap & Hinit & _ & Hclose).
  split; [|split].
  - apply (Hgap limiter_60 time_zero "https://a.com/x" None
             [Wait "https://b.com/y" None; Work] "https://a.com/z" None).
    + constructor.
    + reflexivity.
    + repeat constructor. intros Heq. vm_compute in Heq. discriminate.
  - apply (Hinit 60%Z 2%Q); [split; reflexivity|reflexivity].
  - apply (Hclose 7%Z). lia.
Defined.

(** ** The rate limiter under concurrent callers *)

Section ThreadFacts.
Context `{Platform}.

Lemma update_lookup s i p lock rl k th' :
  sh_threads (update s i p lock rl) !! k = Some th' ->
  (k = i /\ exists th, sh_threads s !! i = Some th /\ th' = set_pc th p)
  \/ (k <> i /\ sh_threads s !! k = Some th').
Proof.
  cbn [update sh_threads]. destruct (decide (k = i)) as [->|Hne].
  - rewrite list_lookup_alter_eq.
    destruct (sh_threads s !! i) as [th|]; cbn; [|done].
    intros [= <-]. left. eauto.
  - rewrite list_lookup_alter_ne by done. by right.
Qed.

Lemma required_ge_min s th :
  (min_delay (sh_limiter s) <= th_required s th)%Q.
Proof. unfold th_required, required_delay. apply Q.le_max_l. Qed.

(** The lock is held by at most one thread. *)
Lemma holder_unique s i j thi thj :
  invariant s ->
  sh_threads s !! i = Some thi -> sh_threads s !! j = Some thj ->
  in_lock (th_pc thi) -> in_lock (th_pc thj) -> i = j.
Proof.
  intros Hinv Hi Hj Hpi Hpj.
  apply (inv_lock s Hinv i thi Hi) in Hpi.
  apply (inv_lock s Hinv j thj Hj) in Hpj. congruence.
Qed.

Lemma has_grant_in_lock_or_done th t w :
  has_grant th t w -> in_lock (th_pc th) \/ th_pc th = Done t w.
Proof. intros [Hp|Hp]; rewrite Hp; cbn; auto. Qed.

(** A thread that enters [Recording] at a time [t] that lies at least
    [min_delay] after the stored time of its host is apart from every
    grant of another thread for that host. *)
Lemma new_grant_apart s i th t j thj tj wj :
  invariant s ->
  sh_threads s !! i = Some th ->
  in_lock (th_pc th) ->
  (forall t', last_request (sh_limiter s) !! th_domain th = Some t' ->
              (t' + min_delay (sh_limiter s) <= t)%Q) ->
  j <> i ->
  sh_threads s !! j = Some thj ->
  th_domain thj = th_domain th ->
  has_grant thj tj wj ->
  (tj + min_delay (sh_limiter s) <= t)%Q.
Proof.
  intros Hinv Hi Hlock Hlast Hne Hj Hdom Hgrant.
  destruct (has_grant_in_lock_or_done _ _ _ Hgrant) as [Hin|Hdone].
  - destruct Hne. by eapply holder_unique.
  - pose proof (inv_pc s Hinv j thj Hj) as Hok. unfold pc_ok in Hok.
    rewrite Hdone, Hdom in Hok. destruct Hok as (t' & Ht' & Hle).
    specialize (Hlast t' Ht'). lra.
Qed.

Lemma domain_set_pc th p : th_domain (set_pc th p) = th_domain th.
Proof. done. Qed.

Lemma lock_update s i th p lock rl :
  invariant s ->
  sh_threads s !! i = Some th ->
  (in_lock p <-> lock = Some i) ->
  (forall k, k <> i -> sh_lock s = Some k <-> lock = Some k) ->
  forall k th',
    sh_threads (update s i p lock rl) !! k = Some th' ->
    in_lock (th_pc th') <-> lock = Some k.
Proof.
  intros Hinv Hi Hp Hothers k th' Hk.
  apply update_lookup in Hk as [(-> & th0 & Hi' & ->)|(Hne & Hk)]; [done|].
  rewrite <- (Hothers k Hne). by apply (inv_lock s Hinv).
Qed.

Lemma apart_update s i th p lock rl :
  invariant s ->
  sh_threads s !! i = Some th ->
  min_delay rl = min_delay (sh_limiter s) ->
  (forall t w,
     has_grant (set_pc th p) t w ->
     has_grant th t w
     \/ (in_lock (th_pc th)
         /\ forall t', last_request (sh_limiter s) !! th_domain th = Some t' ->
                       (t' + min_delay (sh_limiter s) <= t)%Q)) ->
  forall a b tha thb ta tb wa wb,
    a <> b ->
    sh_threads (update s i p lock rl) !! a = Some tha ->
    sh_threads (update s i p lock rl) !! b = Some thb ->
    th_domain tha = th_domain thb ->
    has_grant tha ta wa ->
    has_grant thb tb wb ->
    (ta + min_delay rl <= tb)%Q \/ (tb + min_delay rl <= ta)%Q.
Proof.
  intros Hinv Hi Hmin Hnew a b tha thb ta tb wa wb Hab Ha Hb Hdom Hga Hgb.
  rewrite Hmin.
  apply update_lookup in Ha as [(-> & th1 & Hi1 & ->)|(Hnea & Ha)];
    apply update_lookup in Hb as [(-> & th2 & Hi2 & ->)|(Hneb & Hb)];
    try done.
  - assert (th1 = th) as -> by congruence.
    rewrite domain_set_pc in Hdom.
    destruct (Hnew _ _ Hga) as [Hold|[Hin Hfresh]].
    + by eapply (inv_apart s Hinv i b).
    + right. by eapply (new_grant_apart s i th ta b thb).
  - assert (th2 = th) as -> by congruence.
    rewrite domain_set_pc in Hdom.
    destruct (Hnew _ _ Hgb) as [Hold|[Hin Hfresh]].
    + by eapply (inv_apart s Hinv a i).
    + left. by eapply (new_grant_apart s i th tb a tha).
  - by eapply (inv_apart s Hinv a b).
Qed.

(** A step of a thread that leaves the limiter as it is. *)
Lemma invariant_update s i th p lock :
  invariant s ->
  sh_threads s !! i = Some th ->
  (in_lock p <-> lock = Some i) ->
  (forall k, k <> i -> sh_lock s = Some k <-> lock = Some k) ->
  pc_ok s (set_pc th p) ->
  (forall t w,
     has_grant (set_pc th p) t w ->
     has_grant th t w
     \/ (in_lock (th_pc th)
         /\ forall t', last_request (sh_limiter s) !! th_domain th = Some t' ->
                       (t' + min_delay (sh_limiter s) <= t)%Q)) ->
  invariant (update s i p lock (sh_limiter s)).
Proof.
  intros Hinv Hi Hp Hothers Hok Hnew. split.
  - by eapply lock_update.
  - intros k th' Hk.
    apply update_lookup in Hk as [(-> & th0 & Hi' & ->)|(Hne & Hk)].
    + by assert (th0 = th) as -> by congruence.
    + exact (inv_pc s Hinv k th' Hk).
  - exact (inv_past s Hinv).
  - by eapply apart_update.
Qed.

Lemma thread_step_invariant s i s' :
  invariant s -> thread_step i s s' -> invariant s'.
Proof.
  intros Hinv Hstep.
  destruct Hstep as [th Hi Hpc Hlock|th Hi Hpc Hnone|th sleep_time Hi Hpc Hsleep
                    |th until Hi Hpc Hdue|th t waited Hi Hpc].
  - (* the lock is taken *)
    apply (invariant_update s i th); try done.
    + intros k Hne. rewrite Hlock. split; [done|]. by intros [= ->].
    + intros t w [Hg|Hg]; discriminate Hg.
  - (* no wait is needed *)
    pose proof (inv_lock s Hinv i th Hi) as Hheld. rewrite Hpc in Hheld.
    assert (forall t', last_request (sh_limiter s) !! th_domain th = Some t' ->
                       (t' <= sh_now s)%Q
                       /\ (t' + min_delay (sh_limiter s) <= sh_now s)%Q) as Hlast.
    { intros t' Ht'. split; [by eapply inv_past|].
      unfold must_sleep in Hnone. rewrite Ht' in Hnone.
      destruct (Qltb _ _) eqn:Hlt; [done|]. apply Qltb_false in Hlt.
      pose proof (required_ge_min s th). lra. }
    apply (invariant_update s i th); try done.
    + unfold pc_ok. cbn [th_pc set_pc]. rewrite domain_set_pc.
      split; [lra|done].
    + intros t w [Hg|Hg]; [|discriminate Hg]. injection Hg as <- <-.
      right. rewrite Hpc. split; [done|]. intros t' Ht'. by apply Hlast.
  - (* the thread goes to sleep *)
    pose proof (inv_lock s Hinv i th Hi) as Hheld. rewrite Hpc in Hheld.
    apply (invariant_update s i th); try done.
    + unfold pc_ok. cbn [th_pc set_pc]. rewrite domain_set_pc.
      intros t' Ht'. unfold must_sleep in Hsleep. rewrite Ht' in Hsleep.
      destruct (Qltb _ _); [|done]. injection Hsleep as <-.
      pose proof (required_ge_min s th). lra.
    + intros t w [Hg|Hg]; discriminate Hg.
  - (* the thread wakes up *)
    pose proof (inv_lock s Hinv i th Hi) as Hheld. rewrite Hpc in Hheld.
    pose proof (inv_pc s Hinv i th Hi) as Hok. unfold pc_ok in Hok.
    rewrite Hpc in Hok.
    assert (forall t', last_request (sh_limiter s) !! th_domain th = Some t' ->
                       (t' <= sh_now s)%Q
                       /\ (t' + min_delay (sh_limiter s) <= sh_now s)%Q) as Hlast.
    { intros t' Ht'. split; [by eapply inv_past|].
      specialize (Hok t' Ht'). lra. }
    apply (invariant_update s i th); try done.
    + unfold pc_ok. cbn [th_pc set_pc]. rewrite domain_set_pc.
      split; [lra|done].
    + intros t w [Hg|Hg]; [|discriminate Hg]. injection Hg as <- <-.
      right. rewrite Hpc. split; [done|]. intros t' Ht'. by apply Hlast.
  - (* the time is stored and the lock released *)
    pose proof (inv_lock s Hinv i th Hi) as Hheld. rewrite Hpc in Hheld.
    assert (sh_lock s = Some i) as Hlock by by apply Hheld.
    pose proof (inv_pc s Hinv i th Hi) as Hok. unfold pc_ok in Hok.
    rewrite Hpc in Hok. destruct Hok as [Hpast Hlast].
    split.
    + eapply lock_update; try done.
      intros k Hne. rewrite Hlock. split; [by intros [= ->]|done].
    + intros k th' Hk.
      apply update_lookup in Hk as [(-> & th0 & Hi' & ->)|(Hne & Hk)].
      * assert (th0 = th) as -> by congruence.
        unfold pc_ok. cbn. exists t. rewrite domain_set_pc, lookup_insert_eq.
        split; [done|lra].
      * pose proof (inv_pc s Hinv k th' Hk) as Hok'. unfold pc_ok in *.
        cbn [sh_limiter update record_request last_request min_delay sh_now].
        destruct (decide (th_domain th' = th_domain th)) as [Hsame|Hdiff].
        -- destruct (th_pc th') as [| |until|t0 w0|t0 w0] eqn:Hpc'; try done.
           ++ destruct Hne. eapply (holder_unique s k i th' th); try done;
                first [by rewrite Hpc'|by rewrite Hpc].
           ++ destruct Hne. eapply (holder_unique s k i th' th); try done;
                first [by rewrite Hpc'|by rewrite Hpc].
           ++ destruct Hok' as (t' & Ht' & Hle). rewrite Hsame in *.
              exists t. rewrite lookup_insert_eq. split; [done|].
              destruct (Hlast t' Ht'). lra.
        -- rewrite lookup_insert_ne by done. exact Hok'.
    + intros domain t0. cbn [sh_limiter update record_request last_request sh_now].
      destruct (decide (th_domain th = domain)) as [<-|Hdiff].
      * rewrite lookup_insert_eq. by intros [= <-].
      * rewrite lookup_insert_ne by done. by apply (inv_past s Hinv).
    + eapply apart_update; try done.
      intros t0 w0 [Hg|Hg]; [discriminate Hg|]. injection Hg as <- <-.
      left. by left.
Qed.

Lemma step_invariant s s' : invariant s -> step s s' -> invariant s'.
Proof.
  intros Hinv [i s'' Hstep|d Hd]; [by eapply thread_step_invariant|].
  split.
  - exact (inv_lock s Hinv).
  - intros k th Hk. pose proof (inv_pc s Hinv k th Hk) as Hok.
    unfold pc_ok in *. cbn [tick sh_limiter sh_now].
    destruct (th_pc th); try done. destruct Hok as [Hpast Hlast].
    split; [lra|done].
  - intros domain t Ht. pose proof (inv_past s Hinv domain t Ht).
    cbn [tick sh_now]. lra.
  - exact (inv_apart s Hinv).
Qed.

Lemma initial_invariant s : initial s -> invariant s.
Proof.
  intros (Hlock & Hready & Hpast).
  assert (forall i th, sh_threads s !! i = Some th -> th_pc th = Ready) as Hpc.
  { intros i th Hi. rewrite Forall_lookup in Hready. by eapply Hready. }
  split.
  - intros i th Hi. rewrite (Hpc i th Hi), Hlock. done.
  - intros i th Hi. unfold pc_ok. by rewrite (Hpc i th Hi).
  - done.
  - intros i j thi thj ti tj wi wj _ Hi _ _ [Hg|Hg] _;
      rewrite (Hpc i thi Hi) in Hg; discriminate Hg.
Qed.

Lemma reachable_invariant s0 s : initial s0 -> reachable s0 s -> invariant s.
Proof.
  intros Hinit Hreach. induction Hreach as [|s s' _ IH Hstep].
  - by apply initial_invariant.
  - by eapply step_invariant.
Qed.

End ThreadFacts.

Section Serialization.
Context `{Platform}.

Lemma step_min_delay s s' :
  step s s' -> min_delay (sh_limiter s') = min_delay (sh_limiter s).
Proof. intros [i s'' []|d Hd]; reflexivity. Qed.

Lemma reachable_min_delay s0 s :
  reachable s0 s -> min_delay (sh_limiter s) = min_delay (sh_limiter s0).
Proof.
  induction 1 as [|s s' _ IH Hstep]; [done|].
  by rewrite (step_min_delay _ _ Hstep).
Qed.

(** While a thread holds the lock no other thread can take a step. *)
Lemma lock_excludes s i j :
  invariant s -> sh_lock s = Some i -> j <> i -> ~ can_step j s.
Proof.
  intros Hinv Hlock Hne [s' Hstep].
  assert (forall th, sh_threads s !! j = Some th -> ~ in_lock (th_pc th)) as Hout.
  { intros th Hj Hin. apply (inv_lock s Hinv j th Hj) in Hin. congruence. }
  destruct Hstep as [th Hj Hpc Hfree|th Hj Hpc _|th ? Hj Hpc _|th ? Hj Hpc _
                    |th ? ? Hj Hpc]; try congruence;
    apply (Hout th Hj); by rewrite Hpc.
Qed.

End Serialization.

Lemma two_hosts_initial : initial two_hosts.
Proof.
  split; [done|]. split; [repeat constructor|].
  intros domain t.
  cbn [two_hosts sh_limiter sh_now record_request last_request].
  intros Ht. apply lookup_insert_Some in Ht as [[_ <-]|[_ Ht]].
  - apply Qle_refl.
  - change (last_request limiter_60) with (∅ : gmap string Q) in Ht.
    by rewrite lookup_empty in Ht.
Qed.

Lemma first_sleeps_reachable : @reachable offline_platform two_hosts first_sleeps.
Proof.
  set (s1 := update two_hosts 0 Holding (Some 0%nat) (sh_limiter two_hosts)).
  apply (reachable_step _ s1).
  - apply (reachable_step _ two_hosts); [apply reachable_refl|].
    apply (step_thread _ 0).
    exact (step_acquire 0 two_hosts (ready "https://a.com/x")
             eq_refl eq_refl eq_refl).
  - apply (step_thread _ 0).
    apply (step_sleep 0 s1
             {| th_url := "https://a.com/x"; th_custom_delay := None;
                th_pc := Holding |}
             (2 - (0 - 0))%Q); [reflexivity|reflexivity|].
    vm_compute. reflexivity.
Qed.

(** C9, as stated, fails: there is one lock for all hosts and the sleep
    happens inside it, so a caller for another host waits for the lock
    while the holder sleeps. *)
Lemma different_hosts_block :
  ~ (forall s i j thi thj,
       @reachable offline_platform two_hosts s ->
       sh_threads s !! i = Some thi ->
       sh_threads s !! j = Some thj ->
       @th_domain offline_platform thi <> @th_domain offline_platform thj ->
       ~ @blocks_on offline_platform s j i).
Proof.
  intros Hclaim.
  apply (Hclaim first_sleeps 0 1 _ _ first_sleeps_reachable eq_refl eq_refl).
  - intros Heq. vm_compute in Heq. discriminate.
  - exists (ready "https://b.com/y"). repeat split.
    apply (lock_excludes first_sleeps 0 1); [|done|done].
    apply (reachable_invariant two_hosts);
      [apply two_hosts_initial|apply first_sleeps_reachable].
Qed.

(** C9, amended.  [wait] serializes all its callers with one lock.  Two
    callers for the same host never get grant times less than the minimum
    interval apart, so they never both observe that no wait is needed
    (a grant with [waited = false]) within that interval of each other.
    The lock is the same for every host: while one caller holds it, also
    while it sleeps, no other caller can proceed, whatever its host. *)
Theorem wait_serializes_callers `{Platform} s0 s :
  initial s0 ->
  reachable s0 s ->
  min_delay (sh_limiter s) = min_delay (sh_limiter s0)
  /\ (forall i j thi thj ti tj wi wj,
        i <> j ->
        sh_threads s !! i = Some thi ->
        sh_threads s !! j = Some thj ->
        th_domain thi = th_domain thj ->
        has_grant thi ti wi ->
        has_grant thj tj wj ->
        (ti + min_delay (sh_limiter s0) <= tj)%Q
        \/ (tj + min_delay (sh_limiter s0) <= ti)%Q)
  /\ (forall i j, sh_lock s = Some i -> j <> i -> ~ can_step j s).
Proof.
  intros Hinit Hreach.
  pose proof (reachable_invariant s0 s Hinit Hreach) as Hinv.
  pose proof (reachable_min_delay s0 s Hreach) as Hmin.
  split; [done|]. split.
  - rewrite <- Hmin. exact (inv_apart s Hinv).
  - intros i j. by apply lock_excludes.
Qed.

Lemma same_host_initial : initial same_host.
Proof.
  split; [done|]. split; [repeat constructor|].
  intros domain t Ht.
  change (last_request (sh_limiter same_host)) with (∅ : gmap string Q) in Ht.
  by rewrite lookup_empty in Ht.
Qed.

(** Extend the run [R] by a step of thread [i] according to [rule]. *)
Ltac thread_runs R i rule :=
  let R' := fresh "R" in
  eassert (reachable _ _) as R';
  [ eapply reachable_step;
    [ exact R
    | apply (step_thread _ i); eapply rule;
      first [reflexivity | vm_compute; reflexivity | vm_compute; discriminate] ]
  | clear R; rename R' into R ].

(** The run that serves both callers of [same_host]. *)
Lemma both_served_reachable : @reachable offline_platform same_host both_served.
Proof.
  pose proof (@reachable_refl offline_platform same_host) as R.
  thread_runs R 0%nat @step_acquire.
  thread_runs R 0%nat @step_no_wait.
  thread_runs R 0%nat @step_release.
  thread_runs R 1%nat @step_acquire.
  thread_runs R 1%nat @step_sleep.
  assert (0 <= 2)%Q as Htwo by lra.
  apply (fun r => reachable_step _ _ _ r (step_tick _ 2%Q Htwo)) in R.
  thread_runs R 1%nat @step_wake.
  thread_runs R 1%nat @step_release.
  match type of R with
  | reachable _ ?s => assert (both_served = s) as -> by (vm_compute; reflexivity)
  end.
  exact R.
Qed.

Lemma wait_serializes_callers_witness :
  ((0 + min_delay (sh_limiter same_host) <= 0 + 2)%Q
   \/ (0 + 2 + min_delay (sh_limiter same_host) <= 0)%Q)
  /\ ~ @can_step offline_platform 1 first_sleeps.
Proof.
  split.
  - apply (proj1 (proj2 (@wait_serializes_callers offline_platform
                           same_host both_served
                           same_host_initial both_served_reachable))
             0%nat 1%nat
             {| th_url := "https://a.com/x"; th_custom_delay := None;
                th_pc := Done 0 false |}
             {| th_url := "https://a.com/z"; th_custom_delay := None;
                th_pc := Done (0 + 2) true |}
             0%Q (0 + 2)%Q false true);
      [lia|reflexivity|reflexivity|reflexivity|by right|by right].
  - apply (proj2 (proj2 (@wait_serializes_callers offline_platform
                           two_hosts first_sleeps
                           two_hosts_initial first_sleeps_reachable))
             0%nat 1%nat); [reflexivity|lia].
Defined.

(** * Further properties of the code *)

(** ** Rate limiter: first request, reset, other hosts, sleep time *)

(** X1.  A host the limiter has not seen is served at once: [wait] does
    not sleep and stores the current time.  After [reset] this is so for
    every host, and the configuration is the one from before. *)
Theorem wait_unseen_host `{Platform} address custom rl w :
  (last_request rl !! extract_domain address = None ->
   wait address custom rl w
   = (record_request (extract_domain address) (now w) rl, w))
  /\ wait address custom (reset rl) w
     = (record_request (extract_domain address) (now w) (reset rl), w)
  /\ last_request (fst (wait address custom (reset rl) w))
     = {[ extract_domain address := now w ]}
  /\ min_delay (reset rl) = min_delay rl
  /\ default_delay (reset rl) = default_delay rl.
Proof.
  split; [|split; [|split]].
  - intros Hnone. unfold wait. by rewrite Hnone.
  - unfold wait, reset. cbn [last_request]. by rewrite lookup_empty.
  - unfold wait, reset. cbn [last_request]. rewrite lookup_empty.
    cbn [fst record_request last_request]. apply insert_empty.
  - done.
Qed.

Lemma wait_unseen_host_witness :
  @wait offline_platform "https://b.com/y" None
    (record_request "a.com" 0 limiter_60) time_zero
  = (record_request "b.com" 0 (record_request "a.com" 0 limiter_60), time_zero).
Proof.
  apply (proj1 (@wait_unseen_host offline_platform "https://b.com/y" None
                  (record_request "a.com" 0 limiter_60) time_zero)).
  reflexivity.
Defined.

(** X2.  [wait] changes the stored time of the host of its URL only, and
    never the configuration of the limiter. *)
Theorem wait_other_hosts_untouched `{Platform} address custom rl w :
  (forall domain,
     domain <> extract_domain address ->
     last_request (fst (wait address custom rl w)) !! domain
     = last_request rl !! domain)
  /\ requests_per_minute (fst (wait address custom rl w))
     = requests_per_minute rl
  /\ default_delay (fst (wait address custom rl w)) = default_delay rl
  /\ min_delay (fst (wait address custom rl w)) = min_delay rl.
Proof.
  unfold wait.
  destruct (last_request rl !! extract_domain address) as [last|];
    [destruct (Qltb _ _)|]; cbn [fst record_request last_request
      requests_per_minute default_delay min_delay];
    (split; [intros domain Hne; by rewrite lookup_insert_ne|done]).
Qed.

Lemma wait_other_hosts_untouched_witness :
  last_request
    (fst (@wait offline_platform "https://b.com/y" None
            (record_request "a.com" 0 limiter_60) time_zero)) !! "a.com"
  = Some 0%Q.
Proof.
  rewrite (proj1 (@wait_other_hosts_untouched offline_platform
                    "https://b.com/y" None
                    (record_request "a.com" 0 limiter_60) time_zero) "a.com").
  - reflexivity.
  - intros Heq. vm_compute in Heq. discriminate.
Defined.

(** X3.  For a host served before at time [last]: when the required
    delay has passed [wait] returns at once; otherwise it sleeps for
    exactly the rest of the required delay.  When the sleep is exact the
    call returns at [max(now, last + required delay)]. *)
Theorem wait_sleeps_the_rest `{Platform} address custom rl w last :
  last_request rl !! extract_domain address = Some last ->
  ((required_delay rl custom <= now w - last)%Q ->
   wait address custom rl w
   = (record_request (extract_domain address) (now w) rl, w))
  /\ ((now w - last < required_delay rl custom)%Q ->
      snd (wait address custom rl w)
      = time_sleep (required_delay rl custom - (now w - last)) w
      /\ (now (snd (wait address custom rl w))
          == last + required_delay rl custom + hd 0 (delays w))%Q)
  /\ (delays w = [] ->
      (now (snd (wait address custom rl w))
       == Qmax (now w) (last + required_delay rl custom))%Q).
Proof.
  intros Hlast. unfold wait. rewrite Hlast. split; [|split].
  - intros Hpassed. apply Qltb_false in Hpassed. by rewrite Hpassed.
  - intros Hearly. apply Qltb_true in Hearly. rewrite Hearly.
    cbn [snd]. split; [done|]. unfold time_sleep, advance. cbn [now]. lra.
  - intros Hexact.
    destruct (Qltb _ _) eqn:Hlt; cbn [snd].
    + apply Qltb_true in Hlt. unfold time_sleep, advance. cbn [now].
      rewrite Hexact. cbn [hd].
      destruct (Q.max_spec (now w) (last + required_delay rl custom))
        as [[_ ->]|[Hle _]]; lra.
    + apply Qltb_false in Hlt.
      destruct (Q.max_spec (now w) (last + required_delay rl custom))
        as [[Hlt' _]|[_ ->]]; lra.
Qed.

Lemma wait_sleeps_the_rest_witness :
  (now (snd (@wait offline_platform "https://a.com/z" None
               (record_request "a.com" 0 limiter_60) time_zero))
   == Qmax (now time_zero) (0 + required_delay (record_request "a.com" 0 limiter_60) None))%Q
  /\ (now (snd (@wait offline_platform "https://a.com/z" None
                  (record_request "a.com" 0 limiter_60) time_zero))
      == 2)%Q.
Proof.
  split; [|reflexivity].
  apply (proj2 (proj2 (@wait_sleeps_the_rest offline_platform
                         "https://a.com/z" None
                         (record_request "a.com" 0 limiter_60) time_zero 0%Q
                         eq_refl))).
  reflexivity.
Defined.

(** ** Source type detection: the network stages *)

Section DetectorNetwork.
Context `{Platform}.

Lemma get_content_type_value url :
  _get_content_type url
  = (Ok match requests_head url with
        | Ok content_type =>
            Some (PyStr.lower (default EmptyString content_type))
        | Raise _ => None
        end, [HEAD url]).
Proof.
  unfold _get_content_type, perform, mbind, mret, io_bind, io_ret.
  by destruct (requests_head url).
Qed.

Lemma analyze_content_value url :
  _analyze_content url
  = (Ok match requests_get url with
        | Ok text => sniff_content (PyStr.take 5000 text)
        | Raise _ => None
        end, [GET url]).
Proof.
  unfold _analyze_content, sniff_content, perform, quiet, mbind, mret,
    io_bind, io_ret, result_bind, bind.
  destruct (requests_get url) as [text|e]; [|done].
  cbv beta iota zeta. generalize (PyStr.take 5000 text). intros sample.
  unfold io_try.
  destruct (any_in _ sample); [done|].
  destruct (soup_find sample "rss") as [[]|]; [done| |].
  - destruct (soup_find sample "feed") as [[]|]; [done| |];
      by destruct (any_in _ sample).
  - by destruct (any_in _ sample).
Qed.

Lemma sniff_content_range content :
  sniff_content content = None
  \/ sniff_content content = Some RSS_FEED
  \/ sniff_content content = Some DYNAMIC_HTML.
Proof.
  unfold sniff_content. repeat case_match; auto.
Qed.

(** [detect] after the two pattern stages. *)
Lemma detect_network url :
  _check_platform_patterns url = None ->
  _is_feed_url url = false ->
  detect url
  = let content_type :=
      match requests_head url with
      | Ok content_type =>
          Some (PyStr.lower (default EmptyString content_type))
      | Raise _ => None
      end in
    if present content_type
       && any_in ["xml"; "rss"; "atom"] (default EmptyString content_type)
    then (Ok RSS_FEED, [HEAD url])
    else (Ok (default STATIC_HTML
                match requests_get url with
                | Ok text => sniff_content (PyStr.take 5000 text)
                | Raise _ => None
                end),
          [HEAD url; GET url]).
Proof.
  intros Hp Hf. unfold detect, detect_with, detect_body.
  cbn [detector_stages st_check_platform_patterns st_is_feed_url
       st_get_content_type st_analyze_content].
  unfold mbind, mret, io_bind, io_ret. rewrite Hp, Hf.
  rewrite get_content_type_value, analyze_content_value.
  cbv zeta. destruct (present _ && _); [done|].
  by destruct (match requests_get url with Ok _ => _ | Raise _ => _ end).
Qed.

Lemma take_app_long n text tail :
  n <= String.length text ->
  PyStr.take n (text +:+ tail) = PyStr.take n text.
Proof.
  revert text. induction n as [|n IH]; intros text Hn; [by destruct text|].
  destruct text as [|c text]; [cbn in Hn; lia|].
  rewrite append_cons. cbn [PyStr.take]. rewrite IH; [done|].
  cbn in Hn. lia.
Qed.

End DetectorNetwork.

(** X4.  [detect] issues at most two requests, a [HEAD] and then a [GET],
    both for the URL it was given, and returns one of five source types:
    never the Atom, forum, unsupported or unknown type. *)
Theorem detect_requests_and_range `{Platform} address :
  exists t,
    (detect address = (Ok t, [])
     \/ detect address = (Ok t, [HEAD address])
     \/ detect address = (Ok t, [HEAD address; GET address]))
    /\ t ∈ detectable.
Proof.
  destruct (_check_platform_patterns address) as [t|] eqn:Hp.
  { exists t. split; [left; by apply detect_platform|].
    destruct (check_platform_patterns_range _ _ Hp) as [-> | ->];
      unfold detectable; set_solver. }
  destruct (_is_feed_url address) eqn:Hf.
  { exists RSS_FEED. split; [left; by apply detect_feed_url|].
    unfold detectable; set_solver. }
  rewrite (detect_network address Hp Hf). cbv zeta.
  destruct (present _ && _).
  { exists RSS_FEED. split; [by right; left|]. unfold detectable; set_solver. }
  eexists. split; [by right; right|].
  destruct (requests_get address) as [text|e];
    [|unfold detectable; cbn; set_solver].
  destruct (sniff_content_range (PyStr.take 5000 text)) as [->|[->| ->]];
    unfold detectable; cbn; set_solver.
Qed.

(** X5.  When no URL pattern matches and the [HEAD] response has a
    content type that contains [xml], [rss] or [atom] in any letter case,
    the source is a feed and the body is not fetched. *)
Theorem detect_feed_content_type `{Platform} address content_type :
  _check_platform_patterns address = None ->
  _is_feed_url address = false ->
  requests_head address = Ok (Some content_type) ->
  any_in ["xml"; "rss"; "atom"] (PyStr.lower content_type) = true ->
  detect address = (Ok RSS_FEED, [HEAD address]).
Proof.
  intros Hp Hf Hhead Hfeed. rewrite (detect_network address Hp Hf), Hhead.
  cbv zeta. cbn [from_option id present]. rewrite Hfeed.
  destruct (PyStr.lower content_type); [discriminate Hfeed|done].
Qed.

Lemma detect_feed_content_type_witness :
  @detect atom_server "https://example.org/news"
  = (Ok RSS_FEED, [HEAD "https://example.org/news"]).
Proof.
  apply (@detect_feed_content_type atom_server "https://example.org/news"
           "Application/Atom+XML; charset=utf-8"); reflexivity.
Defined.

(** X6.  When no URL pattern matches and the header probe gives no feed
    content type (or fails), the body decides: a failed download means
    static HTML; otherwise only the first 5000 characters of the body are
    looked at, so that what follows them changes nothing. *)
Theorem detect_body_sniff `{Platform} address :
  _check_platform_patterns address = None ->
  _is_feed_url address = false ->
  feed_content_type address = false ->
  (forall e, requests_get address = Raise e ->
             detect address = (Ok STATIC_HTML, [HEAD address; GET address]))
  /\ (forall text tail,
        requests_get address = Ok (text +:+ tail) ->
        5000 <= String.length text ->
        detect address
        = (Ok (default STATIC_HTML (sniff_content (PyStr.take 5000 text))),
           [HEAD address; GET address]))
  /\ (forall text,
        requests_get address = Ok text ->
        detect address
        = (Ok (default STATIC_HTML (sniff_content (PyStr.take 5000 text))),
           [HEAD address; GET address])).
Proof.
  intros Hp Hf Hhead.
  assert (detect address
          = (Ok (default STATIC_HTML
                   match requests_get address with
                   | Ok text => sniff_content (PyStr.take 5000 text)
                   | Raise _ => None
                   end),
             [HEAD address; GET address])) as Hdetect.
  { rewrite (detect_network address Hp Hf). cbv zeta.
    unfold feed_content_type in Hhead.
    destruct (requests_head address) as [[ct|]|e0]; cbn [from_option id present].
    - rewrite Hhead. by rewrite andb_false_r.
    - done.
    - done. }
  split; [|split].
  - intros e He. by rewrite Hdetect, He.
  - intros text tail Hget Hlong.
    by rewrite Hdetect, Hget, take_app_long.
  - intros text Hget. by rewrite Hdetect, Hget.
Qed.

Lemma detect_body_sniff_witness :
  @detect offline_platform "https://example.org/news"
  = (Ok STATIC_HTML,
     [HEAD "https://example.org/news"; GET "https://example.org/news"])
  /\ @detect next_js_server "https://example.org/app"
     = (Ok DYNAMIC_HTML,
        [HEAD "https://example.org/app"; GET "https://example.org/app"]).
Proof.
  split.
  - apply (proj1 (@detect_body_sniff offline_platform
                    "https://example.org/news" eq_refl eq_refl eq_refl)
             (Exn RequestException "connection refused")).
    reflexivity.
  - rewrite (proj2 (proj2 (@detect_body_sniff next_js_server
                             "https://example.org/app" eq_refl eq_refl eq_refl))
               "<html><script id=__NEXT_DATA__>{}</script></html>" eq_refl).
    reflexivity.
Defined.

(** ** Strings: what [startswith], [endswith] and [in] say *)

Section StringFacts.

Lemma append_assoc_s (a b c : string) : (a +:+ b) +:+ c = a +:+ b +:+ c.
Proof. induction a as [|x a IH]; [done|]. by rewrite !append_cons, IH. Qed.

Lemma rev_app_append s t : String.rev_app s t = String.rev s +:+ t.
Proof.
  unfold String.rev. revert t. induction s as [|c s IH]; intros t; [done|].
  cbn [String.rev_app]. rewrite (IH (String c t)), (IH (String c EmptyString)).
  by rewrite append_assoc_s.
Qed.

Lemma rev_cons c s : String.rev (String c s) = String.rev s +:+ String c EmptyString.
Proof. unfold String.rev at 1. cbn [String.rev_app]. apply rev_app_append. Qed.

Lemma rev_append a b : String.rev (a +:+ b) = String.rev b +:+ String.rev a.
Proof.
  induction a as [|c a IH]; [by rewrite append_empty_r|].
  by rewrite append_cons, !rev_cons, IH, append_assoc_s.
Qed.

Lemma rev_involutive s : String.rev (String.rev s) = s.
Proof.
  induction s as [|c s IH]; [done|]. by rewrite rev_cons, rev_append, IH.
Qed.

Lemma startswith_spec s p :
  PyStr.startswith s p = true <-> exists rest, s = p +:+ rest.
Proof.
  revert s. induction p as [|c p IH]; intros s.
  - split; [intros _; exists s; reflexivity|intros _; by destruct s].
  - destruct s as [|d s]; cbn [PyStr.startswith].
    + split; [done|]. by intros [rest Hrest].
    + rewrite andb_true_iff, Ascii.eqb_eq, IH. split.
      * intros [-> [rest ->]]. by exists rest.
      * intros [rest Hrest]. rewrite append_cons in Hrest.
        injection Hrest as -> ->. eauto.
Qed.

Lemma endswith_spec s p :
  PyStr.endswith s p = true <-> exists stem, s = stem +:+ p.
Proof.
  unfold PyStr.endswith. rewrite startswith_spec. split.
  - intros [rest Hrest]. exists (String.rev rest).
    by rewrite <- (rev_involutive s), Hrest, rev_append, rev_involutive.
  - intros [stem ->]. exists (String.rev stem). apply rev_append.
Qed.

Lemma contains_spec sub s :
  PyStr.contains sub s = true <-> exists pre post, s = pre +:+ sub +:+ post.
Proof.
  induction s as [|c s IH].
  - cbn [PyStr.contains]. rewrite orb_false_r, startswith_spec. split.
    + intros [rest Hrest]. by exists EmptyString, rest.
    + intros ([|d pre] & post & Hs); [by exists post|discriminate Hs].
  - cbn [PyStr.contains]. rewrite orb_true_iff, startswith_spec, IH. split.
    + intros [[rest Hrest]|(pre & post & ->)].
      * by exists EmptyString, rest.
      * by exists (String c pre), post.
    + intros ([|d pre] & post & Hs).
      * left. by exists post.
      * rewrite append_cons in Hs. injection Hs as -> ->. right. eauto.
Qed.

End StringFacts.

(** X7.  What the feed extractor says it can handle, the detector takes
    for a feed URL: a URL that ends with [.xml], [.rss], [/feed], [/rss]
    or [/atom] passes the feed patterns, and [detect] classifies it
    without any request. *)
Theorem can_handle_feed_detected `{Platform} address :
  can_handle RSSExtractor address = true ->
  _is_feed_url address = true
  /\ exists t, detect address = (Ok t, []).
Proof.
  intros Hcan.
  assert (_is_feed_url address = true) as Hfeed.
  { cbn [can_handle] in Hcan. apply existsb_exists in Hcan as (suffix & Hin & Hends).
    apply endswith_spec in Hends as [stem ->].
    apply is_feed_url_suffix. unfold feed_suffixes.
    cbn [In] in Hin. destruct Hin as [<-|[<-|[<-|[<-|[<-|[]]]]]]; cbn; set_solver. }
  split; [done|].
  destruct (_check_platform_patterns address) as [t|] eqn:Hp.
  - exists t. by apply detect_platform.
  - exists RSS_FEED. by apply detect_feed_url.
Qed.

Lemma can_handle_feed_detected_witness :
  _is_feed_url "https://blog.example.org/atom" = true
  /\ exists t, @detect offline_platform "https://blog.example.org/atom" = (Ok t, []).
Proof.
  apply (@can_handle_feed_detected offline_platform). reflexivity.
Defined.

(** ** Extraction strategies *)

Section ExtractorFacts.
Context `{Platform}.

Lemma mapM_Ok {A B} (f : A -> result B) l k :
  mapM f l = Ok k <-> Forall2 (fun x y => f x = Ok y) l k.
Proof.
  revert k. induction l as [|x l IH]; intros k; cbn.
  - split; [intros [= <-]; constructor|by intros ->%Forall2_nil_inv_l].
  - unfold mbind, mret, result_bind, result_ret, bind.
    destruct (f x) as [y|e] eqn:Hx.
    + destruct (mapM f l) as [k'|e] eqn:Hl.
      * split.
        -- intros [= <-]. constructor; [done|]. by apply IH.
        -- intros (y' & k'' & Hy & Hk & ->)%Forall2_cons_inv_l.
           apply IH in Hk. congruence.
      * split; [done|].
        intros (y' & k'' & Hy & Hk & ->)%Forall2_cons_inv_l.
        apply IH in Hk. congruence.
    + split; [done|].
      intros (y' & k'' & Hy & Hk & ->)%Forall2_cons_inv_l. congruence.
Qed.

(** A failure of [mapM] is the failure of the first element that does
    not convert. *)
Lemma mapM_Raise {A B} (f : A -> result B) l e :
  mapM f l = Raise e <->
  exists before x after,
    l = before ++ x :: after
    /\ Forall (fun y => returns (f y) = true) before
    /\ f x = Raise e.
Proof.
  induction l as [|x l IH]; cbn.
  - split; [done|]. by intros ([|??] & ? & ? & ? & _).
  - unfold mbind, mret, result_bind, result_ret, bind.
    destruct (f x) as [y|e'] eqn:Hx.
    + destruct (mapM f l) as [k'|e'] eqn:Hl.
      * split; [done|].
        intros ([|x' before] & x'' & after & Heq & Hall & Hfail);
          injection Heq as <- ->; [congruence|].
        apply Forall_cons in Hall as [_ Hall].
        assert (Ok k' = Raise e) by (apply IH; eauto 6). done.
      * split.
        -- intros [= ->]. destruct (proj1 IH eq_refl)
             as (before & x' & after & -> & Hall & Hfail).
           exists (x :: before), x', after. split; [done|].
           split; [|done]. constructor; [by rewrite Hx|done].
        -- intros ([|x' before] & x'' & after & Heq & Hall & Hfail);
             injection Heq as <- ->; [congruence|].
           apply Forall_cons in Hall as [_ Hall].
           f_equal. assert (Raise e' = Raise e) as [= ->] by (apply IH; eauto 6).
           done.
    + split.
      * intros [= ->]. exists [], x, l. by repeat split.
      * intros ([|x' before] & x'' & after & Heq & Hall & Hfail);
          injection Heq as <- ->; [congruence|].
        apply Forall_cons in Hall as [Hx' _]. by rewrite Hx in Hx'.
Qed.

(** The loop of the feed extractor converts the entries the counter
    leaves room for, one after the other. *)
Lemma rss_loop_mapM cfg entries count items :
  rss_loop cfg entries count items
  = (new ← mapM (rss_item cfg)
             (take (Z.to_nat (max_items cfg - count)) entries);
     Ok (items ++ new)).
Proof.
  revert count items.
  induction entries as [|e entries IH]; intros count items.
  - rewrite take_nil. cbn. by rewrite app_nil_r.
  - cbn [rss_loop]. destruct (max_items cfg <=? count)%Z eqn:Hfull.
    + apply Z.leb_le in Hfull.
      replace (Z.to_nat (max_items cfg - count)) with 0%nat by lia.
      cbn. by rewrite app_nil_r.
    + apply Z.leb_gt in Hfull.
      replace (Z.to_nat (max_items cfg - count))
        with (S (Z.to_nat (max_items cfg - (count + 1)))) by lia.
      cbn [take mapM]. unfold mbind, mret, result_bind, result_ret, bind.
      destruct (rss_item cfg e) as [item|err]; [|done].
      rewrite IH. unfold mbind, result_bind, bind.
      destruct (mapM _ _) as [new|err]; [|done].
      by rewrite <- app_assoc.
Qed.

Lemma rss_item_shape cfg entry item :
  rss_item cfg entry = Ok item ->
  source_type item = RSS_FEED
  /\ metadata item = {[ "source_name" := name cfg ]}
  /\ title item = Some (default "No Title" (e_title entry))
  /\ author item = e_author entry.
Proof.
  unfold rss_item, mbind, result_bind, bind.
  destruct (entry_link cfg entry); [|done].
  destruct (entry_published_at entry); [|done].
  destruct (entry_summary entry); [|done].
  by intros [= <-].
Qed.

(** [extract] of the feed strategy as a map over the first entries. *)
Lemma rss_extract_mapM cfg feed :
  feedparser_parse (url cfg) = Ok feed ->
  rss_extract cfg
  = try_except
      (mapM (rss_item cfg) (take (Z.to_nat (max_items cfg)) (entries feed)))
      (fun e => Raise (Exn ExtractionError
                         ("Failed to extract RSS: " +:+ exn_message e))).
Proof.
  intros Hparse. unfold rss_extract. rewrite Hparse.
  cbn [mbind result_bind bind].
  rewrite rss_loop_mapM. unfold mbind, result_bind, bind.
  replace (max_items cfg - 0)%Z with (max_items cfg) by lia.
  by destruct (mapM (rss_item cfg) _).
Qed.

Lemma rss_extract_Ok cfg feed items :
  feedparser_parse (url cfg) = Ok feed ->
  Forall2 (fun e item => rss_item cfg e = Ok item)
    (take (Z.to_nat (max_items cfg)) (entries feed)) items <->
  rss_extract cfg = Ok items.
Proof.
  intros Hparse. rewrite <- mapM_Ok, (rss_extract_mapM cfg feed Hparse).
  by destruct (mapM (rss_item cfg) _).
Qed.

End ExtractorFacts.

(** X8.  The feed strategy converts the first [min(max_items, N)] entries
    of the feed, in order, and nothing after them.  When all of them
    convert it returns their items; when one does not, it returns
    nothing and raises [ExtractionError] with the message of the first
    failure. *)
Theorem rss_extract_converts_prefix `{Platform} cfg feed :
  feedparser_parse (url cfg) = Ok feed ->
  let firsts := take (Z.to_nat (max_items cfg)) (entries feed) in
  (forall items,
     Forall2 (fun e item => rss_item cfg e = Ok item) firsts items <->
     rss_extract cfg = Ok items)
  /\ (forall items,
        rss_extract cfg = Ok items ->
        length items = Z.to_nat (max_items cfg) `min` length (entries feed))
  /\ (forall before entry after e,
        firsts = before ++ entry :: after ->
        Forall (fun e => returns (rss_item cfg e) = true) before ->
        rss_item cfg entry = Raise e ->
        rss_extract cfg
        = Raise (Exn ExtractionError
                   ("Failed to extract RSS: " +:+ exn_message e))).
Proof.
  intros Hparse firsts.
  pose proof (rss_extract_mapM cfg feed Hparse) as Hextract.
  pose proof (fun items => rss_extract_Ok cfg feed items Hparse) as Hok.
  fold firsts in Hextract, Hok.
  split; [done|]. split.
  - intros items Hitems. apply Hok, Forall2_length in Hitems.
    rewrite <- Hitems. unfold firsts. apply length_take.
  - intros before entry after e Hsplit Hbefore Hfail.
    assert (mapM (rss_item cfg) firsts = Raise e) as Hraise.
    { apply mapM_Raise. by exists before, entry, after. }
    by rewrite Hextract, Hraise.
Qed.

Lemma rss_extract_converts_prefix_witness :
  (exists item,
     @rss_extract second_broken_platform (single_config "https://a.com/feed" "A")
     = Ok [item])
  /\ @rss_extract second_broken_platform feed_config
     = Raise (Exn ExtractionError
                "Failed to extract RSS: list index out of range").
Proof.
  split.
  - eexists.
    apply (proj1 (@rss_extract_converts_prefix second_broken_platform
                    (single_config "https://a.com/feed" "A") second_broken
                    eq_refl)).
    repeat constructor.
  - apply (proj2 (proj2 (@rss_extract_converts_prefix second_broken_platform
                           feed_config second_broken eq_refl))
             [entry_with (Some "First") (Some "/p/1")] broken_entry []
             (Exn IndexError "list index out of range"));
      [reflexivity|by repeat constructor|reflexivity].
Defined.

Section StrategyFacts.
Context `{Platform}.

Lemma html_extract_cases cfg :
  (exists e, html_extract cfg = Raise (Exn ExtractionError e))
  \/ html_extract cfg = Ok []
  \/ exists title content published author,
       html_extract cfg
       = Ok [_create_content_item (url cfg) title content STATIC_HTML
               published author {[ "source_name" := name cfg ]}].
Proof.
  unfold html_extract, mbind, result_bind, bind, try_except.
  destruct (trafilatura_fetch_url (url cfg)) as [downloaded|e]; [|eauto].
  destruct (present downloaded); cbn [negb]; [|eauto].
  destruct (trafilatura_extract true _) as [result_json|e]; [|eauto].
  destruct (present result_json); cbn [negb]; [|eauto].
  destruct (json_loads _) as [data|e]; [|eauto].
  right; right. eauto.
Qed.

Lemma dynamic_extract_cases cfg :
  (exists e, dynamic_extract cfg = Raise (Exn ExtractionError e))
  \/ dynamic_extract cfg = Ok []
  \/ exists title content published author,
       dynamic_extract cfg
       = Ok [_create_content_item (url cfg) title content DYNAMIC_HTML
               published author {[ "source_name" := name cfg ]}].
Proof.
  unfold dynamic_extract, mbind, result_bind, bind, try_except.
  destruct playwright_installed; cbn [negb]; [|eauto].
  destruct (render_page (url cfg)) as [content_html|e]; [|eauto].
  destruct (any_in bot_detection_markers content_html); [eauto|].
  destruct (PyStr.truthy content_html); cbn [negb]; [|eauto].
  destruct (trafilatura_extract false _) as [item_data|e]; [|eauto].
  destruct (present item_data); cbn [negb]; [|eauto].
  destruct (json_loads _) as [data|e]; [|eauto].
  right; right. eauto.
Qed.

Lemma rss_extract_cases cfg :
  (exists e, rss_extract cfg = Raise (Exn ExtractionError e))
  \/ exists feed items,
       feedparser_parse (url cfg) = Ok feed
       /\ rss_extract cfg = Ok items
       /\ Forall2 (fun e item => rss_item cfg e = Ok item)
            (take (Z.to_nat (max_items cfg)) (entries feed)) items.
Proof.
  destruct (feedparser_parse (url cfg)) as [feed|e] eqn:Hparse.
  - destruct (rss_extract cfg) as [items|e] eqn:Hextract.
    + right. exists feed, items. split; [done|]. split; [done|].
      by apply (rss_extract_Ok cfg feed items Hparse).
    + left. unfold rss_extract in Hextract. rewrite Hparse in Hextract.
      cbn [mbind result_bind bind] in Hextract.
      destruct (rss_loop _ _ _ _); [done|]. cbn in Hextract.
      injection Hextract as <-. eauto.
  - left. unfold rss_extract. rewrite Hparse. cbn. eauto.
Qed.

End StrategyFacts.

(** What the three strategies have in common in the items they return. *)
Lemma extract_items_shape `{Platform} extractor cfg items :
  extract extractor cfg = Ok items ->
  length items <= capacity extractor cfg
  /\ Forall (fun item =>
               metadata item = {[ "source_name" := name cfg ]}
               /\ (extractor <> RSSExtractor -> source_url item = url cfg))
            items.
Proof.
  destruct extractor; cbn [extract capacity]; intros Hitems.
  - destruct (rss_extract_cases cfg) as [[m Hm]|(feed & items' & _ & Hm & Hall)];
      rewrite Hm in Hitems; [done|]. injection Hitems as ->.
    split.
    + apply Forall2_length in Hall. rewrite <- Hall, length_take. lia.
    + clear Hm. induction Hall as [|e item es items' Hitem _ IH]; constructor;
        [|done].
      by apply rss_item_shape in Hitem as (_ & Hm' & _).
  - destruct (html_extract_cases cfg) as [[m Hm]|[Hm|(t & c & p & a & Hm)]];
      rewrite Hm in Hitems; [done|..]; injection Hitems as <-; cbn;
      [split; [lia|constructor]|split; [lia|by repeat constructor]].
  - destruct (dynamic_extract_cases cfg) as [[m Hm]|[Hm|(t & c & p & a & Hm)]];
      rewrite Hm in Hitems; [done|..]; injection Hitems as <-; cbn;
      [split; [lia|constructor]|split; [lia|by repeat constructor]].
Qed.

(** X9.  A strategy that fails raises [ExtractionError] and nothing
    else: every exception of the libraries it calls is wrapped. *)
Theorem extract_raises_extraction_error `{Platform} extractor cfg e :
  extract extractor cfg = Raise e -> exn_class e = ExtractionError.
Proof.
  destruct extractor; cbn [extract]; intros He.
  - destruct (rss_extract_cases cfg) as [[m Hm]|(feed & items & _ & Hm & _)];
      rewrite Hm in He; [by injection He as <-|done].
  - destruct (html_extract_cases cfg) as [[m Hm]|[Hm|(t & c & p & a & Hm)]];
      rewrite Hm in He; [by injection He as <-|done..].
  - destruct (dynamic_extract_cases cfg) as [[m Hm]|[Hm|(t & c & p & a & Hm)]];
      rewrite Hm in He; [by injection He as <-|done..].
Qed.

Lemma extract_raises_extraction_error_witness :
  @extract second_broken_platform RSSExtractor feed_config
  = Raise (Exn ExtractionError "Failed to extract RSS: list index out of range")
  /\ exn_class
       (Exn ExtractionError "Failed to extract RSS: list index out of range")
     = ExtractionError.
Proof.
  split; [reflexivity|].
  apply (@extract_raises_extraction_error second_broken_platform RSSExtractor
           feed_config).
  reflexivity.
Defined.

(** X10.  Every item a strategy returns carries the name of the
    configuration as its only metadata and the source type of the
    strategy that made it (the feed type also for a source routed as an
    Atom feed); the page strategies return at most one item, whose URL is
    the one of the configuration, and the feed strategy at most
    [max_items]. *)
Theorem extract_items_contract `{Platform} extractor cfg items :
  extract extractor cfg = Ok items ->
  length items <= capacity extractor cfg
  /\ Forall (fun item =>
               metadata item = {[ "source_name" := name cfg ]}
               /\ source_type item = stamp extractor
               /\ (extractor <> RSSExtractor -> source_url item = url cfg))
            items.
Proof.
  intros Hitems.
  destruct (extract_items_shape extractor cfg items Hitems) as [Hlen Hshape].
  split; [done|].
  assert (Forall (fun item => source_type item = stamp extractor) items)
    as Hstamp.
  { destruct extractor; cbn [extract stamp] in *.
    - destruct (rss_extract_cases cfg)
        as [[m Hm]|(feed & items' & _ & Hm & Hall)];
        rewrite Hm in Hitems; [done|]. injection Hitems as ->.
      clear Hm Hlen Hshape.
      induction Hall as [|e item es items' Hitem _ IH]; constructor; [|done].
      by apply rss_item_shape in Hitem as (Ht & _).
    - destruct (html_extract_cases cfg) as [[m Hm]|[Hm|(t & c & p & a & Hm)]];
        rewrite Hm in Hitems; [done|..]; injection Hitems as <-;
        by repeat constructor.
    - destruct (dynamic_extract_cases cfg)
        as [[m Hm]|[Hm|(t & c & p & a & Hm)]];
        rewrite Hm in Hitems; [done|..]; injection Hitems as <-;
        by repeat constructor. }
  clear Hitems Hlen.
  induction Hshape as [|item items [Hmeta Hurl] _ IH]; [constructor|].
  apply Forall_cons in Hstamp as [Htype Hstamp].
  constructor; [done|by apply IH].
Qed.

Lemma extract_items_contract_witness :
  exists items,
    @extract feed_platform RSSExtractor feed_config = Ok items
    /\ length items <= 2
    /\ Forall (fun item =>
                 metadata item = {[ "source_name" := "A" ]}
                 /\ source_type item = RSS_FEED
                 /\ (RSSExtractor <> RSSExtractor ->
                     source_url item = "https://a.com/feed"))
              items.
Proof.
  eexists. split; [reflexivity|].
  apply (@extract_items_contract feed_platform RSSExtractor feed_config).
  reflexivity.
Defined.

(** X11.  [extract_single] refuses a URL without [http://] or [https://]
    with [ValueError] before any network call.  On a feed it looks at the
    first entry only: it returns the item of that entry whatever the
    other entries are, and raises [ExtractionError] when the feed is
    empty. *)
Theorem extract_single_feed `{Platform} address source_name :
  (html_can_handle address = false ->
   forall extractor,
     exists message,
       extract_single extractor address source_name
       = Raise (Exn ValueError message))
  /\ (html_can_handle address = true ->
      forall feed,
        feedparser_parse address = Ok feed ->
        (entries feed = [] ->
         extract_single RSSExtractor address source_name
         = Raise (Exn ExtractionError
                    ("Failed to extract content from " +:+ address)))
        /\ (forall first others item,
              entries feed = first :: others ->
              rss_item (single_config address source_name) first = Ok item ->
              extract_single RSSExtractor address source_name = Ok item)).
Proof.
  split.
  - intros Hbad extractor. unfold extract_single, make_SourceConfig.
    unfold html_can_handle in Hbad. rewrite Hbad, orb_true_r. cbn. eauto.
  - intros Hgood feed Hparse.
    assert (extract_single RSSExtractor address source_name
            = (results ← rss_extract (single_config address source_name);
               match results with
               | item :: _ => Ok item
               | [] => Raise (Exn ExtractionError
                                ("Failed to extract content from " +:+ address))
               end)) as Hsingle.
    { unfold extract_single.
      by rewrite (make_SourceConfig_ok address _ 1 None Hgood). }
    split.
    + intros Hempty. rewrite Hsingle.
      unfold rss_extract. cbn [url single_config]. rewrite Hparse.
      cbn [mbind result_bind bind]. by rewrite Hempty.
    + intros first others item Hentries Hitem. rewrite Hsingle.
      assert (rss_extract (single_config address source_name) = Ok [item])
        as ->; [|done].
      apply (rss_extract_Ok (single_config address source_name) feed
               [item] Hparse).
      cbn [max_items single_config]. rewrite Hentries. cbn.
      by repeat constructor.
Qed.

Lemma extract_single_feed_witness :
  (exists message,
     @extract_single second_broken_platform HTMLExtractor "ftp://a.com/feed"
       EmptyString
     = Raise (Exn ValueError message))
  /\ (exists item,
        @rss_item second_broken_platform
          (single_config "https://a.com/feed" EmptyString)
          (entry_with (Some "First") (Some "/p/1")) = Ok item
        /\ @extract_single second_broken_platform RSSExtractor
             "https://a.com/feed" EmptyString
           = Ok item)
  /\ @extract_single empty_feed_platform RSSExtractor "https://a.com/feed"
       EmptyString
     = Raise (Exn ExtractionError
                "Failed to extract content from https://a.com/feed").
Proof.
  split; [|split].
  - apply (proj1 (@extract_single_feed second_broken_platform
                    "ftp://a.com/feed" EmptyString)); reflexivity.
  - eexists. split; [reflexivity|].
    apply (proj2 (proj2 (@extract_single_feed second_broken_platform
                           "https://a.com/feed" EmptyString)
                    eq_refl second_broken eq_refl)
             (entry_with (Some "First") (Some "/p/1")) [broken_entry]);
      reflexivity.
  - apply (proj1 (proj2 (@extract_single_feed empty_feed_platform
                           "https://a.com/feed" EmptyString)
                    eq_refl empty_feed eq_refl)).
    reflexivity.
Defined.

(** ** Orchestrator: what a call returns and when *)

Section ScraperMore.
Context `{Platform}.

Lemma probed_clock url s :
  punctual (world s) ->
  punctual (world (probed url s))
  /\ (now (world s) <= now (world (probed url s)))%Q.
Proof.
  unfold probed. generalize (probes url). intros requests. revert s.
  induction requests as [|r requests IH]; intros s Hw.
  - split; [done|]. cbn [fold_left]. apply Qle_refl.
  - cbn [fold_left].
    pose proof (advance_punctual 0 (world s) Hw) as Hp.
    pose proof (advance_now 0 (world s) Hw) as Hn.
    destruct (IH {| rate_limiter := rate_limiter s;
                    world := elapse (world s) |} Hp) as [Hp' Hn'].
    split; [done|]. cbn [world] in Hn'. unfold elapse in *.
    eapply Qle_trans; [|exact Hn']. lra.
Qed.

Lemma dispatch_config address limit name address' source_type config :
  dispatch address limit name = Some (address', source_type, config) ->
  validators_url address = true
  /\ route address = Ok (address', Some source_type)
  /\ html_can_handle address' = true
  /\ (1 <= limit)%Z
  /\ config = {| url := address'; name := PyStr.or_else name address';
                 cfg_source_type := Some source_type; max_items := limit;
                 enabled := true; use_dynamic_rendering := false |}.
Proof.
  unfold dispatch. destruct (validators_url address); [|done].
  destruct (route address) as [[u [st|]]|]; [|done..].
  destruct (make_SourceConfig _ _ _ _) as [cfg|] eqn:Hcfg; [|done].
  intros [= <- <- <-]. unfold make_SourceConfig, html_can_handle in *.
  destruct (PyStr.truthy u); cbn [negb orb] in Hcfg; [|done].
  destruct (PyStr.startswith u "http://" || PyStr.startswith u "https://");
    cbn [negb] in Hcfg; [|done].
  destruct (limit <? 1)%Z eqn:Hlimit; [done|]. apply Z.ltb_ge in Hlimit.
  by injection Hcfg as <-.
Qed.

(** A call of [scrape_url] ends in one of three ways. *)
Lemma scrape_url_cases address limit name :
  validators_url address = false
  \/ aborts address limit name = true
  \/ exists address' source_type config,
       dispatch address limit name = Some (address', source_type, config).
Proof.
  destruct (validators_url address) eqn:Hvalid; [|by left].
  right. destruct (aborts address limit name) eqn:Habort; [by left|right].
  destruct (not_aborts_dispatch _ _ _ Hvalid Habort) as [[[u st] cfg] Hd].
  eauto.
Qed.

Lemma normalized_length address name source_type current outcome :
  length (normalized address name source_type current outcome)
  = match outcome with Ok items => length items | Raise _ => 0 end.
Proof. destruct outcome; cbn; [apply length_map|done]. Qed.

Lemma strategy_capacity source_type config limit :
  max_items config = limit -> (1 <= limit)%Z ->
  (Z.of_nat (capacity (strategy source_type) config) <= limit)%Z.
Proof.
  intros Hmax Hlimit. destruct source_type; vm_compute strategy;
    cbn [capacity]; lia.
Qed.

Lemma scrape_url_length address limit name s records :
  fst (scrape_url address limit name s) = Ok records ->
  (Z.of_nat (length records) <= Z.max 0 limit)%Z.
Proof.
  destruct (scrape_url_cases address limit name)
    as [Hrefused|[Habort|(u & st & cfg & Hd)]].
  - rewrite scrape_url_refused by done. intros [= <-]. cbn. lia.
  - destruct (scrape_url_aborts _ _ _ s Habort) as [e ->]. done.
  - rewrite (scrape_url_dispatch _ _ _ _ _ _ _ Hd). cbn [fst].
    intros [= <-]. rewrite normalized_length.
    apply dispatch_config in Hd as (_ & _ & _ & Hlimit & ->).
    destruct (extract _ _) as [items|e] eqn:Hextract; [|lia].
    apply extract_items_shape in Hextract as [Hlen _].
    pose proof (strategy_capacity st
                  {| url := u; name := PyStr.or_else name u;
                     cfg_source_type := Some st; max_items := limit;
                     enabled := true; use_dynamic_rendering := false |}
                  limit eq_refl Hlimit).
    lia.
Qed.

Lemma concat_results_length urls limit s records :
  fst (concat_results urls limit s) = Ok records ->
  (Z.of_nat (length records) <= Z.max 0 limit * Z.of_nat (length urls))%Z.
Proof.
  revert s records. induction urls as [|u urls IH]; intros s records.
  - cbn. intros [= <-]. cbn. lia.
  - cbn [concat_results].
    destruct (scrape_url u limit EmptyString s) as [[results|e] s'] eqn:Hu;
      [|done].
    destruct (concat_results urls limit s') as [[more|e] s''] eqn:Hrest;
      [|done].
    cbn [fst]. intros [= <-].
    pose proof (scrape_url_length u limit EmptyString s results) as Hone.
    rewrite Hu in Hone. specialize (Hone eq_refl).
    pose proof (IH s' more) as Hmore. rewrite Hrest in Hmore.
    specialize (Hmore eq_refl).
    rewrite length_app. cbn [length]. lia.
Qed.

Lemma concat_results_app urls1 urls2 limit s :
  concat_results (urls1 ++ urls2) limit s
  = match concat_results urls1 limit s with
    | (Ok first, s1) =>
        match concat_results urls2 limit s1 with
        | (Ok second, s2) => (Ok (first ++ second), s2)
        | (Raise e, s2) => (Raise e, s2)
        end
    | (Raise e, s1) => (Raise e, s1)
    end.
Proof.
  revert s. induction urls1 as [|u urls1 IH]; intros s.
  - cbn. by destruct (concat_results urls2 limit s) as [[second|e] s2].
  - cbn [app concat_results].
    destruct (scrape_url u limit EmptyString s) as [[results|e] s']; [|done].
    rewrite IH.
    destruct (concat_results urls1 limit s') as [[first|e] s1]; [|done].
    destruct (concat_results urls2 limit s1) as [[second|e] s2]; [|done].
    by rewrite app_assoc.
Qed.

Lemma scrape_all_as_concat urls limit s :
  scrape_all urls limit s = concat_results (List.filter not_blank urls) limit s.
Proof.
  unfold scrape_all. rewrite scrape_all_loop_concat.
  by destruct (concat_results _ limit s) as [[results|e] s'].
Qed.

End ScraperMore.

(** X12.  [scrape_url] never returns more than [limit] records, and
    [scrape_all] never more than [limit] records for each URL. *)
Theorem scrape_record_count `{Platform} limit s :
  (forall address name records,
     fst (scrape_url address limit name s) = Ok records ->
     (Z.of_nat (length records) <= Z.max 0 limit)%Z)
  /\ (forall urls records,
        fst (scrape_all urls limit s) = Ok records ->
        (Z.of_nat (length records)
         <= Z.max 0 limit * Z.of_nat (length urls))%Z).
Proof.
  split.
  - intros address name records. apply scrape_url_length.
  - intros urls records. rewrite scrape_all_as_concat. intros Hrecords.
    apply concat_results_length in Hrecords.
    pose proof (List.filter_length_le not_blank urls). nia.
Qed.

Lemma scrape_record_count_witness :
  (Z.of_nat (length (@batch_records small_web three_urls 2 start_state))
   <= Z.max 0 2 * Z.of_nat (length three_urls))%Z.
Proof.
  apply (proj2 (@scrape_record_count small_web 2 start_state) three_urls).
  reflexivity.
Defined.

(** X13.  A configuration that [SourceConfig] refuses is not caught:
    for every accepted URL that the rewrite rules give a source type,
    [scrape_url] raises [ValueError] when [limit] is below 1 or when the
    URL to scrape has neither [http://] nor [https://] in front.  By
    then the detector, where it is asked, has made its requests and
    they have taken their time; the rate limiter has not been touched. *)
Theorem scrape_url_invalid_config `{Platform} address limit name s
    address' source_type :
  validators_url address = true ->
  route address = Ok (address', Some source_type) ->
  (limit < 1)%Z \/ html_can_handle address' = false ->
  exists message,
    scrape_url address limit name s
    = (Raise (Exn ValueError message), probed address s)
    /\ rate_limiter (probed address s) = rate_limiter s
    /\ (punctual (world s) ->
        (now (world s) <= now (world (probed address s)))%Q)
    /\ (probes address = [] -> probed address s = s).
Proof.
  intros Hvalid Hroute Hbad.
  assert (exists message,
            scrape_url address limit name s
            = (Raise (Exn ValueError message), probed address s))
    as [message Hraise].
  { unfold scrape_url. rewrite Hvalid, Hroute.
    cbn [negb]. unfold make_SourceConfig, html_can_handle in *.
    destruct (negb (PyStr.truthy address')
              || negb (PyStr.startswith address' "http://"
                       || PyStr.startswith address' "https://")) eqn:Hurl;
      [eauto|].
    destruct Hbad as [Hlimit|Hscheme].
    - apply Z.ltb_lt in Hlimit. rewrite Hlimit. eauto.
    - rewrite Hscheme in Hurl. by rewrite orb_true_r in Hurl. }
  exists message. split; [done|]. split; [apply probed_rate_limiter|].
  split.
  - intros Hw. by apply probed_clock.
  - intros Hnone. unfold probed. by rewrite Hnone.
Qed.

Lemma scrape_url_invalid_config_witness :
  @probes small_web "https://www.example.com/article"
  = [HEAD "https://www.example.com/article";
     GET "https://www.example.com/article"]
  /\ exists message,
       @scrape_url small_web "https://www.example.com/article" 0 EmptyString
         start_state
       = (Raise (Exn ValueError message),
          @probed small_web "https://www.example.com/article" start_state)
       /\ rate_limiter
            (@probed small_web "https://www.example.com/article" start_state)
          = rate_limiter start_state
       /\ (punctual (world start_state) ->
           (now (world start_state)
              <= now (world (@probed small_web
                               "https://www.example.com/article"
                               start_state)))%Q)
       /\ (@probes small_web "https://www.example.com/article" = [] ->
           @probed small_web "https://www.example.com/article" start_state
           = start_state).
Proof.
  split; [reflexivity|].
  apply (@scrape_url_invalid_config small_web
           "https://www.example.com/article" 0 EmptyString start_state
           "https://www.example.com/article" STATIC_HTML);
    [reflexivity|reflexivity|left; lia].
Defined.

Section RecordSources.
Context `{Platform}.

Lemma to_record_named address name source_type current item :
  PyStr.truthy name = true ->
  r_source (to_record address name source_type current item)
  = if String.eqb name (value source_type) then get_domain_name address
    else name.
Proof.
  intros Hname. unfold to_record. cbn [r_source]. rewrite Hname.
  unfold present. rewrite Hname. cbn [negb orb from_option id].
  by destruct (String.eqb name (value source_type)).
Qed.

Lemma to_record_unnamed address source_type current item m :
  metadata item !! "source_name" = Some m ->
  PyStr.truthy m = true ->
  r_source (to_record address EmptyString source_type current item)
  = if String.eqb m (value source_type) then get_domain_name address else m.
Proof.
  intros Hmeta Hm. unfold to_record. cbn [r_source PyStr.truthy].
  rewrite Hmeta. unfold present. rewrite Hm. cbn [negb orb from_option id].
  by destruct (String.eqb m (value source_type)).
Qed.

End RecordSources.

(** X14.  When [scrape_url] reaches a strategy it returns, and all its
    records name the same source: the caller's name when one is given,
    and otherwise the URL that was requested, after the rewrite, in
    full.  The bare domain of the URL appears only when the caller's name
    is the tag of the detected source type.  With a page strategy the
    link of each record is the requested URL too. *)
Theorem scrape_url_record_sources `{Platform} address limit name s
    address' source_type config :
  dispatch address limit name = Some (address', source_type, config) ->
  exists records,
    scrape_url address limit name s = (Ok records, after_request address' s)
    /\ Forall (fun r =>
                 r_source r
                 = if String.eqb name (value source_type)
                   then get_domain_name address'
                   else PyStr.or_else name address')
              records
    /\ (strategy source_type <> RSSExtractor ->
        Forall (fun r => r_link r = address') records).
Proof.
  intros Hd. eexists. split; [by apply scrape_url_dispatch|].
  pose proof (dispatch_config _ _ _ _ _ _ Hd) as (_ & _ & Hhttp & _ & Hcfg).
  destruct (extract (strategy source_type) config) as [items|e] eqn:Hextract;
    cbn [normalized]; [|by split; intros; constructor].
  apply extract_items_shape in Hextract as [_ Hitems].
  split.
  - apply Forall_map. eapply Forall_impl; [exact Hitems|].
    intros item (Hmeta & _). cbn beta.
    destruct name as [|c name'].
    + rewrite (to_record_unnamed _ _ _ _ address').
      * rewrite (http_url_not_tag _ _ Hhttp).
        by destruct source_type.
      * rewrite Hmeta, Hcfg. cbn [name PyStr.or_else PyStr.truthy].
        apply lookup_singleton_eq.
      * by apply http_url_truthy.
    + by rewrite to_record_named.
  - intros Hpage. apply Forall_map. eapply Forall_impl; [exact Hitems|].
    intros item (_ & Hurl). cbn. rewrite Hurl by done. by rewrite Hcfg.
Qed.

Lemma scrape_url_record_sources_witness :
  exists records,
    @scrape_url small_web "https://reddit.com/r/test/" 2 EmptyString
      start_state
    = (Ok records,
       @after_request small_web "https://reddit.com/r/test.rss" start_state)
    /\ Forall (fun r =>
                 r_source r
                 = if String.eqb EmptyString (value RSS_FEED)
                   then @get_domain_name small_web
                          "https://reddit.com/r/test.rss"
                   else PyStr.or_else EmptyString
                          "https://reddit.com/r/test.rss")
              records
    /\ (strategy RSS_FEED <> RSSExtractor ->
        Forall (fun r => r_link r = "https://reddit.com/r/test.rss") records).
Proof.
  apply (@scrape_url_record_sources small_web "https://reddit.com/r/test/" 2
           EmptyString start_state "https://reddit.com/r/test.rss" RSS_FEED
           {| url := "https://reddit.com/r/test.rss";
              name := "https://reddit.com/r/test.rss";
              cfg_source_type := Some RSS_FEED; max_items := 2;
              enabled := true; use_dynamic_rendering := false |}).
  reflexivity.
Defined.

(** ** Orchestrator: batches and the rate limiter *)

Section BatchFacts.
Context `{Platform}.

Lemma concat_results_passed_over urls limit s :
  concat_results (List.filter not_blank urls) limit s
  = concat_results
      (List.filter not_blank
         (List.filter (fun u => negb (passed_over u)) urls)) limit s.
Proof.
  revert s. induction urls as [|u urls IH]; intros s; [done|].
  cbn [List.filter]. unfold passed_over at 1.
  destruct (not_blank u) eqn:Hblank; cbn [negb orb].
  - destruct (validators_url u) eqn:Hvalid; cbn [negb List.filter].
    + rewrite Hblank. cbn [concat_results].
      destruct (scrape_url u limit EmptyString s) as [[results|e] s']; [|done].
      by rewrite IH.
    + cbn [concat_results]. rewrite scrape_url_refused by done.
      rewrite IH.
      by destruct (concat_results _ limit s) as [[more|e] s'].
  - apply IH.
Qed.

(** What a call of [scrape_url] does to the scraper. *)
Lemma scrape_url_state address limit name s :
  punctual (world s) ->
  let s' := snd (scrape_url address limit name s) in
  punctual (world s')
  /\ (now (world s) <= now (world s'))%Q
  /\ min_delay (rate_limiter s') = min_delay (rate_limiter s)
  /\ default_delay (rate_limiter s') = default_delay (rate_limiter s)
  /\ forall domain,
       elsewhere domain (address, limit, name) = true ->
       last_request (rate_limiter s') !! domain
       = last_request (rate_limiter s) !! domain.
Proof.
  intros Hw. cbn zeta.
  destruct (scrape_url_cases address limit name)
    as [Hrefused|[Habort|(u & st & cfg & Hd)]].
  - rewrite scrape_url_refused by done. cbn [snd]. repeat split; try done. lra.
  - destruct (scrape_url_aborts _ _ _ s Habort) as [e ->]. cbn [snd].
    destruct (probed_clock address s Hw) as [Hp Hn].
    rewrite probed_rate_limiter. repeat split; done.
  - rewrite (scrape_url_dispatch _ _ _ _ _ _ _ Hd). cbn [snd].
    unfold after_request, elsewhere. rewrite Hd. cbv zeta.
    destruct (probed_clock u s Hw) as [Hp0 Hn0].
    destruct (wait_facts u None (rate_limiter (probed u s))
                (world (probed u s)) Hp0)
      as (Hp & Hn & Hm & Hdd & Hl & _).
    destruct (wait u None (rate_limiter (probed u s)) (world (probed u s)))
      as [rl w].
    cbn [fst snd rate_limiter world] in *.
    rewrite probed_rate_limiter in Hm, Hdd, Hl.
    pose proof (advance_now 0 w Hp). unfold elapse.
    split; [by apply advance_punctual|]. split; [lra|].
    split; [done|]. split; [done|].
    intros domain Hne. rewrite Hl. apply lookup_insert_ne.
    intros Heq. rewrite Heq, String.eqb_refl in Hne. done.
Qed.

Lemma scrape_calls_state domain calls s :
  punctual (world s) ->
  Forall (fun c => elsewhere domain c = true) calls ->
  let s' := scrape_calls calls s in
  punctual (world s')
  /\ (now (world s) <= now (world s'))%Q
  /\ min_delay (rate_limiter s') = min_delay (rate_limiter s)
  /\ default_delay (rate_limiter s') = default_delay (rate_limiter s)
  /\ last_request (rate_limiter s') !! domain
     = last_request (rate_limiter s) !! domain.
Proof.
  revert s. induction calls as [|[[a l] n] calls IH]; intros s Hw Hall.
  - cbn. repeat split; try done. lra.
  - apply Forall_cons in Hall as [Hc Hall].
    destruct (scrape_url_state a l n s Hw) as (Hp & Hn & Hm & Hd & Hl).
    specialize (Hl domain Hc).
    unfold scrape_calls. cbn [fold_left].
    destruct (IH (snd (scrape_url a l n s)) Hp Hall)
      as (Hp' & Hn' & Hm' & Hd' & Hl').
    unfold scrape_calls in *.
    repeat split; try done; [lra|congruence..].
Qed.

(** A call that reaches a strategy stores, as the time of the host, the
    reading of the clock at which the rate limiter let it through. *)
Lemma scrape_url_grant address limit name s address' source_type config :
  punctual (world s) ->
  dispatch address limit name = Some (address', source_type, config) ->
  let s' := snd (scrape_url address limit name s) in
  let t := granted_at address' s in
  last_request (rate_limiter s') !! extract_domain address' = Some t
  /\ (now (world s) <= t)%Q
  /\ (t <= now (world s'))%Q
  /\ forall t0,
       last_request (rate_limiter s) !! extract_domain address' = Some t0 ->
       (t0 + required_delay (rate_limiter s) None <= t)%Q.
Proof.
  intros Hw Hd. cbn zeta.
  rewrite (scrape_url_dispatch _ _ _ _ _ _ _ Hd). cbn [snd].
  unfold after_request, granted_at. cbv zeta.
  destruct (probed_clock address' s Hw) as [Hp0 Hn0].
  destruct (wait_facts address' None (rate_limiter (probed address' s))
              (world (probed address' s)) Hp0)
    as (Hp & Hn & Hm & Hdd & Hl & Hearlier).
  destruct (wait address' None (rate_limiter (probed address' s))
              (world (probed address' s))) as [rl w].
  cbn [fst snd rate_limiter world] in *.
  rewrite probed_rate_limiter in Hm, Hdd, Hl, Hearlier.
  pose proof (advance_now 0 w Hp). unfold elapse.
  split; [rewrite Hl; apply lookup_insert_eq|].
  split; [lra|]. split; [lra|].
  intros t0 Ht0. by apply Hearlier.
Qed.

End BatchFacts.

(** X15.  A batch can be cut anywhere: [scrape_all] over two lists in a
    row is [scrape_all] over the first and then, from the state the
    first left, over the second, with the records joined in that order.
    An exception in the first part ends the batch there: the URLs of
    the second part are not requested and the records of the first part
    are lost. *)
Theorem scrape_all_app `{Platform} urls1 urls2 limit s :
  scrape_all (urls1 ++ urls2) limit s
  = match scrape_all urls1 limit s with
    | (Ok first, s1) =>
        match scrape_all urls2 limit s1 with
        | (Ok second, s2) => (Ok (first ++ second), s2)
        | (Raise e, s2) => (Raise e, s2)
        end
    | (Raise e, s1) => (Raise e, s1)
    end.
Proof.
  rewrite !scrape_all_as_concat, List.filter_app, concat_results_app.
  destruct (concat_results (List.filter not_blank urls1) limit s)
    as [[first|e] s1]; [|done].
  by rewrite scrape_all_as_concat.
Qed.

(** X16.  Blank URLs and URLs that [validators.url] refuses count for
    nothing in a batch: with or without them [scrape_all] returns the
    same records and leaves the same state, and a batch of such URLs
    only returns no record and leaves the rate limiter and the clock as
    they were. *)
Theorem scrape_all_passed_over `{Platform} urls limit s :
  scrape_all urls limit s
  = scrape_all (List.filter (fun u => negb (passed_over u)) urls) limit s
  /\ (Forall (fun u => passed_over u = true) urls ->
      scrape_all urls limit s = (Ok [], s)).
Proof.
  assert (scrape_all urls limit s
          = scrape_all (List.filter (fun u => negb (passed_over u)) urls)
              limit s) as Hskip.
  { rewrite !scrape_all_as_concat. apply concat_results_passed_over. }
  split; [done|].
  intros Hall. rewrite Hskip.
  assert (List.filter (fun u => negb (passed_over u)) urls = []) as ->;
    [|done].
  clear Hskip. induction Hall as [|u urls Hu _ IH]; [done|].
  cbn [List.filter]. rewrite Hu. exact IH.
Qed.

Lemma scrape_all_passed_over_witness :
  @scrape_all small_web [ "   "; "not a url"; EmptyString ] 5 start_state
  = (Ok [], start_state).
Proof.
  apply (proj2 (@scrape_all_passed_over small_web
                  [ "   "; "not a url"; EmptyString ] 5 start_state)).
  repeat constructor.
Defined.

(** X17.  Two calls of [scrape_url] that reach a strategy on the same
    host (the host of the URL after the rewrite) are let through by the
    rate limiter at readings of the clock that lie at least the required
    delay apart, whatever calls come between them for other hosts or
    end before the rate limiter: refused URLs and calls that raise do
    not count as requests.  The time stored for the host is each time
    that reading; it lies between the readings at the start and at the
    end of the call.  No call changes the delays of the limiter, and
    for the limiter [UniversalScraper] sets up the required delay is
    three seconds. *)
Theorem scrape_url_spacing `{Platform} s a1 l1 n1 between a2 l2 n2
    address1 type1 config1 address2 type2 config2 :
  punctual (world s) ->
  dispatch a1 l1 n1 = Some (address1, type1, config1) ->
  dispatch a2 l2 n2 = Some (address2, type2, config2) ->
  extract_domain address2 = extract_domain address1 ->
  Forall (fun c => elsewhere (extract_domain address1) c = true) between ->
  let s1 := scrape_calls [(a1, l1, n1)] s in
  let s2 := scrape_calls ([(a1, l1, n1)] ++ between) s in
  let s3 := scrape_calls ([(a1, l1, n1)] ++ between ++ [(a2, l2, n2)]) s in
  let t1 := granted_at address1 s in
  let t2 := granted_at address2 s2 in
  (last_request (rate_limiter s1) !! extract_domain address1 = Some t1
   /\ last_request (rate_limiter s3) !! extract_domain address1 = Some t2
   /\ (now (world s) <= t1)%Q /\ (t1 <= now (world s1))%Q
   /\ (now (world s2) <= t2)%Q /\ (t2 <= now (world s3))%Q
   /\ (t1 + required_delay (rate_limiter s) None <= t2)%Q)
  /\ required_delay (rate_limiter s3) None
     = required_delay (rate_limiter s) None
  /\ forall w,
       (required_delay (rate_limiter (UniversalScraper_init w)) None == 3)%Q.
Proof.
  intros Hw Hd1 Hd2 Hsame Hbetween s1 s2 s3 t1 t2.
  assert (s1 = snd (scrape_url a1 l1 n1 s)) as Hs1 by done.
  assert (s2 = scrape_calls between s1) as Hs2.
  { unfold s2, s1, scrape_calls. by rewrite fold_left_app. }
  assert (s3 = snd (scrape_url a2 l2 n2 s2)) as Hs3.
  { unfold s3, s2, scrape_calls. by rewrite app_assoc, fold_left_app. }
  destruct (scrape_url_state a1 l1 n1 s Hw) as (Hp1 & _ & Hm1 & Hdd1 & _).
  rewrite <- Hs1 in Hp1, Hm1, Hdd1.
  destruct (scrape_calls_state (extract_domain address1) between s1 Hp1
              Hbetween) as (Hp2 & _ & Hm2 & Hdd2 & Hl2).
  rewrite <- Hs2 in Hp2, Hm2, Hdd2, Hl2.
  destruct (scrape_url_state a2 l2 n2 s2 Hp2) as (_ & _ & Hm3 & Hdd3 & _).
  rewrite <- Hs3 in Hm3, Hdd3.
  destruct (scrape_url_grant a1 l1 n1 s _ _ _ Hw Hd1)
    as (Ht1 & Hstart1 & Hend1 & _).
  destruct (scrape_url_grant a2 l2 n2 s2 _ _ _ Hp2 Hd2)
    as (Ht2 & Hstart2 & Hend2 & Hlater).
  rewrite <- Hs1 in Ht1, Hend1. rewrite <- Hs3 in Ht2, Hend2.
  rewrite Hsame in Ht2, Hlater. rewrite Hl2 in Hlater.
  specialize (Hlater _ Ht1).
  rewrite (required_delay_config (rate_limiter s) (rate_limiter s2) None)
    in Hlater by congruence.
  split; [|split].
  - repeat split; done.
  - apply required_delay_config; congruence.
  - intros w. vm_compute. done.
Qed.

Lemma scrape_url_spacing_witness :
  let s1 :=
    @scrape_calls small_web [("https://reddit.com/r/test/", 2%Z, EmptyString)]
      start_state in
  let s2 :=
    @scrape_calls small_web
      ([("https://reddit.com/r/test/", 2%Z, EmptyString)]
       ++ [("https://www.example.com/article", 2%Z, EmptyString);
           ("not a url", 2%Z, EmptyString)]) start_state in
  let s3 :=
    @scrape_calls small_web
      ([("https://reddit.com/r/test/", 2%Z, EmptyString)]
       ++ [("https://www.example.com/article", 2%Z, EmptyString);
           ("not a url", 2%Z, EmptyString)]
       ++ [("https://reddit.com/r/other/", 5%Z, "Other")]) start_state in
  let t1 := @granted_at small_web "https://reddit.com/r/test.rss" start_state in
  let t2 := @granted_at small_web "https://reddit.com/r/other.rss" s2 in
  (last_request (rate_limiter s1)
     !! @extract_domain small_web "https://reddit.com/r/test.rss" = Some t1
   /\ last_request (rate_limiter s3)
        !! @extract_domain small_web "https://reddit.com/r/test.rss"
      = Some t2
   /\ (now (world start_state) <= t1)%Q /\ (t1 <= now (world s1))%Q
   /\ (now (world s2) <= t2)%Q /\ (t2 <= now (world s3))%Q
   /\ (t1 + required_delay (rate_limiter start_state) None <= t2)%Q)
  /\ required_delay (rate_limiter s3) None
     = required_delay (rate_limiter start_state) None
  /\ forall w,
       (required_delay (rate_limiter (UniversalScraper_init w)) None == 3)%Q.
Proof.
  apply (@scrape_url_spacing small_web start_state
           "https://reddit.com/r/test/" 2%Z EmptyString
           [("https://www.example.com/article", 2%Z, EmptyString);
            ("not a url", 2%Z, EmptyString)]
           "https://reddit.com/r/other/" 5%Z "Other"
           "https://reddit.com/r/test.rss" RSS_FEED
           {| url := "https://reddit.com/r/test.rss";
              name := "https://reddit.com/r/test.rss";
              cfg_source_type := Some RSS_FEED; max_items := 2;
              enabled := true; use_dynamic_rendering := false |}
           "https://reddit.com/r/other.rss" RSS_FEED
           {| url := "https://reddit.com/r/other.rss"; name := "Other";
              cfg_source_type := Some RSS_FEED; max_items := 5;
              enabled := true; use_dynamic_rendering := false |}).
  - constructor.
  - reflexivity.
  - reflexivity.
  - reflexivity.
  - repeat constructor.
Defined.

(** ** The command line *)

Section StripFacts.

Lemma lstrip_by_fixed p c t :
  p c = false -> PyStr.lstrip_by p (String c t) = String c t.
Proof. intros Hc. cbn. by rewrite Hc. Qed.

Lemma lstrip_by_head p s :
  PyStr.lstrip_by p s = EmptyString
  \/ exists c t, PyStr.lstrip_by p s = String c t /\ p c = false.
Proof.
  induction s as [|d s IH]; [by left|]. cbn.
  destruct (p d) eqn:Hd; [done|]. right. by exists d, s.
Qed.

Lemma lstrip_by_last p s c :
  p c = false ->
  exists x,
    PyStr.lstrip_by p (s +:+ String c EmptyString) = x +:+ String c EmptyString
    /\ PyStr.lstrip_by p (x +:+ String c EmptyString)
       = x +:+ String c EmptyString.
Proof.
  intros Hc. induction s as [|d s IH].
  - exists EmptyString. change (EmptyString +:+ String c EmptyString)
      with (String c EmptyString). by rewrite lstrip_by_fixed.
  - rewrite append_cons. cbn [PyStr.lstrip_by].
    destruct (p d) eqn:Hd; [done|].
    exists (String d s). rewrite append_cons. by rewrite lstrip_by_fixed.
Qed.

(** Stripping a stripped string changes nothing. *)
Lemma strip_by_idempotent p s :
  PyStr.rstrip_by p (PyStr.lstrip_by p
    (PyStr.rstrip_by p (PyStr.lstrip_by p s)))
  = PyStr.rstrip_by p (PyStr.lstrip_by p s).
Proof.
  destruct (lstrip_by_head p s) as [->|(c & t & -> & Hc)]; [done|].
  unfold PyStr.rstrip_by at 2 3. rewrite rev_cons.
  destruct (lstrip_by_last p (String.rev t) c Hc) as (x & -> & Hx).
  rewrite rev_append.
  change (String.rev (String c EmptyString) +:+ String.rev x)
    with (String c (String.rev x)).
  rewrite lstrip_by_fixed by done.
  unfold PyStr.rstrip_by. rewrite rev_cons, rev_involutive, Hx, rev_append.
  done.
Qed.

Lemma strip_idempotent s : PyStr.strip (PyStr.strip s) = PyStr.strip s.
Proof. apply strip_by_idempotent. Qed.

End StripFacts.

Section CliFacts.
Variable int_of_str : string -> option Z.
Variable str_upper : string -> string.

Lemma input_Ok stdin line rest :
  input stdin = Ok (line, rest) -> stdin = line :: rest.
Proof. destruct stdin; [done|]. by intros [= -> ->]. Qed.

Lemma read_urls_spec n acc stdin urls rest :
  read_urls n acc stdin = Ok (urls, rest) ->
  urls = acc ++ List.filter PyStr.truthy (map PyStr.strip (take n stdin))
  /\ length stdin = n + length rest.
Proof.
  revert acc stdin. induction n as [|n IH]; intros acc stdin.
  - cbn. intros [= -> ->]. by rewrite app_nil_r.
  - cbn [read_urls]. destruct stdin as [|line stdin]; [done|].
    cbn [input mbind result_bind bind]. intros Hrest.
    apply IH in Hrest as [-> Hlen]. cbn [take map List.filter length].
    split; [|lia].
    destruct (PyStr.truthy (PyStr.strip line)); [|done].
    by rewrite <- app_assoc.
Qed.

Lemma read_count_range stdin count rest :
  read_count int_of_str stdin = Ok (count, rest) ->
  (1 <= count <= 1000)%Z /\ length stdin = 1 + length rest
  /\ rest = drop 1 stdin.
Proof.
  unfold read_count. destruct stdin as [|line stdin]; [done|].
  cbn [input mbind result_bind bind]. intros [= <- <-].
  split; [|by rewrite skipn_cons, drop_0].
  destruct (PyStr.truthy _); [|lia].
  destruct (int_of_str _) as [count|]; [|lia].
  destruct (count <? 1)%Z eqn:Hlow; cbn [orb]; [lia|].
  destruct (1000 <? count)%Z eqn:Hhigh; lia.
Qed.

End CliFacts.

(** X18.  Whatever is typed, [get_cli_inputs] asks for a number of URLs
    between 1 and 1000, reads one line for the count, one for each URL
    and two more, and returns a list of URLs that is never empty: the
    answers, stripped, without the blank ones and in the order given,
    or the three standard feeds when every answer was blank.  Every
    URL returned is stripped and not blank. *)
Theorem get_cli_inputs_contract int_of_str str_upper stdin urls limit
    sync_sheets rest :
  get_cli_inputs int_of_str str_upper stdin
    = Ok (urls, limit, sync_sheets, rest) ->
  exists count,
    1 <= count <= 1000
    /\ length stdin = count + 3 + length rest
    /\ (let answers :=
          List.filter PyStr.truthy
            (map PyStr.strip (take count (drop 1 stdin))) in
        urls = match answers with [] => standard_feeds | _ :: _ => answers end)
    /\ urls <> []
    /\ length urls <= 1000
    /\ Forall (fun u => PyStr.strip u = u /\ not_blank u = true) urls.
Proof.
  unfold get_cli_inputs.
  destruct (read_count int_of_str stdin) as [[count stdin1]|] eqn:Hcount;
    [|done].
  apply read_count_range in Hcount as (Hrange & Hlen1 & Hdrop).
  cbn [mbind result_bind bind].
  destruct (read_urls (Z.to_nat count) [] stdin1) as [[answers stdin2]|]
    eqn:Hurls; [|done].
  apply read_urls_spec in Hurls as [Hanswers Hlen2].
  cbn [mbind result_bind bind]. unfold read_limit.
  destruct stdin2 as [|line3 stdin3]; [done|].
  cbn [input mbind result_bind bind].
  destruct stdin3 as [|line4 stdin4]; [done|].
  cbn [input mbind result_bind bind]. intros [= <- _ _ <-].
  cbn [length] in Hlen2.
  subst stdin1.
  cbn [app] in Hanswers.
  exists (Z.to_nat count). split; [lia|]. split; [lia|].
  split; [by rewrite Hanswers|].
  assert (length answers <= Z.to_nat count) as Hshort.
  { rewrite Hanswers.
    etransitivity; [apply List.filter_length_le|].
    rewrite length_map, length_take. lia. }
  assert (Forall (fun u => PyStr.strip u = u /\ not_blank u = true) answers)
    as Hstripped.
  { rewrite Hanswers. apply Forall_forall. intros u Hu.
    apply list_elem_of_In, List.filter_In in Hu as [Hu Htruthy].
    apply List.in_map_iff in Hu as (line & <- & _).
    unfold not_blank. by rewrite strip_idempotent. }
  destruct answers as [|u answers].
  - split; [done|]. split; [cbn; lia|]. by repeat constructor.
  - split; [done|]. split; [lia|]. done.
Qed.

Lemma get_cli_inputs_contract_witness :
  exists count,
    1 <= count <= 1000
    /\ length [ "2000"; "  https://a.com/feed "; "   "; "not a url"; "0"; "y" ]
       = count + 3 + length ([] : list string)
    /\ (let answers :=
          List.filter PyStr.truthy
            (map PyStr.strip
               (take count
                  (drop 1 [ "2000"; "  https://a.com/feed "; "   ";
                            "not a url"; "0"; "y" ]))) in
        [ "https://a.com/feed"; "not a url" ]
        = match answers with [] => standard_feeds | _ :: _ => answers end)
    /\ [ "https://a.com/feed"; "not a url" ] <> []
    /\ length [ "https://a.com/feed"; "not a url" ] <= 1000
    /\ Forall (fun u => PyStr.strip u = u /\ not_blank u = true)
         [ "https://a.com/feed"; "not a url" ].
Proof.
  apply (get_cli_inputs_contract decimal upper_ascii
           [ "2000"; "  https://a.com/feed "; "   "; "not a url"; "0"; "y" ]
           [ "https://a.com/feed"; "not a url" ] 0%Z true []).
  reflexivity.
Defined.

(** ** The loop of [main] *)

Section MainFacts.
Context `{Platform}.

Lemma main_loop_acc urls limit news failed s :
  main_loop urls limit news failed s
  = (news ++ (main_loop urls limit [] [] s).1.1,
     failed ++ (main_loop urls limit [] [] s).1.2,
     (main_loop urls limit [] [] s).2).
Proof.
  revert news failed s. induction urls as [|u urls IH]; intros news failed s.
  - cbn. by rewrite !app_nil_r.
  - cbn [main_loop].
    destruct (scrape_url u limit EmptyString s) as [[[|r results]|e] s'].
    + rewrite (IH news (failed ++ [u])), (IH [] ([] ++ [u])).
      cbn [fst snd]. by rewrite <- app_assoc.
    + rewrite (IH (news ++ _) failed), (IH ([] ++ _) []).
      cbn [fst snd]. by rewrite <- app_assoc.
    + rewrite (IH news (failed ++ [u])), (IH [] ([] ++ [u])).
      cbn [fst snd]. by rewrite <- app_assoc.
Qed.

(** With a limit below 1 a call of [scrape_url] gives no record and
    leaves the scraper as it was. *)
Lemma scrape_url_low_limit address limit name s :
  (limit < 1)%Z ->
  validators_url address = false
  /\ scrape_url address limit name s = (Ok [], s)
  \/ validators_url address = true
     /\ exists e, scrape_url address limit name s = (Raise e, probed address s).
Proof.
  intros Hlimit.
  destruct (scrape_url_cases address limit name)
    as [Hrefused|[Habort|(u & st & cfg & Hd)]].
  - left. split; [done|]. by apply scrape_url_refused.
  - right. split; [|by apply scrape_url_aborts].
    unfold aborts in Habort. by destruct (validators_url address).
  - apply dispatch_config in Hd as (_ & _ & _ & Hlow & _). lia.
Qed.

Lemma surveyed_rate_limiter urls s :
  rate_limiter (surveyed urls s) = rate_limiter s.
Proof.
  revert s. induction urls as [|u urls IH]; intros s; [done|].
  unfold surveyed in *. cbn [fold_left]. rewrite IH.
  destruct (validators_url u); [apply probed_rate_limiter|done].
Qed.

Lemma main_loop_shape urls limit s :
  let out := main_loop urls limit [] [] s in
  sublist out.1.2 urls
  /\ (Z.of_nat (length out.1.1)
      <= Z.max 0 limit * Z.of_nat (length urls - length out.1.2))%Z
  /\ length urls <= length out.1.1 + length out.1.2
  /\ length out.1.2 <= length urls
  /\ Forall (fun row => length row = 5) out.1.1.
Proof.
  cbn zeta. revert s. induction urls as [|u urls IH]; intros s.
  - cbn. repeat split; try done; lia.
  - cbn [main_loop].
    pose proof (scrape_url_length u limit EmptyString s) as Hone.
    destruct (scrape_url u limit EmptyString s) as [[[|r results]|e] s'];
      rewrite main_loop_acc; cbn [fst snd length];
      destruct (IH s') as (Hsub & Hcount & Hall & Hfew & Hrows);
      rewrite ?length_app, ?length_map; cbn [length app].
    + repeat split; [by apply sublist_skip|nia|lia|lia|done].
    + specialize (Hone _ eq_refl). cbn [length fst] in Hone.
      repeat split; [by apply sublist_cons|nia|lia|lia|].
      apply Forall_app. split; [|done].
      apply Forall_map, Forall_forall. done.
    + repeat split; [by apply sublist_skip|nia|lia|lia|done].
Qed.

Lemma main_loop_concat urls limit s records s' :
  concat_results urls limit s = (Ok records, s') ->
  (main_loop urls limit [] [] s).1.1 = map legacy_row records
  /\ (main_loop urls limit [] [] s).2 = s'.
Proof.
  revert s records. induction urls as [|u urls IH]; intros s records.
  - cbn. by intros [= <- <-].
  - cbn [concat_results main_loop].
    destruct (scrape_url u limit EmptyString s) as [[results|e] s1]; [|done].
    destruct (concat_results urls limit s1) as [[more|e] s2] eqn:Hmore;
      [|done].
    intros [= <- <-]. destruct (IH s1 more Hmore) as [Hrows Hstate].
    destruct results as [|r results]; rewrite main_loop_acc; cbn [fst snd].
    + by rewrite Hrows, Hstate.
    + by rewrite Hrows, Hstate, map_app.
Qed.

End MainFacts.

(** X19.  The loop of [main] reports some of the URLs as failed, in the
    order they were given, and has at least one row and at most [limit]
    rows for each of the others, counted together.  Every row has five
    fields.  When [scrape_all] returns for the same non-blank URLs,
    [main] has the rows of its records and leaves the scraper in the
    same state. *)
Theorem main_loop_outcome `{Platform} urls limit s :
  let out := main_loop urls limit [] [] s in
  sublist out.1.2 urls
  /\ (Z.of_nat (length out.1.1)
      <= Z.max 0 limit * Z.of_nat (length urls - length out.1.2))%Z
  /\ length urls - length out.1.2 <= length out.1.1
  /\ Forall (fun row => length row = 5) out.1.1
  /\ (Forall (fun u => not_blank u = true) urls ->
      forall records s',
        scrape_all urls limit s = (Ok records, s') ->
        out.1.1 = map legacy_row records /\ out.2 = s').
Proof.
  cbn zeta.
  destruct (main_loop_shape urls limit s) as (Hsub & Hcount & Hall & _ & Hrows).
  split; [done|]. split; [done|]. split; [lia|]. split; [done|].
  intros Hurls records s'. rewrite scrape_all_as_concat.
  assert (List.filter not_blank urls = urls) as ->.
  { clear -Hurls. induction Hurls as [|u urls Hu _ IH]; [done|].
    cbn [List.filter]. by rewrite Hu, IH. }
  apply main_loop_concat.
Qed.

Lemma main_loop_outcome_witness :
  (@main_loop small_web three_urls 2 [] [] start_state).1.1
  = map legacy_row (@batch_records small_web three_urls 2 start_state).
Proof.
  destruct (@main_loop_outcome small_web three_urls 2 start_state)
    as (_ & _ & _ & _ & Hsame).
  refine (proj1 (Hsame _ (@batch_records small_web three_urls 2 start_state)
                   (@main_loop small_web three_urls 2 [] [] start_state).2 _)).
  - repeat constructor.
  - vm_compute. reflexivity.
Defined.

(** X20.  The limit typed at the prompt is not checked: with a limit
    below 1 the loop of [main] gets no row and reports every URL as
    failed.  The rate limiter is never reached: all that has happened
    to the scraper is that the detector made its requests for the URLs
    it is asked about, which took their time. *)
Theorem main_loop_low_limit `{Platform} urls limit s :
  (limit < 1)%Z ->
  main_loop urls limit [] [] s = ([], urls, surveyed urls s)
  /\ rate_limiter (surveyed urls s) = rate_limiter s.
Proof.
  intros Hlimit. split; [|apply surveyed_rate_limiter].
  revert s. induction urls as [|u urls IH]; intros s; [done|].
  cbn [main_loop]. unfold surveyed. cbn [fold_left].
  destruct (scrape_url_low_limit u limit EmptyString s Hlimit)
    as [[-> ->]|[-> [e ->]]]; rewrite main_loop_acc, IH; done.
Qed.

Lemma main_loop_low_limit_witness :
  @main_loop small_web three_urls 0 [] [] start_state
  = ([], three_urls, @surveyed small_web three_urls start_state)
  /\ rate_limiter (@surveyed small_web three_urls start_state)
     = rate_limiter start_state.
Proof. apply (@main_loop_low_limit small_web three_urls 0 start_state). lia. Defined.

(** ** Text cleaning *)

Section CleanerFacts.

Lemma all_ascii_app a b :
  all_ascii (a +:+ b) = all_ascii a && all_ascii b.
Proof.
  induction a as [|c a IH]; [done|].
  rewrite append_cons. cbn [all_ascii]. rewrite IH. by rewrite andb_assoc.
Qed.

Lemma startswith_char c d s :
  PyStr.startswith (String d s) (String c EmptyString) = Ascii.eqb c d.
Proof. cbn. destruct s; by rewrite andb_true_r. Qed.

Lemma single_spaced_app a b :
  single_spaced (a +:+ b) = true ->
  single_spaced a = true /\ single_spaced b = true.
Proof.
  induction a as [|c a IH]; [done|].
  rewrite append_cons. cbn [single_spaced].
  intros [Hc Hrest]%andb_true_iff. apply IH in Hrest as [Ha Hb].
  split; [|done]. rewrite Ha, andb_true_r.
  destruct (PyStr.is_space c); [|done]. cbn [negb orb] in *.
  apply andb_true_iff in Hc as [Heq Hnext]. rewrite Heq. cbn [andb].
  destruct a as [|d a]; [done|].
  rewrite append_cons in Hnext. by rewrite startswith_char in *.
Qed.

Lemma lstrip_by_suffix p s :
  exists before, s = before +:+ PyStr.lstrip_by p s.
Proof.
  induction s as [|c s [before IH]]; [by exists EmptyString|].
  cbn [PyStr.lstrip_by]. destruct (p c).
  - exists (String c before). by rewrite append_cons, <- IH.
  - by exists EmptyString.
Qed.

Lemma rstrip_by_prefix p s :
  exists after, s = PyStr.rstrip_by p s +:+ after.
Proof.
  unfold PyStr.rstrip_by.
  destruct (lstrip_by_suffix p (String.rev s)) as [before Hrev].
  exists (String.rev before).
  by rewrite <- rev_append, <- Hrev, rev_involutive.
Qed.

(** What [strip] returns is a part of its argument. *)
Lemma strip_part s :
  exists before after, s = before +:+ PyStr.strip s +:+ after.
Proof.
  unfold PyStr.strip.
  destruct (lstrip_by_suffix PyStr.is_space s) as [before Hs].
  destruct (rstrip_by_prefix PyStr.is_space
              (PyStr.lstrip_by PyStr.is_space s)) as [after Ht].
  exists before, after. by rewrite <- Ht.
Qed.

Lemma keep_ascii_all s : all_ascii (keep_ascii s) = true.
Proof.
  induction s as [|c s IH]; [done|]. cbn [keep_ascii].
  destruct (PyStr.code c <? 128)%N eqn:Hc; [|done].
  cbn [all_ascii]. by rewrite Hc, IH.
Qed.

Lemma collapse_spaces_ascii in_run s :
  all_ascii s = true -> all_ascii (collapse_spaces in_run s) = true.
Proof.
  revert in_run. induction s as [|c s IH]; intros in_run; [done|].
  cbn [all_ascii collapse_spaces]. intros [Hc Hs]%andb_true_iff.
  destruct (PyStr.is_space c); [destruct in_run|]; cbn [all_ascii];
    rewrite ?Hc, ?IH; done.
Qed.

Lemma space_is_space c :
  PyStr.is_space c = false -> Ascii.eqb " " c = false.
Proof.
  intros Hc. destruct (Ascii.eqb_spec " " c) as [<-|]; [|done].
  by vm_compute in Hc.
Qed.

Lemma collapse_spaces_single in_run s :
  single_spaced (collapse_spaces in_run s) = true
  /\ (in_run = true ->
      PyStr.startswith (collapse_spaces in_run s) " " = false).
Proof.
  revert in_run. induction s as [|c s IH]; intros in_run; [done|].
  cbn [collapse_spaces]. destruct (PyStr.is_space c) eqn:Hc.
  - destruct in_run; [apply IH|]. split; [|done].
    destruct (IH true) as [Hs Hstart]. cbn [single_spaced].
    rewrite Hs, (Hstart eq_refl). done.
  - destruct (IH false) as [Hs _]. split.
    + cbn [single_spaced]. by rewrite Hc, Hs.
    + intros _. rewrite startswith_char. by apply space_is_space.
Qed.

Lemma no_bracket_cons c s :
  PyStr.contains "<" (String c s) = false ->
  Ascii.eqb c "<" = false /\ PyStr.contains "<" s = false.
Proof.
  cbn [PyStr.contains]. rewrite startswith_char.
  intros [Hc Hs]%orb_false_iff. split; [|done].
  by rewrite Ascii.eqb_sym.
Qed.

Lemma remove_comments_plain s :
  PyStr.contains "<" s = false -> remove_comments 0 s = s.
Proof.
  induction s as [|c s IH]; [done|].
  intros [Hc Hs]%no_bracket_cons. cbn [remove_comments PyStr.startswith].
  rewrite Ascii.eqb_sym, Hc. cbn [andb]. by rewrite IH.
Qed.

Lemma replace_tags_plain s :
  PyStr.contains "<" s = false -> replace_tags 0 s = s.
Proof.
  induction s as [|c s IH]; [done|].
  intros [Hc Hs]%no_bracket_cons. cbn [replace_tags].
  rewrite Hc. by rewrite IH.
Qed.

End CleanerFacts.

(** What [clean_html] returns is sanitized. *)
Lemma clean_html_facts soup_text html_text :
  let cleaned := clean_html soup_text html_text in
  all_ascii cleaned = true
  /\ single_spaced cleaned = true
  /\ PyStr.strip cleaned = cleaned.
Proof.
  cbn zeta. unfold clean_html.
  destruct (present html_text); cbn [negb]; [|done].
  set (text := match soup_text _ with Ok t => t | Raise _ => _ end).
  pose proof (strip_part (collapse_spaces false (keep_ascii text)))
    as (before & after & Hpart).
  pose proof (collapse_spaces_ascii false _ (keep_ascii_all text)) as Hascii.
  pose proof (proj1 (collapse_spaces_single false (keep_ascii text)))
    as Hsingle.
  rewrite Hpart in Hascii, Hsingle.
  rewrite !all_ascii_app in Hascii.
  apply andb_true_iff in Hascii as [_ [Hascii _]%andb_true_iff].
  apply single_spaced_app in Hsingle as [_ Hsingle].
  apply single_spaced_app in Hsingle as [Hsingle _].
  split; [done|]. split; [done|]. apply strip_idempotent.
Qed.

(** X21.  Whatever the HTML parser returns, and also when it fails,
    [clean_html] returns text of ASCII characters only, in which the
    only whitespace is the single space between two words: no space at
    either end, no two spaces in a row, no tab or line break.  [None]
    and the empty string give the empty string.  When the parser fails,
    text without [<] is only sanitized this way: nothing else is taken
    from it. *)
Theorem clean_html_sanitized soup_text html_text :
  let cleaned := clean_html soup_text html_text in
  all_ascii cleaned = true
  /\ single_spaced cleaned = true
  /\ PyStr.strip cleaned = cleaned
  /\ (present html_text = false -> cleaned = EmptyString)
  /\ (forall text e,
        html_text = Some text ->
        PyStr.contains "<" text = false ->
        soup_text text = Raise e ->
        cleaned = PyStr.strip (collapse_spaces false (keep_ascii text))).
Proof.
  cbn zeta.
  destruct (clean_html_facts soup_text html_text) as (Hascii & Hsingle & Hstrip).
  split; [done|]. split; [done|]. split; [done|].
  unfold clean_html. split.
  - by intros ->.
  - intros plain e -> Hplain Hfail.
    destruct (present (Some plain)) eqn:Hpresent; cbn [negb from_option id].
    + by rewrite (remove_comments_plain plain Hplain), Hfail,
        (replace_tags_plain plain Hplain).
    + cbn [present] in Hpresent. by destruct plain.
Qed.

Lemma clean_html_sanitized_witness :
  clean_html no_soup None = EmptyString
  /\ clean_html no_soup (Some "  café   au
 lait ")
     = PyStr.strip (collapse_spaces false (keep_ascii "  café   au
 lait ")).
Proof.
  split.
  - apply (proj1 (proj2 (proj2 (proj2 (clean_html_sanitized no_soup None))))).
    reflexivity.
  - apply (proj2 (proj2 (proj2 (proj2
             (clean_html_sanitized no_soup (Some "  café   au
 lait "))))) "  café   au
 lait " (Exn OtherError "Couldn't find a tree builder with the features you requested: lxml"));
      reflexivity.
Defined.

Section CleanRowsFacts.
Variable soup_text : string -> result string.

Lemma clean_row_five row :
  length row = 5 ->
  exists title date source link summary,
    row = [title; date; source; link; summary]
    /\ clean_row soup_text row
       = Ok [ Some (clean_html soup_text title); date; source; link;
              Some (clean_html soup_text summary) ].
Proof.
  destruct row as [|title [|date [|source [|link [|summary [|]]]]]]; try done.
  intros _. by exists title, date, source, link, summary.
Qed.

Lemma clean_rows_five rows :
  Forall (fun row => length row = 5) rows ->
  exists cleaned,
    clean_rows soup_text rows = Ok cleaned
    /\ Forall2 (fun row clean => clean_row soup_text row = Ok clean)
         rows cleaned.
Proof.
  intros Hrows. unfold clean_rows.
  destruct (mapM (clean_row soup_text) rows) as [cleaned|e] eqn:Hmap.
  - exists cleaned. split; [done|]. by apply mapM_Ok.
  - apply mapM_Raise in Hmap as (before & row & after & -> & _ & Hrow).
    apply Forall_app in Hrows as [_ [Hfive _]%Forall_cons].
    destruct (clean_row_five row Hfive) as (? & ? & ? & ? & ? & _ & Hok).
    by rewrite Hok in Hrow.
Qed.

End CleanRowsFacts.

(** X22.  The cleaning step of [main] never fails on the rows its loop
    collected: it returns as many rows, in the same order, with date,
    source and link as they were and with title and summary run through
    [clean_html], so that both are ASCII text without surplus
    whitespace. *)
Theorem clean_rows_of_main `{Platform} soup_text urls limit s :
  exists cleaned,
    clean_rows soup_text (main_loop urls limit [] [] s).1.1 = Ok cleaned
    /\ Forall2
         (fun row clean =>
            exists title date source link summary,
              row = [title; date; source; link; summary]
              /\ clean = [ Some (clean_html soup_text title); date; source;
                           link; Some (clean_html soup_text summary) ]
              /\ all_ascii (clean_html soup_text title) = true
              /\ single_spaced (clean_html soup_text title) = true
              /\ all_ascii (clean_html soup_text summary) = true
              /\ single_spaced (clean_html soup_text summary) = true)
         (main_loop urls limit [] [] s).1.1 cleaned.
Proof.
  destruct (main_loop_shape urls limit s) as (_ & _ & _ & _ & Hrows).
  cbn zeta in Hrows.
  destruct (clean_rows_five soup_text _ Hrows) as (cleaned & Hclean & Hall).
  exists cleaned. split; [done|].
  clear Hclean. induction Hall as [|row clean rows cleaned Hrow _ IH].
  - constructor.
  - apply Forall_cons in Hrows as [Hfive Hrows].
    constructor; [|by apply IH].
    destruct (clean_row_five soup_text row Hfive)
      as (title & date & source & link & summary & -> & Hok).
    rewrite Hok in Hrow. injection Hrow as <-.
    exists title, date, source, link, summary.
    destruct (clean_html_facts soup_text title) as (Ha & Hs & _).
    destruct (clean_html_facts soup_text summary) as (Ha' & Hs' & _).
    repeat split; done.
Qed.

(** ** Spreadsheet rows and configuration *)

Section RowFacts.
Context `{Platform}.

Lemma legacy_row_to_excel_row address name source_type current item :
  metadata item !! "source_name" = Some (PyStr.or_else name address) ->
  PyStr.truthy address = true ->
  String.eqb (PyStr.or_else name address) (value source_type) = false ->
  legacy_row (to_record address name source_type current item)
  = to_excel_row current item.
Proof.
  intros Hmeta Haddress Hne. unfold legacy_row, to_excel_row.
  rewrite Hmeta. cbn [from_option id].
  assert (r_source (to_record address name source_type current item)
          = PyStr.or_else name address) as ->; [|done].
  destruct name as [|c name'].
  - rewrite (to_record_unnamed _ _ _ _ address) by done.
    cbn [PyStr.or_else PyStr.truthy] in Hne. by rewrite Hne.
  - rewrite to_record_named by done.
    cbn [PyStr.or_else PyStr.truthy] in *. by rewrite Hne.
Qed.

End RowFacts.

(** X23.  The rows [main] and [scrape_all_websites] build from the
    records of [scrape_url] are the rows [ContentItem.to_excel_row]
    gives for the items of the strategy, read at the same time: the two
    conversions of the code agree, unless the caller's name is the tag
    of the source type. *)
Theorem scrape_url_rows_are_excel_rows `{Platform} address limit label s
    address' source_type config items :
  dispatch address limit label = Some (address', source_type, config) ->
  label <> value source_type ->
  extract (strategy source_type) config = Ok items ->
  exists records,
    scrape_url address limit label s = (Ok records, after_request address' s)
    /\ map legacy_row records
       = map (to_excel_row
                (datetime_now (now (world (after_request address' s)))))
           items.
Proof.
  intros Hd Hlabel Hitems. eexists. split; [by apply scrape_url_dispatch|].
  rewrite Hitems. cbn [normalized]. rewrite map_map.
  pose proof (dispatch_config _ _ _ _ _ _ Hd) as (_ & _ & Hhttp & _ & Hcfg).
  apply extract_items_shape in Hitems as [_ Hshape].
  apply map_ext_Forall. eapply Forall_impl; [exact Hshape|].
  intros item (Hmeta & _). cbn beta.
  apply legacy_row_to_excel_row.
  - rewrite Hmeta, Hcfg. cbn [name]. apply lookup_singleton_eq.
  - by apply http_url_truthy.
  - destruct label as [|c label']; cbn [PyStr.or_else PyStr.truthy].
    + by apply http_url_not_tag.
    + by apply String.eqb_neq.
Qed.

Lemma scrape_url_rows_are_excel_rows_witness :
  exists records,
    @scrape_url small_web "https://www.example.com/article" 2 EmptyString
      start_state
    = (Ok records,
       @after_request small_web "https://www.example.com/article" start_state)
    /\ map legacy_row records
       = map (to_excel_row
                (@datetime_now small_web
                   (now (world (@after_request small_web
                                  "https://www.example.com/article"
                                  start_state)))))
           [ _create_content_item "https://www.example.com/article"
               (Some "Example") (Some "Hello world") STATIC_HTML None
               (Some "Unknown")
               {[ "source_name" := "https://www.example.com/article" ]} ].
Proof.
  apply (@scrape_url_rows_are_excel_rows small_web
           "https://www.example.com/article" 2 EmptyString start_state
           "https://www.example.com/article" STATIC_HTML
           {| url := "https://www.example.com/article";
              name := "https://www.example.com/article";
              cfg_source_type := Some STATIC_HTML; max_items := 2;
              enabled := true; use_dynamic_rendering := false |}).
  - reflexivity.
  - discriminate.
  - reflexivity.
Defined.

Section WrapperFacts.
Context `{Platform}.

Lemma filter_not_blank_twice urls :
  Forall (fun u => not_blank u = true) (List.filter not_blank urls).
Proof.
  apply Forall_forall. intros u Hu.
  by apply list_elem_of_In, List.filter_In in Hu as [_ Hu].
Qed.

End WrapperFacts.

(** X24.  [scrape_all_websites] works on a scraper of its own: when it
    returns, its rows are the rows the loop of [main] collects for the
    same URLs without the blank ones, from a new scraper, and the
    scraper ends in the same state; there are at most [limit] rows for
    each URL, of five fields each.  Without a list of URLs it scrapes
    the three standard feeds; with the empty list it scrapes
    nothing. *)
Theorem scrape_all_websites_rows `{Platform} urls limit w rows s :
  scrape_all_websites urls limit w = (Ok rows, s) ->
  let asked := default standard_feeds urls in
  let out :=
    main_loop (List.filter not_blank asked) limit [] []
      (UniversalScraper_init w) in
  out.1.1 = rows
  /\ out.2 = s
  /\ (Z.of_nat (length rows) <= Z.max 0 limit * Z.of_nat (length asked))%Z
  /\ Forall (fun row => length row = 5) rows
  /\ (urls = Some [] -> rows = [] /\ s = UniversalScraper_init w).
Proof.
  unfold scrape_all_websites. cbn zeta.
  destruct (scrape_all (default standard_feeds urls) limit
              (UniversalScraper_init w)) as [[records|e] s'] eqn:Hall;
    [|done].
  cbn [mbind result_bind bind]. intros [= <- <-].
  pose proof Hall as Hconcat. rewrite scrape_all_as_concat in Hconcat.
  destruct (main_loop_concat _ _ _ _ _ Hconcat) as [Hrows Hstate].
  split; [done|]. split; [done|]. split; [|split].
  - rewrite length_map.
    pose proof (concat_results_length
                  (List.filter not_blank (default standard_feeds urls))
                  limit (UniversalScraper_init w) records) as Hlen.
    rewrite Hconcat in Hlen. specialize (Hlen eq_refl).
    pose proof (List.filter_length_le not_blank
                  (default standard_feeds urls)).
    nia.
  - apply Forall_map, Forall_forall. done.
  - intros ->. cbn in Hall. by injection Hall as <- <-.
Qed.

Lemma scrape_all_websites_rows_witness :
  (@main_loop small_web (List.filter not_blank three_urls) 2 [] []
     (UniversalScraper_init time_zero)).1.1
  = map legacy_row
      (@batch_records small_web three_urls 2 (UniversalScraper_init time_zero)).
Proof.
  apply (@scrape_all_websites_rows small_web (Some three_urls) 2 time_zero
           (map legacy_row
              (@batch_records small_web three_urls 2
                 (UniversalScraper_init time_zero)))
           (@scrape_all small_web three_urls 2
              (UniversalScraper_init time_zero)).2).
  vm_compute. reflexivity.
Defined.

Section ConfigFacts.

Lemma migrate_feed_Ok feed config :
  migrate_feed feed = Ok config <->
  exists address label,
    feed !! "url" = Some address
    /\ feed !! "name" = Some label
    /\ html_can_handle address = true
    /\ config = {| url := address; name := label;
                   cfg_source_type := Some RSS_FEED; max_items := 8;
                   enabled := true; use_dynamic_rendering := false |}.
Proof.
  unfold migrate_feed, dict_item, html_can_handle.
  split.
  - destruct (feed !! "url") as [address|]; [|done].
    destruct (feed !! "name") as [label|]; [|done].
    cbn [mbind result_bind bind]. unfold make_SourceConfig.
    destruct (PyStr.truthy address); cbn [negb orb]; [|done].
    destruct (PyStr.startswith address "http://"
              || PyStr.startswith address "https://") eqn:Hhttp;
      cbn [negb]; [|done].
    cbn. intros [= <-]. by exists address, label.
  - intros (address & label & -> & -> & Hhttp & ->).
    cbn [mbind result_bind bind].
    by rewrite (make_SourceConfig_ok address label 8 (Some RSS_FEED) Hhttp).
Qed.

End ConfigFacts.

(** X25.  [migrate_legacy_config] returns a list exactly when every
    feed has both keys and a URL that starts with [http://] or
    [https://]; the list then has one configuration for each feed, in
    order, with the URL and the name of the feed, the feed type and 8
    items at most.  One feed that is not so makes the whole call fail.
    [get_default_sources] is the migration of the three standard feeds
    and does not fail. *)
Theorem migrate_legacy_config_spec rss_feeds :
  (forall sources,
     migrate_legacy_config rss_feeds = Ok sources <->
     Forall2
       (fun feed config =>
          exists address label,
            feed !! "url" = Some address
            /\ feed !! "name" = Some label
            /\ html_can_handle address = true
            /\ config = {| url := address; name := label;
                           cfg_source_type := Some RSS_FEED; max_items := 8;
                           enabled := true;
                           use_dynamic_rendering := false |})
       rss_feeds sources)
  /\ (forall sources,
        migrate_legacy_config rss_feeds = Ok sources ->
        length sources = length rss_feeds)
  /\ get_default_sources = migrate_legacy_config legacy_feeds
  /\ (exists sources,
        get_default_sources = Ok sources /\ map url sources = standard_feeds).
Proof.
  assert (forall sources,
            migrate_legacy_config rss_feeds = Ok sources <->
            Forall2
              (fun feed config =>
                 exists address label,
                   feed !! "url" = Some address
                   /\ feed !! "name" = Some label
                   /\ html_can_handle address = true
                   /\ config = {| url := address; name := label;
                                  cfg_source_type := Some RSS_FEED;
                                  max_items := 8; enabled := true;
                                  use_dynamic_rendering := false |})
              rss_feeds sources) as Hiff.
  { intros sources. unfold migrate_legacy_config. rewrite mapM_Ok.
    split; intros Hall; (eapply Forall2_impl; [exact Hall|]);
      intros feed config; by rewrite migrate_feed_Ok. }
  split; [done|]. split; [|split].
  - intros sources Hok. apply Hiff, Forall2_length in Hok. done.
  - vm_compute. reflexivity.
  - eexists. split; vm_compute; reflexivity.
Qed.

Lemma migrate_legacy_config_spec_witness :
  migrate_legacy_config
    [ {[ "name" := "A"; "url" := "https://a.com/feed" ]} ]
  = Ok [ {| url := "https://a.com/feed"; name := "A";
            cfg_source_type := Some RSS_FEED; max_items := 8;
            enabled := true; use_dynamic_rendering := false |} ].
Proof.
  apply (proj1 (migrate_legacy_config_spec
                  [ {[ "name" := "A"; "url" := "https://a.com/feed" ]} ])).
  constructor; [|constructor].
  exists "https://a.com/feed", "A".
  repeat split; vm_compute; reflexivity.
Defined.
